(** * Anonymous-token API proxy worker: credential codec, rate limiter,
      usage tracker and request routing.

    Shallow embedding of the worker script (signJWT, verifyJWT,
    verifyAnonymousToken, checkRateLimit, updateUserStats, authenticateUser,
    handleExternalApiRequest, handleTokenRequest, fetch) together with the
    platform functions it calls (btoa, atob, JSON.stringify, JSON.parse,
    String.prototype.split, TextEncoder, crypto.subtle HMAC). *)

From Stdlib Require Import ZArith NArith List Ascii String Lia Bool.
From Stdlib Require Import Decimal DecimalZ.
From stdpp Require Import base option list numbers countable gmap fin_maps.

Import ListNotations.
Local Open Scope Z_scope.
Set Warnings "-register-all".

(** ** JavaScript strings

    A JavaScript string is a sequence of 16-bit code units.  A code unit is
    an [N]; the worker only builds strings of units below 65536. *)

Abbreviation jsstring := (list N).

(** A string literal of the script, as its code units. *)
Definition str (s : string) : list N :=
  List.map N_of_ascii (list_ascii_of_string s).

Definition ch (a : ascii) : N := N_of_ascii a.

Fixpoint jsstring_eqb (a b : list N) : bool :=
  match a, b with
  | [], [] => true
  | x :: a', y :: b' => N.eqb x y && jsstring_eqb a' b'
  | _, _ => false
  end.

(** [s.startsWith(p)] *)
Fixpoint startsWith (p s : list N) : bool :=
  match p, s with
  | [], _ => true
  | x :: p', y :: s' => N.eqb x y && startsWith p' s'
  | _ :: _, [] => false
  end.

(** [s.substring(n)] for [0 <= n]. *)
Definition substring (n : nat) (s : list N) : list N := List.skipn n s.

(** [s.split(sep)] for a one-unit separator: the segments between the
    occurrences of [sep], an empty string giving one empty segment. *)
Fixpoint split (sep : N) (s : list N) : list (list N) :=
  match s with
  | [] => [[]]
  | c :: s' =>
      if N.eqb c sep then [] :: split sep s'
      else match split sep s' with
           | seg :: segs => (c :: seg) :: segs
           | [] => [[c]]
           end
  end.

Definition DOT : N := 46.

(** ** btoa and atob

    [btoa] throws InvalidCharacterError when the string holds a code unit
    above 0xFF; otherwise it encodes the units as bytes.  [atob] is the
    forgiving base64 decoder of the HTML standard. *)

Definition b64char (v : N) : N :=
  (if v <? 26 then v + 65
   else if v <? 52 then v - 26 + 97
   else if v <? 62 then v - 52 + 48
   else if v =? 62 then 43
   else 47)%N.

Definition b64val (c : N) : option N :=
  (if (65 <=? c) && (c <=? 90) then Some (c - 65)
   else if (97 <=? c) && (c <=? 122) then Some (c - 97 + 26)
   else if (48 <=? c) && (c <=? 57) then Some (c - 48 + 52)
   else if c =? 43 then Some 62
   else if c =? 47 then Some 63
   else None)%N.

Definition PAD : N := 61.

(** The 6-bit groups of a byte sequence; a last group of one or two bytes
    is completed with zero bits. *)
Fixpoint sextets (l : list N) : list N :=
  match l with
  | [] => []
  | [a] => [a / 4; (a mod 4) * 16]%N
  | [a; b] => [a / 4; (a mod 4) * 16 + b / 16; (b mod 16) * 4]%N
  | a :: b :: c :: r =>
      (a / 4 :: (a mod 4) * 16 + b / 16 :: (b mod 16) * 4 + c / 64
         :: c mod 64 :: sextets r)%N
  end.

Definition padding (l : list N) : list N :=
  match (length l mod 3)%nat with
  | 0%nat => []
  | 1%nat => [PAD; PAD]
  | _ => [PAD]
  end.

Definition btoa_bytes (l : list N) : list N :=
  List.map b64char (sextets l) ++ padding l.

Definition is_latin1 (s : list N) : bool := forallb (fun c => (c <=? 255)%N) s.

Definition btoa (s : list N) : option (list N) :=
  if is_latin1 s then Some (btoa_bytes s) else None.

(** ASCII whitespace: TAB, LF, FF, CR, SPACE. *)
Definition is_ascii_ws (c : N) : bool :=
  ((c =? 9) || (c =? 10) || (c =? 12) || (c =? 13) || (c =? 32))%N.

(** Removes one or two trailing [=]. *)
Definition strip_padding (d : list N) : list N :=
  match rev d with
  | p :: q :: r =>
      if (p =? PAD)%N then
        if (q =? PAD)%N then rev r else rev (q :: r)
      else d
  | [p] => if (p =? PAD)%N then [] else d
  | [] => d
  end.

(** The bytes of a sequence of 6-bit groups, leftover bits dropped. *)
Fixpoint unsextets (l : list N) : list N :=
  match l with
  | s1 :: s2 :: s3 :: s4 :: r =>
      (s1 * 4 + s2 / 16 :: (s2 mod 16) * 16 + s3 / 4 :: (s3 mod 4) * 64 + s4
         :: unsextets r)%N
  | [s1; s2; s3] => [s1 * 4 + s2 / 16; (s2 mod 16) * 16 + s3 / 4]%N
  | [s1; s2] => [s1 * 4 + s2 / 16]%N
  | _ => []
  end.

Fixpoint map_option {A B} (f : A -> option B) (l : list A) : option (list B) :=
  match l with
  | [] => Some []
  | x :: l' =>
      match f x with
      | Some y => match map_option f l' with
                  | Some ys => Some (y :: ys)
                  | None => None
                  end
      | None => None
      end
  end.

Definition atob (s : list N) : option (list N) :=
  let d := List.filter (fun c => negb (is_ascii_ws c)) s in
  let d := if (length d mod 4 =? 0)%nat then strip_padding d else d in
  if (length d mod 4 =? 1)%nat then None
  else match map_option b64val d with
       | Some vs => Some (unsextets vs)
       | None => None
       end.

(** ** JSON

    The values [JSON.parse] builds and [JSON.stringify] prints.  A number
    is a Number of the script: [JNum n] is the Number value for the integer
    [n] (the double nearest to [n], which is [n] itself up to [2^53], and
    infinite from [2^1024] on), and [JReal m e] is the finite Number
    [m * 2^e] that is not an integer, with [m] odd and [e < 0].  An object
    is the list of its members in property order. *)

Inductive json : Type :=
| JNull
| JBool (b : bool)
| JNum (n : Z)
| JReal (m e : Z)
| JStr (s : list N)
| JArr (l : list json)
| JObj (l : list (list N * json)).

(** The value of the last member named [k], as a property read sees it
    after [JSON.parse], where a repeated name overwrites. *)
Fixpoint obj_get (k : list N) (l : list (list N * json)) : option json :=
  match l with
  | [] => None
  | (k', v) :: l' =>
      match obj_get k l' with
      | Some w => Some w
      | None => if jsstring_eqb k' k then Some v else None
      end
  end.

Definition hex_digit (d : N) : N :=
  (if d <? 10 then d + 48 else d - 10 + 97)%N.

(** [\uXXXX] with lowercase digits. *)
Definition u_escape (c : N) : list N :=
  [92; 117; hex_digit (c / 4096); hex_digit ((c / 256) mod 16);
   hex_digit ((c / 16) mod 16); hex_digit (c mod 16)]%N.

Definition is_high_surrogate (c : N) : bool := ((55296 <=? c) && (c <=? 56319))%N.
Definition is_low_surrogate (c : N) : bool := ((56320 <=? c) && (c <=? 57343))%N.

Definition quote_unit (c : N) : list N :=
  (if c =? 8 then [92; 98]
   else if c =? 9 then [92; 116]
   else if c =? 10 then [92; 110]
   else if c =? 12 then [92; 102]
   else if c =? 13 then [92; 114]
   else if c =? 34 then [92; 34]
   else if c =? 92 then [92; 92]
   else if c <? 32 then u_escape c
   else [c])%N.

(** The body of a quoted string: escapes for the quote, the backslash and
    the control characters; a surrogate that is not part of a pair is
    escaped, a pair is kept. *)
Fixpoint quote_units (s : list N) : list N :=
  match s with
  | [] => []
  | c :: r =>
      if is_high_surrogate c then
        match r with
        | d :: r' =>
            if is_low_surrogate d then c :: d :: quote_units r'
            else u_escape c ++ quote_units r
        | [] => u_escape c
        end
      else if is_low_surrogate c then u_escape c ++ quote_units r
      else quote_unit c ++ quote_units r
  end.

Definition quote (s : list N) : list N := 34%N :: quote_units s ++ [34%N].

Fixpoint uint_units (u : Decimal.uint) : list N :=
  match u with
  | Nil => []
  | D0 u => 48 :: uint_units u
  | D1 u => 49 :: uint_units u
  | D2 u => 50 :: uint_units u
  | D3 u => 51 :: uint_units u
  | D4 u => 52 :: uint_units u
  | D5 u => 53 :: uint_units u
  | D6 u => 54 :: uint_units u
  | D7 u => 55 :: uint_units u
  | D8 u => 56 :: uint_units u
  | D9 u => 57 :: uint_units u
  end%N.

(** The decimal digits of an integer, [n.toString()]. *)
Definition number_units (n : Z) : list N :=
  match Z.to_int n with
  | Pos u => uint_units u
  | Neg u => 45%N :: uint_units u
  end.

(** ** Numbers *)

(** A Number: the finite ones are [m * 2^e]. *)
Inductive Double : Type :=
| Dyadic (m e : Z)
| Infinity (negative : bool).

(** The nearest integer to [n / d], for [0 < d]; a tie goes to the even one. *)
Definition round_half_even (n d : Z) : Z :=
  let f := n / d in
  let r := n mod d in
  if 2 * r <? d then f
  else if d <? 2 * r then f + 1
  else if Z.even f then f else f + 1.

(** [floor (log2 (num / den))] for positive [num] and [den]. *)
Definition binary_exponent (num den : Z) : Z :=
  let e := Z.log2 num - Z.log2 den in
  if (if 0 <=? e then num <? den * 2 ^ e else num * 2 ^ (- e) <? den)
  then e - 1 else e.

(** The Number value for the positive rational [num / den]: rounded to
    53 significant bits, or to a multiple of [2^-1074] below the normal
    range, ties to even; from [2^1024] on it is infinite. *)
Definition round_positive (num den : Z) : Double :=
  let e := Z.max (binary_exponent num den - 52) (-1074) in
  let m := if 0 <=? e then round_half_even num (den * 2 ^ e)
           else round_half_even (num * 2 ^ (- e)) den in
  if (0 <=? e) && (2 ^ 1024 <=? m * 2 ^ e) then Infinity false else Dyadic m e.

(** The Number value for [num / den], for [0 < den]. *)
Definition Number_value (num den : Z) : Double :=
  if num =? 0 then Dyadic 0 0
  else if 0 <? num then round_positive num den
  else match round_positive (- num) den with
       | Dyadic m e => Dyadic (- m) e
       | Infinity _ => Infinity true
       end.

(** [x < y] on Numbers. *)
Definition Double_ltb (x y : Double) : bool :=
  match x, y with
  | Dyadic m1 e1, Dyadic m2 e2 =>
      let e := Z.min e1 e2 in m1 * 2 ^ (e1 - e) <? m2 * 2 ^ (e2 - e)
  | Dyadic _ _, Infinity negative => negb negative
  | Infinity negative, Dyadic _ _ => negative
  | Infinity n1, Infinity n2 => n1 && negb n2
  end.

Definition Double_eqb (x y : Double) : bool :=
  negb (Double_ltb x y) && negb (Double_ltb y x).

(** *** Number::toString *)

(** The number of decimal digits of a positive integer. *)
Definition decimal_length (n : Z) : Z := Z.of_nat (length (number_units n)).

(** [n] with [10^(n-1) <= num / den < 10^n], for positive [num] and [den]. *)
Definition decimal_exponent (num den : Z) : Z :=
  let d := decimal_length num - decimal_length den in
  if (if 0 <=? d then den * 10 ^ d <=? num else den <=? num * 10 ^ (- d))
  then d + 1 else d.

(** Whether [s * 10^p] has the Number value [x]. *)
Definition reads_as (x : Double) (s p : Z) : bool :=
  Double_eqb x (if 0 <=? p then Number_value (s * 10 ^ p) 1
                else Number_value s (10 ^ (- p))).

(** The digits [s] and the power [p] of the shortest decimal [s * 10^p]
    that has the Number value [x = num / den]; with [k] digits, the
    candidates are the two multiples of [10^(n-k)] around [x], and of two
    that read as [x] the closer one is taken, the even one on a tie. *)
Fixpoint shortest_decimal (fuel : nat) (x : Double) (num den n k : Z) : Z * Z :=
  let p := n - k in
  let '(n', d') := if 0 <=? p then (num, den * 10 ^ p) else (num * 10 ^ (- p), den) in
  let low := n' / d' in
  let r := n' mod d' in
  let low_ok := (0 <? low) && reads_as x low p in
  let high_ok := reads_as x (low + 1) p in
  match fuel with
  | O => (low, p)
  | S fuel' =>
      if low_ok && high_ok then
        (if 2 * r <? d' then low
         else if d' <? 2 * r then low + 1
         else if Z.even low then low else low + 1, p)
      else if low_ok then (low, p)
      else if high_ok then (low + 1, p)
      else shortest_decimal fuel' x num den n (k + 1)
  end.

(** Drops the zeros at the end of [s * 10^p]. *)
Fixpoint drop_zeros (fuel : nat) (s p : Z) : Z * Z :=
  match fuel with
  | O => (s, p)
  | S fuel' => if (s mod 10 =? 0) && negb (s =? 0) then drop_zeros fuel' (s / 10) (p + 1)
               else (s, p)
  end.

(** The text of the number with digits [digits] and the decimal point
    after the [n]-th of them. *)
Definition format_decimal (digits : list N) (n : Z) : list N :=
  let k := Z.of_nat (length digits) in
  if (k <=? n) && (n <=? 21) then digits ++ repeat 48%N (Z.to_nat (n - k))
  else if (0 <? n) && (n <=? 21) then
    firstn (Z.to_nat n) digits ++ 46%N :: skipn (Z.to_nat n) digits
  else if (-6 <? n) && (n <=? 0) then
    48%N :: 46%N :: repeat 48%N (Z.to_nat (- n)) ++ digits
  else
    let exponent :=
      101%N :: (if 0 <=? n - 1 then 43%N else 45%N) :: number_units (Z.abs (n - 1)) in
    match digits with
    | [] => exponent
    | [d] => d :: exponent
    | d :: rest => d :: 46%N :: rest ++ exponent
    end.

(** [String(x)] for a positive Number [x]. *)
Definition positive_toString (x : Double) : list N :=
  match x with
  | Infinity _ => str "Infinity"
  | Dyadic m e =>
      let '(num, den) := if 0 <=? e then (m * 2 ^ e, 1) else (m, 2 ^ (- e)) in
      let '(s, p) := shortest_decimal 17 x num den (decimal_exponent num den) 1 in
      let '(s, p) := drop_zeros 17 s p in
      format_decimal (number_units s) (decimal_length s + p)
  end.

(** [String(x)] *)
Definition Number_toString (x : Double) : list N :=
  match x with
  | Dyadic m e =>
      if m =? 0 then str "0"
      else if m <? 0 then 45%N :: positive_toString (Dyadic (- m) e)
      else positive_toString x
  | Infinity true => 45%N :: positive_toString (Infinity false)
  | Infinity false => positive_toString x
  end.

Fixpoint JSON_stringify (v : json) : list N :=
  match v with
  | JNull => str "null"
  | JBool true => str "true"
  | JBool false => str "false"
  | JNum n => number_units n
  | JReal m e => Number_toString (Dyadic m e)
  | JStr s => quote s
  | JArr l =>
      91%N :: (fix elements (l : list json) : list N :=
                 match l with
                 | [] => []
                 | [x] => JSON_stringify x
                 | x :: l' => JSON_stringify x ++ 44%N :: elements l'
                 end) l ++ [93%N]
  | JObj l =>
      123%N :: (fix members (l : list (list N * json)) : list N :=
                  match l with
                  | [] => []
                  | [(k, x)] => quote k ++ 58%N :: JSON_stringify x
                  | (k, x) :: l' =>
                      quote k ++ 58%N :: JSON_stringify x ++ 44%N :: members l'
                  end) l ++ [125%N]
  end.

Definition is_json_ws (c : N) : bool :=
  ((c =? 32) || (c =? 9) || (c =? 10) || (c =? 13))%N.

Fixpoint skip_ws (s : list N) : list N :=
  match s with
  | c :: r => if is_json_ws c then skip_ws r else s
  | [] => []
  end.

Definition hex_val (c : N) : option N :=
  (if (48 <=? c) && (c <=? 57) then Some (c - 48)
   else if (97 <=? c) && (c <=? 102) then Some (c - 97 + 10)
   else if (65 <=? c) && (c <=? 70) then Some (c - 65 + 10)
   else None)%N.

Definition hex4 (a b c d : N) : option N :=
  match hex_val a, hex_val b, hex_val c, hex_val d with
  | Some x, Some y, Some z, Some w => Some (((x * 16 + y) * 16 + z) * 16 + w)%N
  | _, _, _, _ => None
  end.

(** The unit a one-letter escape stands for. *)
Definition unescape (e : N) : option N :=
  (if e =? 34 then Some 34
   else if e =? 92 then Some 92
   else if e =? 47 then Some 47
   else if e =? 98 then Some 8
   else if e =? 102 then Some 12
   else if e =? 110 then Some 10
   else if e =? 114 then Some 13
   else if e =? 116 then Some 9
   else None)%N.

(** Reads a string after its opening quote, up to and including the
    closing quote. *)
Fixpoint parse_string_body (s : list N) : option (list N * list N) :=
  match s with
  | [] => None
  | c :: r =>
      if (c =? 34)%N then Some ([], r)
      else if (c =? 92)%N then
        match r with
        | [] => None
        | e :: r' =>
            if (e =? 117)%N then
              match r' with
              | h1 :: h2 :: h3 :: h4 :: r'' =>
                  match hex4 h1 h2 h3 h4 with
                  | Some u =>
                      match parse_string_body r'' with
                      | Some (t, rest) => Some (u :: t, rest)
                      | None => None
                      end
                  | None => None
                  end
              | _ => None
              end
            else
              match unescape e with
              | Some u =>
                  match parse_string_body r' with
                  | Some (t, rest) => Some (u :: t, rest)
                  | None => None
                  end
              | None => None
              end
        end
      else if (c <? 32)%N then None
      else
        match parse_string_body r with
        | Some (t, rest) => Some (c :: t, rest)
        | None => None
        end
  end.

Definition is_digit (c : N) : bool := ((48 <=? c) && (c <=? 57))%N.

Fixpoint span_digits (s : list N) : list N * list N :=
  match s with
  | c :: r =>
      if is_digit c then let '(ds, rest) := span_digits r in (c :: ds, rest)
      else ([], s)
  | [] => ([], [])
  end.

Fixpoint units_uint (ds : list N) : Decimal.uint :=
  match ds with
  | [] => Nil
  | c :: r =>
      let u := units_uint r in
      (if c =? 48 then D0 u else if c =? 49 then D1 u
       else if c =? 50 then D2 u else if c =? 51 then D3 u
       else if c =? 52 then D4 u else if c =? 53 then D5 u
       else if c =? 54 then D6 u else if c =? 55 then D7 u
       else if c =? 56 then D8 u else D9 u)%N
  end.

(** Halves [m] and raises [e] while [m] is even and [e] negative. *)
Fixpoint reduce_dyadic (fuel : nat) (m e : Z) : Z * Z :=
  match fuel with
  | O => (m, e)
  | S fuel' =>
      if (e <? 0) && Z.even m && negb (m =? 0) then reduce_dyadic fuel' (m / 2) (e + 1)
      else (m, e)
  end.

(** The parsed value for a Number: [JNum] for an integer, an infinite one
    being the Number value for [2^1024], [JReal] otherwise. *)
Definition json_of_Number (x : Double) : json :=
  match x with
  | Infinity negative => JNum (if negative then - 2 ^ 1024 else 2 ^ 1024)
  | Dyadic m e =>
      if 0 <=? e then JNum (m * 2 ^ e)
      else
        let '(m', e') := reduce_dyadic (Z.to_nat (- e)) m e in
        if m' =? 0 then JNum 0
        else if 0 <=? e' then JNum m' else JReal m' e'
  end.

(** The value of the literal with the digits [digits], read as an
    integer, times [10^power]. *)
Definition number_of_decimal (negative : bool) (digits : list N) (power : Z) : json :=
  let magnitude := Z.of_uint (units_uint digits) in
  let signed := if negative then - magnitude else magnitude in
  json_of_Number
    (if 0 <=? power then Number_value (signed * 10 ^ power) 1
     else Number_value signed (10 ^ (- power))).

(** Reads the rest of a literal whose integer part [int_digits] is
    followed by a fraction ([.] and at least one digit), an exponent ([e]
    or [E], an optional sign, at least one digit), or both. *)
Definition parse_fraction (negative : bool) (int_digits rest : list N)
  : option (json * list N) :=
  let fraction :=
    match rest with
    | c :: r =>
        if (c =? 46)%N then
          let '(fs, r') := span_digits r in
          match fs with
          | [] => None
          | _ :: _ => Some (fs, r')
          end
        else Some ([], rest)
    | [] => Some ([], rest)
    end in
  match fraction with
  | None => None
  | Some (fs, rest1) =>
      let exponent :=
        match rest1 with
        | c :: r =>
            if ((c =? 101) || (c =? 69))%N then
              let '(minus, r1) :=
                match r with
                | c' :: r' =>
                    if (c' =? 45)%N then (true, r')
                    else if (c' =? 43)%N then (false, r')
                    else (false, r)
                | [] => (false, r)
                end in
              let '(es, r2) := span_digits r1 in
              match es with
              | [] => None
              | _ :: _ =>
                  let e := Z.of_uint (units_uint es) in
                  Some (if minus then - e else e, r2)
              end
            else Some (0, rest1)
        | [] => Some (0, rest1)
        end in
      match exponent with
      | None => None
      | Some (e, rest2) =>
          Some (number_of_decimal negative (int_digits ++ fs)
                  (e - Z.of_nat (length fs)), rest2)
      end
  end.

(** Reads a number literal: an optional minus sign, then [0] or a digit
    sequence without a leading zero, then an optional fraction and an
    optional exponent.  A literal of digits alone is the integer it
    writes. *)
Definition parse_number (s : list N) : option (json * list N) :=
  let '(neg, s1) := match s with
                    | c :: r => if (c =? 45)%N then (true, r) else (false, s)
                    | [] => (false, s)
                    end in
  let '(ds, rest) := span_digits s1 in
  match ds with
  | [] => None
  | d :: ds' =>
      if (d =? 48)%N && negb (match ds' with [] => true | _ => false end) then None
      else
        let frac := match rest with
                    | c :: _ => ((c =? 46) || (c =? 101) || (c =? 69))%N
                    | [] => false
                    end in
        if frac then parse_fraction neg ds rest
        else
          let u := units_uint ds in
          Some (JNum (Z.of_int (if neg then Neg u else Pos u)), rest)
  end.

Fixpoint parse_value (fuel : nat) (s : list N) {struct fuel}
  : option (json * list N) :=
  match fuel with
  | O => None
  | S f =>
      match skip_ws s with
      | [] => None
      | c :: r =>
          if (c =? 123)%N then
            match skip_ws r with
            | c' :: r' =>
                if (c' =? 125)%N then Some (JObj [], r')
                else match parse_members f r with
                     | Some (ms, rest) => Some (JObj ms, rest)
                     | None => None
                     end
            | [] => None
            end
          else if (c =? 91)%N then
            match skip_ws r with
            | c' :: r' =>
                if (c' =? 93)%N then Some (JArr [], r')
                else match parse_elements f r with
                     | Some (vs, rest) => Some (JArr vs, rest)
                     | None => None
                     end
            | [] => None
            end
          else if (c =? 34)%N then
            match parse_string_body r with
            | Some (t, rest) => Some (JStr t, rest)
            | None => None
            end
          else if startsWith (str "true") (c :: r) then
            Some (JBool true, List.skipn 4 (c :: r))
          else if startsWith (str "false") (c :: r) then
            Some (JBool false, List.skipn 5 (c :: r))
          else if startsWith (str "null") (c :: r) then
            Some (JNull, List.skipn 4 (c :: r))
          else parse_number (c :: r)
      end
  end
with parse_members (fuel : nat) (s : list N) {struct fuel}
  : option (list (list N * json) * list N) :=
  match fuel with
  | O => None
  | S f =>
      match skip_ws s with
      | c :: r =>
          if (c =? 34)%N then
            match parse_string_body r with
            | Some (k, r1) =>
                match skip_ws r1 with
                | c1 :: r2 =>
                    if (c1 =? 58)%N then
                      match parse_value f r2 with
                      | Some (v, r3) =>
                          match skip_ws r3 with
                          | c3 :: r4 =>
                              if (c3 =? 44)%N then
                                match parse_members f r4 with
                                | Some (ms, r5) => Some ((k, v) :: ms, r5)
                                | None => None
                                end
                              else if (c3 =? 125)%N then Some ([(k, v)], r4)
                              else None
                          | [] => None
                          end
                      | None => None
                      end
                    else None
                | [] => None
                end
            | None => None
            end
          else None
      | [] => None
      end
  end
with parse_elements (fuel : nat) (s : list N) {struct fuel}
  : option (list json * list N) :=
  match fuel with
  | O => None
  | S f =>
      match parse_value f s with
      | Some (v, r1) =>
          match skip_ws r1 with
          | c1 :: r2 =>
              if (c1 =? 44)%N then
                match parse_elements f r2 with
                | Some (vs, r3) => Some (v :: vs, r3)
                | None => None
                end
              else if (c1 =? 93)%N then Some ([v], r2)
              else None
          | [] => None
          end
      | None => None
      end
  end.

(** [JSON.parse]: one value, then nothing but whitespace.  Every nested
    call has read at least one unit of the text, so the length of the
    text bounds the nesting. *)
Definition JSON_parse (s : list N) : option json :=
  match parse_value (S (length s)) s with
  | Some (v, rest) =>
      match skip_ws rest with
      | [] => Some v
      | _ :: _ => None
      end
  | None => None
  end.

(** ** Exceptions and results *)

(** The values the script and the platform throw. *)
Inductive Exn : Type :=
| Err_InvalidTokenFormat          (* new Error('Invalid token format') *)
| Err_InvalidSignature            (* new Error('Invalid signature') *)
| Err_TokenExpired                (* new Error('Token expired') *)
| Err_InvalidTokenType            (* new Error('Invalid token type') *)
| Err_TokenVerificationFailed (cause : Exn)
                                  (* new Error(`Token verification failed: ${error.message}`) *)
| Err_InvalidAnonymousToken       (* new Error('Invalid anonymous token') *)
| Err_InvalidCharacter            (* InvalidCharacterError of btoa and atob *)
| Err_Syntax                      (* SyntaxError of JSON.parse and request.json() *)
| Err_Type                        (* TypeError: a property read on null *)
| Err_Crypto                      (* DataError of crypto.subtle.importKey *)
| Err_KV                          (* a rejected KV get or put *)
| Err_Network.                    (* a rejected fetch of the downstream service *)

Inductive Outcome (A : Type) : Type :=
| Ok (a : A)
| Throw (e : Exn).
Arguments Ok {A} a.
Arguments Throw {A} e.

Definition bindO {A B} (m : Outcome A) (k : A -> Outcome B) : Outcome B :=
  match m with
  | Ok a => k a
  | Throw e => Throw e
  end.

Notation "'let*' x ':=' m 'in' k" := (bindO m (fun x => k))
  (at level 10, x name, m at level 100, k at level 200, only parsing).

(** [try { m } catch (error) { handler error }] *)
Definition try_catch {A} (m : Outcome A) (handler : Exn -> Outcome A) : Outcome A :=
  match m with
  | Ok a => Ok a
  | Throw e => handler e
  end.

Definition of_option {A} (e : Exn) (o : option A) : Outcome A :=
  match o with
  | Some a => Ok a
  | None => Throw e
  end.

(** ** Property reads and coercions on parsed values *)

(** [v.k] for one of the names the script reads (userId, iat, exp, type):
    a TypeError on null, undefined on a value that is not an object. *)
Definition get_prop (v : json) (k : list N) : Outcome (option json) :=
  match v with
  | JNull => Throw Err_Type
  | JObj l => Ok (obj_get k l)
  | _ => Ok None
  end.

(** ToBoolean; [None] is undefined. *)
Definition truthy (o : option json) : bool :=
  match o with
  | None => false
  | Some JNull => false
  | Some (JBool b) => b
  | Some (JNum n) => negb (n =? 0)
  | Some (JReal _ _) => true
  | Some (JStr s) => match s with [] => false | _ => true end
  | Some (JArr _) | Some (JObj _) => true
  end.

(** [v !== s] for a string literal [s]. *)
Definition strict_neq_string (o : option json) (s : list N) : bool :=
  match o with
  | Some (JStr t) => negb (jsstring_eqb t s)
  | _ => true
  end.

(** [String(v)], as a template literal converts a parsed value.  An
    object converts through its [toString] property: a parsed object that
    has a member of that name has a value there that cannot be called, and
    the conversion throws a TypeError; any other object inherits
    [Object.prototype.toString].  An array joins the conversions of its
    elements with commas, null elements giving the empty string. *)
Fixpoint ToString (v : json) : Outcome (list N) :=
  match v with
  | JNull => Ok (str "null")
  | JBool true => Ok (str "true")
  | JBool false => Ok (str "false")
  | JNum n => Ok (Number_toString (Number_value n 1))
  | JReal m e => Ok (Number_toString (Dyadic m e))
  | JStr s => Ok s
  | JArr l =>
      (fix join (l : list json) : Outcome (list N) :=
         match l with
         | [] => Ok []
         | [x] => match x with JNull => Ok [] | _ => ToString x end
         | x :: l' =>
             let* first := match x with JNull => Ok [] | _ => ToString x end in
             let* others := join l' in
             Ok (first ++ 44%N :: others)
         end) l
  | JObj l =>
      if existsb (fun member => jsstring_eqb (fst member) (str "toString")) l
      then Throw Err_Type
      else Ok (str "[object Object]")
  end.

(** [`${v}`], [None] being undefined. *)
Definition template_value (o : option json) : Outcome (list N) :=
  match o with
  | Some v => ToString v
  | None => Ok (str "undefined")
  end.

(** White space and line terminators that [ToNumber] trims off a string. *)
Definition is_StrWhiteSpaceChar (c : N) : bool :=
  ((9 <=? c) && (c <=? 13) || (c =? 32) || (c =? 160) || (c =? 5760)
   || (8192 <=? c) && (c <=? 8202) || (c =? 8232) || (c =? 8233)
   || (c =? 8239) || (c =? 8287) || (c =? 12288) || (c =? 65279))%N.

Fixpoint trim_start (s : list N) : list N :=
  match s with
  | c :: r => if is_StrWhiteSpaceChar c then trim_start r else s
  | [] => []
  end.

Definition trim (s : list N) : list N := rev (trim_start (rev (trim_start s))).

(** The value of a digit in a radix up to 16. *)
Definition digit_in (radix : N) (c : N) : option N :=
  match hex_val c with
  | Some d => if (d <? radix)%N then Some d else None
  | None => None
  end.

(** The integer a non-empty sequence of digits of the radix writes. *)
Fixpoint radix_value (radix : N) (acc : Z) (s : list N) : option Z :=
  match s with
  | [] => Some acc
  | c :: r =>
      match digit_in radix c with
      | Some d => radix_value radix (acc * Z.of_N radix + Z.of_N d) r
      | None => None
      end
  end.

(** StrUnsignedDecimalLiteral other than [Infinity]: digits with an
    optional fraction, or a fraction alone, then an optional exponent;
    the result is the digits and the power of ten. *)
Definition unsigned_decimal (s : list N) : option (list N * Z) :=
  let '(ds, rest) := span_digits s in
  let fraction :=
    match rest with
    | c :: r => if (c =? 46)%N then Some (span_digits r) else None
    | [] => None
    end in
  let '(fs, rest1, well_formed) :=
    match fraction with
    | Some (fs, r') =>
        (fs, r', negb (match ds, fs with [], [] => true | _, _ => false end))
    | None => ([], rest, negb (match ds with [] => true | _ => false end))
    end in
  if well_formed then
    match rest1 with
    | [] => Some (ds ++ fs, - Z.of_nat (length fs))
    | c :: r =>
        if ((c =? 101) || (c =? 69))%N then
          let '(minus, r1) :=
            match r with
            | c' :: r' =>
                if (c' =? 45)%N then (true, r')
                else if (c' =? 43)%N then (false, r')
                else (false, r)
            | [] => (false, r)
            end in
          match span_digits r1 with
          | (((_ :: _) as es), []) =>
              let e := Z.of_uint (units_uint es) in
              Some (ds ++ fs, (if minus then - e else e) - Z.of_nat (length fs))
          | _ => None
          end
        else None
    end
  else None.

(** [ToNumber] of a string; [None] is NaN. *)
Definition StringToNumber (s : list N) : option Double :=
  match trim s with
  | [] => Some (Dyadic 0 0)
  | c :: r =>
      let non_decimal :=
        if (c =? 48)%N then
          match r with
          | x :: ((_ :: _) as digits) =>
              if ((x =? 120) || (x =? 88))%N then Some (radix_value 16 0 digits)
              else if ((x =? 111) || (x =? 79))%N then Some (radix_value 8 0 digits)
              else if ((x =? 98) || (x =? 66))%N then Some (radix_value 2 0 digits)
              else None
          | _ => None
          end
        else None in
      match non_decimal with
      | Some (Some n) => Some (Number_value n 1)
      | Some None => None
      | None =>
          let '(negative, unsigned) :=
            if (c =? 45)%N then (true, r)
            else if (c =? 43)%N then (false, r)
            else (false, c :: r) in
          if jsstring_eqb unsigned (str "Infinity") then Some (Infinity negative)
          else
            match unsigned_decimal unsigned with
            | Some (digits, power) =>
                let magnitude := Z.of_uint (units_uint digits) in
                let signed := if negative then - magnitude else magnitude in
                Some (if 0 <=? power then Number_value (signed * 10 ^ power) 1
                      else Number_value signed (10 ^ (- power)))
            | None => None
            end
      end
  end.

(** [v < now / 1000] for a parsed value [v] and the clock reading [now]:
    [v] is converted to a primitive and then to a Number, and the
    comparison is false when that is NaN.  An array or an object converts
    through its string, which can throw. *)
Definition less_than_seconds (v : json) (now : Z) : Outcome bool :=
  let* number :=
    match v with
    | JNull => Ok (Some (Dyadic 0 0))
    | JBool b => Ok (Some (Dyadic (if b then 1 else 0) 0))
    | JNum n => Ok (Some (Number_value n 1))
    | JReal m e => Ok (Some (Dyadic m e))
    | JStr s => Ok (StringToNumber s)
    | JArr _ | JObj _ => let* text := ToString v in Ok (StringToNumber text)
    end in
  Ok (match number with
      | Some x => Double_ltb x (Number_value now 1000)
      | None => false
      end).

(** ** Bytes *)

(** [String.fromCharCode(...bytes)] *)
Definition fromCharCode (bs : list Byte.byte) : list N := List.map Byte.to_N bs.

Definition to_uint8 (c : N) : Byte.byte :=
  match Byte.of_N (c mod 256) with
  | Some b => b
  | None => Byte.x00
  end.

(** [Uint8Array.from(s, c => c.charCodeAt(0))] *)
Definition Uint8Array_from (s : list N) : list Byte.byte := List.map to_uint8 s.

Fixpoint bytes_eqb (a b : list Byte.byte) : bool :=
  match a, b with
  | [], [] => true
  | x :: a', y :: b' => Byte.eqb x y && bytes_eqb a' b'
  | _, _ => false
  end.

(** ** The platform

    What the script takes from the runtime and this development leaves
    open.  [hmac_key_ok secret] says that
    [crypto.subtle.importKey('raw', new TextEncoder().encode(secret),
    {name: 'HMAC', hash: 'SHA-256'}, ...)] resolves; [hmac secret data] is
    the result of [crypto.subtle.sign('HMAC', key, new
    TextEncoder().encode(data))] under that key, and
    [crypto.subtle.verify] compares its argument with it. *)
Record Platform : Type := {
  hmac_key_ok : list N -> bool;
  hmac : list N -> list N -> list Byte.byte
}.

(** The MAC is the 32 bytes of HMAC-SHA-256. *)
Definition hmac_sha256_output (P : Platform) : Prop :=
  forall secret data, length (hmac P secret data) = 32%nat.

(** ** Credential codec *)

Definition jwt_header : json :=
  JObj [(str "alg", JStr (str "HS256")); (str "typ", JStr (str "JWT"))].

Definition anonymous : list N := str "anonymous".

(** The payload object [{userId, iat, exp, type}]. *)
Definition payload_object (userId : list N) (iat exp : Z) (type : list N) : json :=
  JObj [(str "userId", JStr userId); (str "iat", JNum iat);
        (str "exp", JNum exp); (str "type", JStr type)].

Section Codec.

Variable P : Platform.

Definition signJWT (payload : json) (secret : list N) : Outcome (list N) :=
  let* encodedHeader := of_option Err_InvalidCharacter (btoa (JSON_stringify jwt_header)) in
  let* encodedPayload := of_option Err_InvalidCharacter (btoa (JSON_stringify payload)) in
  let data := encodedHeader ++ DOT :: encodedPayload in
  if hmac_key_ok P secret then
    let signature := hmac P secret data in
    let* encodedSignature := of_option Err_InvalidCharacter (btoa (fromCharCode signature)) in
    Ok (data ++ DOT :: encodedSignature)
  else Throw Err_Crypto.

(** [payload.exp && payload.exp < Date.now() / 1000], with [now] the
    reading of [Date.now()] in milliseconds: for an integer [exp], the
    comparison [exp < now / 1000] holds exactly when [exp * 1000 < now];
    any other truthy [exp] is converted and compared as a Number, which
    can throw. *)
Definition expired (exp : option json) (now : Z) : Outcome bool :=
  if truthy exp then
    match exp with
    | Some (JNum n) => Ok (n * 1000 <? now)
    | Some v => less_than_seconds v now
    | None => Ok false
    end
  else Ok false.

(** [!s] for a string. *)
Definition not_string (s : list N) : bool :=
  match s with
  | [] => true
  | _ :: _ => false
  end.

(** The first three segments are destructured from [token.split('.')]; a
    missing one is undefined, which the guard rejects as it rejects an
    empty one, so both are read as the empty string here. *)
Definition verifyJWT (token secret : list N) (now : Z) : Outcome json :=
  try_catch
    (let segments := split DOT token in
     let encodedHeader := nth 0 segments [] in
     let encodedPayload := nth 1 segments [] in
     let encodedSignature := nth 2 segments [] in
     if not_string encodedHeader || not_string encodedPayload
        || not_string encodedSignature
     then Throw Err_InvalidTokenFormat
     else
       let data := encodedHeader ++ DOT :: encodedPayload in
       if hmac_key_ok P secret then
         let* signature_text := of_option Err_InvalidCharacter (atob encodedSignature) in
         let signature := Uint8Array_from signature_text in
         let isValid := bytes_eqb signature (hmac P secret data) in
         if negb isValid then Throw Err_InvalidSignature
         else
           let* payload_text := of_option Err_InvalidCharacter (atob encodedPayload) in
           let* payload := of_option Err_Syntax (JSON_parse payload_text) in
           let* exp := get_prop payload (str "exp") in
           let* is_expired := expired exp now in
           if is_expired then Throw Err_TokenExpired
           else Ok payload
       else Throw Err_Crypto)
    (fun error => Throw (Err_TokenVerificationFailed error)).

Definition verifyAnonymousToken (token secret : list N) (now : Z) : Outcome json :=
  try_catch
    (let* payload := verifyJWT token secret now in
     let* type := get_prop payload (str "type") in
     if strict_neq_string type anonymous then Throw Err_InvalidTokenType
     else Ok payload)
    (fun _ => Throw Err_InvalidAnonymousToken).

(** [now] is the reading of [Date.now()]. *)
Definition generateAnonymousToken (userId secret : list N) (now : Z) : Outcome (list N) :=
  let now := now / 1000 in
  let exp := now + 30 * 24 * 60 * 60 in
  signJWT (payload_object userId now exp anonymous) secret.

End Codec.

(** ** A concrete platform: TextEncoder and HMAC-SHA-256

    Used to evaluate the codec on concrete tokens.  Words are 32-bit
    integers in [Z], reduced modulo [2^32] after each addition. *)

Module WebCrypto.

Definition w32 (x : Z) : Z := x mod 4294967296.

Definition rotr (n x : Z) : Z :=
  Z.lor (Z.shiftr x n) (w32 (Z.shiftl x (32 - n))).

Definition Ch (x y z : Z) : Z :=
  Z.lxor (Z.land x y) (Z.land (Z.lxor x 4294967295) z).
Definition Maj (x y z : Z) : Z :=
  Z.lxor (Z.lxor (Z.land x y) (Z.land x z)) (Z.land y z).
Definition Sigma0 (x : Z) : Z := Z.lxor (Z.lxor (rotr 2 x) (rotr 13 x)) (rotr 22 x).
Definition Sigma1 (x : Z) : Z := Z.lxor (Z.lxor (rotr 6 x) (rotr 11 x)) (rotr 25 x).
Definition sigma0 (x : Z) : Z := Z.lxor (Z.lxor (rotr 7 x) (rotr 18 x)) (Z.shiftr x 3).
Definition sigma1 (x : Z) : Z := Z.lxor (Z.lxor (rotr 17 x) (rotr 19 x)) (Z.shiftr x 10).

(** The primes up to 311: the first 64. *)
Definition first_primes : list Z :=
  List.filter
    (fun p => forallb (fun d => negb (p mod d =? 0) || (p <=? d))
                (List.map Z.of_nat (seq 2 17)))
    (List.map Z.of_nat (seq 2 310)).

(** The integer cube root below [2^n], one bit at a time. *)
Fixpoint cube_root_bits (n : nat) (x acc : Z) : Z :=
  match n with
  | O => acc
  | S n' =>
      let c := acc + 2 ^ Z.of_nat n' in
      if c * c * c <=? x then cube_root_bits n' x c else cube_root_bits n' x acc
  end.

(** The round constants: the first 32 bits of the fractional parts of the
    cube roots of the first 64 primes. *)
Definition K256 : list Z :=
  Eval vm_compute in
    List.map (fun p => w32 (cube_root_bits 36 (p * 2 ^ 96) 0)) first_primes.

(** The initial hash value: the first 32 bits of the fractional parts of
    the square roots of the first 8 primes. *)
Definition H256 : list Z :=
  Eval vm_compute in
    List.map (fun p => w32 (Z.sqrt (p * 2 ^ 64))) (firstn 8 first_primes).

(** Big-endian bytes of a word, and back. *)
Definition word_bytes (x : Z) : list Z :=
  [Z.shiftr x 24 mod 256; Z.shiftr x 16 mod 256; Z.shiftr x 8 mod 256; x mod 256].

Fixpoint bytes_words (l : list Z) : list Z :=
  match l with
  | a :: b :: c :: d :: r =>
      (((a * 256 + b) * 256 + c) * 256 + d) :: bytes_words r
  | _ => []
  end.

(** The message, a one bit, zeros up to 56 modulo 64 bytes, and the bit
    length on 8 bytes. *)
Definition pad_message (msg : list Z) : list Z :=
  let len := Z.of_nat (length msg) in
  let zeros := Z.to_nat ((55 - len) mod 64) in
  msg ++ 128 :: repeat 0 zeros
      ++ word_bytes (Z.shiftr (len * 8) 32) ++ word_bytes (w32 (len * 8)).

(** The 64 words of the message schedule, last word first. *)
Fixpoint schedule (n : nat) (rw : list Z) : list Z :=
  match n with
  | O => rw
  | S n' =>
      let w := w32 (sigma1 (nth 1 rw 0) + nth 6 rw 0
                    + sigma0 (nth 14 rw 0) + nth 15 rw 0) in
      schedule n' (w :: rw)
  end.

Definition round (st : list Z) (kw : Z * Z) : list Z :=
  match st with
  | [a; b; c; d; e; f; g; h] =>
      let t1 := h + Sigma1 e + Ch e f g + fst kw + snd kw in
      let t2 := Sigma0 a + Maj a b c in
      [w32 (t1 + t2); a; b; c; w32 (d + t1); e; f; g]
  | _ => st
  end.

Definition compress (hs : list Z) (block : list Z) : list Z :=
  let ws := rev (schedule 48 (rev (bytes_words block))) in
  let st := fold_left round (combine K256 ws) hs in
  List.map (fun p => w32 (fst p + snd p)) (combine hs st).

Fixpoint blocks (n : nat) (l : list Z) : list (list Z) :=
  match n with
  | O => []
  | S n' =>
      match l with
      | [] => []
      | _ => firstn 64 l :: blocks n' (skipn 64 l)
      end
  end.

Definition sha256 (msg : list Z) : list Z :=
  let padded := pad_message msg in
  flat_map word_bytes (fold_left compress (blocks (length padded) padded) H256).

Definition hmac_sha256 (key msg : list Z) : list Z :=
  let key := if (64 <? Z.of_nat (length key)) then sha256 key else key in
  let key := key ++ repeat 0 (64 - length key)%nat in
  let ipad := List.map (Z.lxor 54) key in
  let opad := List.map (Z.lxor 92) key in
  sha256 (opad ++ sha256 (ipad ++ msg)).

(** [new TextEncoder().encode(s)]: UTF-8, a surrogate that is not part of
    a pair being encoded as U+FFFD. *)
Fixpoint utf8_encode (s : list N) : list Z :=
  match s with
  | [] => []
  | c :: r =>
      let z := Z.of_N c in
      if is_high_surrogate c then
        match r with
        | d :: r' =>
            if is_low_surrogate d then
              let cp := 65536 + (z - 55296) * 1024 + (Z.of_N d - 56320) in
              240 + cp / 262144 :: 128 + (cp / 4096) mod 64
                :: 128 + (cp / 64) mod 64 :: 128 + cp mod 64 :: utf8_encode r'
            else 239 :: 191 :: 189 :: utf8_encode r
        | [] => [239; 191; 189]
        end
      else if is_low_surrogate c then 239 :: 191 :: 189 :: utf8_encode r
      else if z <? 128 then z :: utf8_encode r
      else if z <? 2048 then 192 + z / 64 :: 128 + z mod 64 :: utf8_encode r
      else 224 + z / 4096 :: 128 + (z / 64) mod 64 :: 128 + z mod 64 :: utf8_encode r
  end.

Definition byte_of_Z (b : Z) : Byte.byte := to_uint8 (Z.to_N b).

Definition sign (secret data : list N) : list Byte.byte :=
  List.map byte_of_Z (hmac_sha256 (utf8_encode secret) (utf8_encode data)).

(** Importing a raw HMAC key of length zero is a DataError. *)
Definition importable (secret : list N) : bool :=
  match utf8_encode secret with
  | [] => false
  | _ :: _ => true
  end.

Definition platform : Platform :=
  {| hmac_key_ok := importable; hmac := sign |}.

Definition hex_bytes (l : list Z) : list N :=
  flat_map (fun b => [hex_digit (Z.to_N (b / 16)); hex_digit (Z.to_N (b mod 16))]) l.

End WebCrypto.

(** ** Time and calendar dates

    Times are readings of [Date.now()], in milliseconds.  The date string
    [new Date(now).toISOString().split('T')[0]] names the UTC day of [now];
    it is represented by the index of that day since 1970-01-01, and
    [new Date(date)] is UTC midnight of that day. *)

Definition DAY_MS : Z := 24 * 60 * 60 * 1000.

Definition toISODate (now : Z) : Z := now / DAY_MS.

Definition dateValue (date : Z) : Z := date * DAY_MS.

(** [Math.ceil(x / d)] on integers. *)
Definition ceil_div (x d : Z) : Z := - ((- x) / d).

(** [Math.min(...l)] of a list that is not empty. *)
Definition Math_min (l : list Z) : Z :=
  match l with
  | [] => 0
  | x :: l' => fold_left Z.min l' x
  end.

(** ** The KV namespaces

    A namespace maps keys to values.  The values are held decoded: the
    script writes [JSON.stringify] of an array of timestamps or of a usage
    record and reads it back with [JSON.parse].  Entries stay until they
    are overwritten; the [expirationTtl] of a put is recorded with the
    call. *)

Record UsageRecord : Type := {
  createdAt : Z;
  totalRequests : Z;
  lastRequestAt : option Z;
  dailyRequests : gmap Z Z
}.

Inductive KvCall : Type :=
| RateLimitGet (key : list N)
| RateLimitPut (key : list N) (value : list Z) (expirationTtl : Z)
| UserStatsGet (key : list N)
| UserStatsPut (key : list N) (value : UsageRecord).

(** What a request does to the outside, in order. *)
Inductive Event : Type :=
| KvEvent (call : KvCall) (rejected : bool)
| BodyRead (rejected : bool)
| DownstreamFetch (rejected : bool).

Record World : Type := {
  RATE_LIMIT_KV : gmap (list N) (list Z);
  USER_STATS_KV : gmap (list N) UsageRecord;
  trace : list Event
}.

Definition log (e : Event) (w : World) : World :=
  {| RATE_LIMIT_KV := RATE_LIMIT_KV w; USER_STATS_KV := USER_STATS_KV w;
     trace := trace w ++ [e] |}.

(** Asynchronous code: it changes the world and resolves or rejects. *)
Definition M (A : Type) : Type := World -> Outcome A * World.

Definition ret {A} (a : A) : M A := fun w => (Ok a, w).

Definition reject {A} (e : Exn) : M A := fun w => (Throw e, w).

Definition bindM {A B} (m : M A) (k : A -> M B) : M B :=
  fun w =>
    match m w with
    | (Ok a, w') => k a w'
    | (Throw e, w') => (Throw e, w')
    end.

Notation "'await' x ':=' m 'in' k" := (bindM m (fun x => k))
  (at level 10, x name, m at level 100, k at level 200, only parsing).

Definition tryM {A} (m : M A) (handler : Exn -> M A) : M A :=
  fun w =>
    match m w with
    | (Ok a, w') => (Ok a, w')
    | (Throw e, w') => handler e w'
    end.

Definition liftO {A} (o : Outcome A) : M A := fun w => (o, w).

Section Worker.

Variable P : Platform.

(** Which KV calls of this request are rejected. *)
Variable faulty : KvCall -> bool.

Definition rate_limit_get (key : list N) : M (option (list Z)) :=
  fun w =>
    if faulty (RateLimitGet key)
    then (Throw Err_KV, log (KvEvent (RateLimitGet key) true) w)
    else (Ok (RATE_LIMIT_KV w !! key), log (KvEvent (RateLimitGet key) false) w).

Definition rate_limit_put (key : list N) (value : list Z) (ttl : Z) : M unit :=
  fun w =>
    if faulty (RateLimitPut key value ttl)
    then (Throw Err_KV, log (KvEvent (RateLimitPut key value ttl) true) w)
    else (Ok tt,
          log (KvEvent (RateLimitPut key value ttl) false)
            {| RATE_LIMIT_KV := <[key := value]> (RATE_LIMIT_KV w);
               USER_STATS_KV := USER_STATS_KV w; trace := trace w |}).

Definition user_stats_get (key : list N) : M (option UsageRecord) :=
  fun w =>
    if faulty (UserStatsGet key)
    then (Throw Err_KV, log (KvEvent (UserStatsGet key) true) w)
    else (Ok (USER_STATS_KV w !! key), log (KvEvent (UserStatsGet key) false) w).

Definition user_stats_put (key : list N) (value : UsageRecord) : M unit :=
  fun w =>
    if faulty (UserStatsPut key value)
    then (Throw Err_KV, log (KvEvent (UserStatsPut key value) true) w)
    else (Ok tt,
          log (KvEvent (UserStatsPut key value) false)
            {| RATE_LIMIT_KV := RATE_LIMIT_KV w;
               USER_STATS_KV := <[key := value]> (USER_STATS_KV w);
               trace := trace w |}).

(** ** Usage tracker *)

Definition stats_key (userId : list N) : list N := str "user_stats:" ++ userId.

Definition initializeUserStats (userId : list N) (now : Z) : M unit :=
  tryM
    (let statsKey := stats_key userId in
     let stats := {| createdAt := now; totalRequests := 0;
                     lastRequestAt := None; dailyRequests := ∅ |} in
     user_stats_put statsKey stats)
    (fun _ => ret tt).

Definition RETENTION_MS : Z := 30 * 24 * 60 * 60 * 1000.

(** One update of a usage record at [now]. *)
Definition record_request (stats : UsageRecord) (now : Z) : UsageRecord :=
  let today := toISODate now in
  let daily := <[today := default 0 (dailyRequests stats !! today) + 1]>
                 (dailyRequests stats) in
  let cutoffDate := now - RETENTION_MS in
  {| createdAt := createdAt stats;
     totalRequests := totalRequests stats + 1;
     lastRequestAt := Some now;
     dailyRequests :=
       filter (fun entry => ~ (dateValue (fst entry) < cutoffDate)) daily |}.

Definition updateUserStats (userId : list N) (now : Z) : M unit :=
  tryM
    (let statsKey := stats_key userId in
     await existingStats := user_stats_get statsKey in
     let stats := match existingStats with
                  | Some stats => stats
                  | None => {| createdAt := now; totalRequests := 0;
                               lastRequestAt := None; dailyRequests := ∅ |}
                  end in
     user_stats_put statsKey (record_request stats now))
    (fun _ => ret tt).

(** ** Rate limiter *)

Record RateLimitResult : Type := {
  allowed : bool;
  retryAfter : option Z
}.

Definition rate_limit_key (userId : list N) : list N := str "rate_limit:" ++ userId.

Definition windowMs : Z := 60 * 60 * 1000.
Definition maxRequests : Z := 100.

(** [now] is the reading of [Date.now()] in [checkRateLimit], [now_stats]
    the one in [updateUserStats]. *)
Definition checkRateLimit (userId : list N) (now now_stats : Z) : M RateLimitResult :=
  let rateLimitKey := rate_limit_key userId in
  tryM
    (await rateData := rate_limit_get rateLimitKey in
     let requests := match rateData with
                     | Some requests => requests
                     | None => []
                     end in
     let requests := List.filter (fun timestamp => now - timestamp <? windowMs) requests in
     if maxRequests <=? Z.of_nat (length requests) then
       let oldestRequest := Math_min requests in
       let retryAfter := ceil_div (oldestRequest + windowMs - now) 1000 in
       ret {| allowed := false; retryAfter := Some retryAfter |}
     else
       let requests := requests ++ [now] in
       await _ := rate_limit_put rateLimitKey requests (ceil_div windowMs 1000) in
       await _ := updateUserStats userId now_stats in
       ret {| allowed := true; retryAfter := None |})
    (fun _ => ret {| allowed := true; retryAfter := None |}).

End Worker.

(** ** Requests, responses and what the runtime supplies *)

(** A request as the worker reads it: [request.method], the pathname of
    [new URL(request.url)], [request.headers.get('Authorization')] and the
    result of [request.json()], [None] when it rejects. *)
Record Request : Type := {
  method : list N;
  pathname : list N;
  authorization : option (list N);
  json_body : option json
}.

Inductive ResponseBody : Type :=
| NoBody
| TextBody (text : list N)
| ErrorBody (error : list N)
| RateLimitBody (error : list N) (retryAfter : Z)
| TokenBody (token userId : list N) (expiresAt maxRequests windowMs : Z)
| ProxyBody (data : json) (processedAt : Z).

(** The status, the body and the Retry-After header of a response; the
    CORS headers, the same on every response, are left out. *)
Record Response : Type := {
  status : Z;
  body : ResponseBody;
  retry_after_header : option (list N)
}.

Record Env : Type := {
  JWT_SECRET : list N
}.

(** What one request gets from outside the script: which KV calls are
    rejected, the reading of [Date.now()] at each place the script takes
    one, the bytes of [crypto.getRandomValues], and the status and parsed
    body of the downstream response, [None] when [fetch] or
    [externalResponse.json()] rejects. *)
Record Runtime : Type := {
  kv_faults : KvCall -> bool;
  now_verifyJWT : Z;
  now_checkRateLimit : Z;
  now_updateUserStats : Z;
  now_generateAnonymousUserId : Z;
  now_generateAnonymousToken : Z;
  now_initializeUserStats : Z;
  now_handleTokenRequest : Z;
  now_processApiResponse : Z;
  random_bytes : list Byte.byte;
  downstream : option (Z * json)
}.

Inductive AuthResult : Type :=
| AuthSuccess (userId issuedAt expiresAt : option json)
| AuthFailure (error : list N).

(** [anon_${timestamp}_${randomHex}] *)
Definition generateAnonymousUserId (now : Z) (randomBytes : list Byte.byte) : list N :=
  let timestamp := number_units now in
  let randomHex :=
    flat_map (fun b => [hex_digit (Byte.to_N b / 16); hex_digit (Byte.to_N b mod 16)])
      randomBytes in
  str "anon_" ++ timestamp ++ str "_" ++ randomHex.

Section Handlers.

Variable P : Platform.
Variable rt : Runtime.

(** The script hands the whole [env] object to [verifyAnonymousToken]
    where the secret is expected; [TextEncoder.encode] converts it to the
    string [[object Object]], which is the key the token is checked
    against. *)
Definition env_as_secret (env : Env) : list N := str "[object Object]".

Definition authenticateUser (request : Request) (env : Env) : AuthResult :=
  match authorization request with
  | None => AuthFailure (str "Missing or invalid authorization header")
  | Some authHeader =>
      if not_string authHeader || negb (startsWith (str "Bearer ") authHeader)
      then AuthFailure (str "Missing or invalid authorization header")
      else
        let token := substring 7 authHeader in
        match
          (let* payload := verifyAnonymousToken P token (env_as_secret env)
                             (now_verifyJWT rt) in
           let* userId := get_prop payload (str "userId") in
           let* iat := get_prop payload (str "iat") in
           let* exp := get_prop payload (str "exp") in
           Ok (AuthSuccess userId iat exp))
        with
        | Ok result => result
        | Throw _ => AuthFailure (str "Invalid or expired token")
        end
  end.

(** [await request.json()] *)
Definition read_json_body (request : Request) : M json :=
  fun w =>
    match json_body request with
    | Some requestBody => (Ok requestBody, log (BodyRead false) w)
    | None => (Throw Err_Syntax, log (BodyRead true) w)
    end.

(** [await fetch(env.EXTERNAL_API_URL, ...)], then [await
    externalResponse.json()]. *)
Definition fetch_external (requestBody : json) : M (Z * json) :=
  fun w =>
    match downstream rt with
    | Some externalResponse => (Ok externalResponse, log (DownstreamFetch false) w)
    | None => (Throw Err_Network, log (DownstreamFetch true) w)
    end.

(** [new Response(body, {status})] with a body: a RangeError outside
    200..599, a TypeError on a null-body status. *)
Definition new_Response (s : Z) (b : ResponseBody) : M Response :=
  if (200 <=? s) && (s <=? 599)
     && negb ((s =? 204) || (s =? 205) || (s =? 304))
  then ret {| status := s; body := b; retry_after_header := None |}
  else reject Err_Type.

Definition json_response (s : Z) (b : ResponseBody) : Response :=
  {| status := s; body := b; retry_after_header := None |}.

(** The identity of an accepted token is converted to a string by the
    template literal that is the first statement of [checkRateLimit],
    before its [try]; a TypeError there rejects [checkRateLimit] and, with
    it, this handler. *)
Definition handleExternalApiRequest (request : Request) (env : Env) : M Response :=
  if negb (jsstring_eqb (method request) (str "POST")) then
    ret (json_response 405 (ErrorBody (str "Method not allowed")))
  else
    match authenticateUser request env with
    | AuthFailure error => ret (json_response 401 (ErrorBody error))
    | AuthSuccess userId _ _ =>
        await userId := liftO (template_value userId) in
        await rateLimitResult :=
          checkRateLimit (kv_faults rt) userId (now_checkRateLimit rt)
            (now_updateUserStats rt) in
        if negb (allowed rateLimitResult) then
          match retryAfter rateLimitResult with
          | Some seconds =>
              ret {| status := 429;
                     body := RateLimitBody (str "Rate limit exceeded") seconds;
                     retry_after_header := Some (number_units seconds) |}
          | None => reject Err_Type
          end
        else
          await requestBody :=
            tryM (await parsed := read_json_body request in ret (Some parsed))
                 (fun _ => ret None) in
          match requestBody with
          | None =>
              ret (json_response 400 (ErrorBody (str "Invalid JSON in request body")))
          | Some requestBody =>
              tryM
                (await externalResponse := fetch_external requestBody in
                 let processedData :=
                   ProxyBody (snd externalResponse) (now_processApiResponse rt) in
                 new_Response (fst externalResponse) processedData)
                (fun _ =>
                   ret (json_response 503
                          (ErrorBody (str "External service unavailable"))))
          end
    end.

Definition handleTokenRequest (request : Request) (env : Env) : M Response :=
  if negb (jsstring_eqb (method request) (str "POST")) then
    ret (json_response 405 (ErrorBody (str "Method not allowed")))
  else
    tryM
      (let anonymousUserId :=
         generateAnonymousUserId (now_generateAnonymousUserId rt) (random_bytes rt) in
       await token :=
         liftO (generateAnonymousToken P anonymousUserId (JWT_SECRET env)
                  (now_generateAnonymousToken rt)) in
       await _ :=
         initializeUserStats (kv_faults rt) anonymousUserId (now_initializeUserStats rt) in
       ret (json_response 200
              (TokenBody token anonymousUserId
                 (now_handleTokenRequest rt + 30 * 24 * 60 * 60 * 1000)
                 100 (60 * 60 * 1000))))
      (fun _ => ret (json_response 500 (ErrorBody (str "Token generation failed")))).

(** The [fetch] handler of the worker. *)
Definition fetch (request : Request) (env : Env) : M Response :=
  if jsstring_eqb (method request) (str "OPTIONS") then
    ret {| status := 200; body := NoBody; retry_after_header := None |}
  else
    tryM
      (let path := pathname request in
       if jsstring_eqb path (str "/api/external-service") then
         handleExternalApiRequest request env
       else if jsstring_eqb path (str "/api/token") then
         handleTokenRequest request env
       else ret {| status := 404; body := TextBody (str "Not Found");
                   retry_after_header := None |})
      (fun _ => ret (json_response 500 (ErrorBody (str "Internal Server Error")))).

End Handlers.

(** A request during which every KV call resolves. *)
Definition no_faults : KvCall -> bool := fun _ => false.

(** The timestamps stored for an identity, none when the record is absent. *)
Definition stored_requests (userId : list N) (w : World) : list Z :=
  default [] (RATE_LIMIT_KV w !! rate_limit_key userId).

(** The stored timestamps that are still inside the window at [now]. *)
Definition remaining_requests (userId : list N) (now : Z) (w : World) : list Z :=
  List.filter (fun timestamp => now - timestamp <? windowMs) (stored_requests userId w).

(** Consecutive calls of [checkRateLimit] for one identity, each with its
    two clock readings. *)
Fixpoint checkRateLimit_calls (faulty : KvCall -> bool) (userId : list N)
    (calls : list (Z * Z)) (w : World) : list (Outcome RateLimitResult) * World :=
  match calls with
  | [] => ([], w)
  | (now, now_stats) :: calls' =>
      let '(r, w') := checkRateLimit faulty userId now now_stats w in
      let '(rs, w'') := checkRateLimit_calls faulty userId calls' w' in
      (r :: rs, w'')
  end.

Definition allow : RateLimitResult := {| allowed := true; retryAfter := None |}.

Definition deny (seconds : Z) : RateLimitResult :=
  {| allowed := false; retryAfter := Some seconds |}.

(** Consecutive usage updates for one identity, at the given times. *)
Fixpoint updateUserStats_calls (faulty : KvCall -> bool) (userId : list N)
    (times : list Z) (w : World) : World :=
  match times with
  | [] => w
  | now :: times' =>
      updateUserStats_calls faulty userId times'
        (snd (updateUserStats faulty userId now w))
  end.

(** The usage record an update starts from: the stored one, or a new one. *)
Definition stats_or_new (o : option UsageRecord) (now : Z) : UsageRecord :=
  match o with
  | Some stats => stats
  | None => {| createdAt := now; totalRequests := 0;
               lastRequestAt := None; dailyRequests := ∅ |}
  end.

Definition prior_stats (userId : list N) (now : Z) (w : World) : UsageRecord :=
  stats_or_new (USER_STATS_KV w !! stats_key userId) now.

(** The counters of a stored record, an absent one counting nothing. *)
Definition total_of (o : option UsageRecord) : Z :=
  match o with
  | Some stats => totalRequests stats
  | None => 0
  end.

Definition daily_of (o : option UsageRecord) : gmap Z Z :=
  match o with
  | Some stats => dailyRequests stats
  | None => ∅
  end.

(** The sum of the daily counters. *)
Definition daily_total (daily : gmap Z Z) : Z :=
  map_fold (fun _ count total => count + total) 0 daily.

(** The number of the given times that fall on the day [date]. *)
Definition requests_on (date : Z) (times : list Z) : Z :=
  Z.of_nat (length (List.filter (fun t => toISODate t =? date) times)).

(** A record without requests: absent, or as [initializeUserStats] wrote it. *)
Definition empty_record (o : option UsageRecord) : Prop :=
  match o with
  | None => True
  | Some stats => totalRequests stats = 0 /\ dailyRequests stats = ∅
  end.

(** No date of the given times is behind the retention horizon of any of
    them. *)
Definition within_retention (times : list Z) : Prop :=
  forall t t', In t times -> In t' times ->
    ~ (dateValue (toISODate t) < t' - RETENTION_MS).

(** ** Definitions used in the statements and proofs below *)

(** What may follow an integer literal for it to be read back whole. *)
Definition ends_number (rest : list N) : Prop :=
  match rest with
  | [] => True
  | c :: _ => is_digit c = false /\ c <> 46%N /\ c <> 101%N /\ c <> 69%N
  end.

(** The digits [Z.to_int] produces: at least one, and no leading zero
    before another digit. *)
Definition canonical (u : Decimal.uint) : Prop :=
  u <> Nil /\ forall u', u = D0 u' -> u' = Nil.

(** Puts a unit in front of the string read after it. *)
Definition cons_unit (c : N) (r : option (list N * list N)) : option (list N * list N) :=
  match r with
  | Some (t, rest) => Some (c :: t, rest)
  | None => None
  end.

(** The text [header.payload] that is signed. *)
Definition signing_input (payload : json) : list N :=
  btoa_bytes (JSON_stringify jwt_header) ++ DOT :: btoa_bytes (JSON_stringify payload).

(** A full window: 100 requests, one per second from time 0. *)
Definition full_window_world (userId : list N) : World :=
  {| RATE_LIMIT_KV :=
       {[ rate_limit_key userId := List.map (fun i => Z.of_nat i * 1000) (seq 0 100) ]};
     USER_STATS_KV := ∅; trace := [] |}.

(** Both namespaces empty, nothing done yet. *)
Definition empty_world : World :=
  {| RATE_LIMIT_KV := ∅; USER_STATS_KV := ∅; trace := [] |}.

(** One call per second, from time 0. *)
Definition calls_every_second (n : nat) : list (Z * Z) :=
  List.map (fun i => (Z.of_nat i * 1000, Z.of_nat i * 1000)) (seq 0 n).

(** The counters agree with the requests made so far. *)
Definition counts (times : list Z) (o : option UsageRecord) : Prop :=
  total_of o = Z.of_nat (length times) /\
  forall date,
    daily_of o !! date
    = if requests_on date times =? 0 then None else Some (requests_on date times).

(** The guard of [verifyJWT]: the first three segments exist and are not
    empty. *)
Definition three_segments (token : list N) : Prop :=
  exists h p s rest,
    split DOT token = h :: p :: s :: rest /\ h <> [] /\ p <> [] /\ s <> [].

(** A payload without [exp]. *)
Definition payload_without_exp : json :=
  JObj [(str "userId", JStr (str "anon_1_ab")); (str "type", JStr anonymous)].

(** The token [signJWT] makes of it under the secret [secret]. *)
Definition token_without_exp : list N :=
  signing_input payload_without_exp ++ DOT ::
  btoa_bytes (fromCharCode (WebCrypto.sign (str "secret") (signing_input payload_without_exp))).

(** A runtime in which every KV call resolves and the downstream service
    answers 200 with an empty object. *)
Definition quiet_runtime : Runtime :=
  {| kv_faults := no_faults;
     now_verifyJWT := 1700000005000;
     now_checkRateLimit := 1700000005001;
     now_updateUserStats := 1700000005002;
     now_generateAnonymousUserId := 1700000000000;
     now_generateAnonymousToken := 1700000000001;
     now_initializeUserStats := 1700000000002;
     now_handleTokenRequest := 1700000000003;
     now_processApiResponse := 1700000005003;
     random_bytes := repeat Byte.x2a 16;
     downstream := Some (200, JObj []) |}.

(** An environment whose secret is the string [secret]. *)
Definition test_env : Env := {| JWT_SECRET := str "secret" |}.

(** The world after an admitted call of [checkRateLimit]. *)
Definition admitted_world (userId : list N) (now now_stats : Z) (w : World) : World :=
  let requests := remaining_requests userId now w ++ [now] in
  let stats := record_request (prior_stats userId now_stats w) now_stats in
  {| RATE_LIMIT_KV := <[rate_limit_key userId := requests]> (RATE_LIMIT_KV w);
     USER_STATS_KV := <[stats_key userId := stats]> (USER_STATS_KV w);
     trace := trace w ++
       [KvEvent (RateLimitGet (rate_limit_key userId)) false;
        KvEvent (RateLimitPut (rate_limit_key userId) requests (ceil_div windowMs 1000)) false;
        KvEvent (UserStatsGet (stats_key userId)) false;
        KvEvent (UserStatsPut (stats_key userId) stats) false] |}.

(** A token that [authenticateUser] accepts: signed under the string the
    [env] object converts to. *)
Definition accepted_payload : json :=
  payload_object (str "anon_1_ab") 1700000000 1702592000 anonymous.

(** The token of that payload under the key [[object Object]]. *)
Definition accepted_token : list N :=
  signing_input accepted_payload ++ DOT ::
  btoa_bytes (fromCharCode
    (WebCrypto.sign (str "[object Object]") (signing_input accepted_payload))).

(** A request with that token and a body that is not JSON. *)
Definition request_without_json : Request :=
  {| method := str "POST"; pathname := str "/api/external-service";
     authorization := Some (str "Bearer " ++ accepted_token);
     json_body := None |}.

(** A payload whose [userId] is an object with a member named [toString]. *)
Definition payload_with_object_identity : json :=
  JObj [(str "userId", JObj [(str "toString", JNum 0)]);
        (str "iat", JNum 1700000000); (str "exp", JNum 1702592000);
        (str "type", JStr anonymous)].

(** The token of that payload under the key [[object Object]]. *)
Definition token_with_object_identity : list N :=
  signing_input payload_with_object_identity ++ DOT ::
  btoa_bytes (fromCharCode
    (WebCrypto.sign (str "[object Object]") (signing_input payload_with_object_identity))).

(** The text of a payload with [exp] written [0.0] and a member that is
    not an integer. *)
Definition payload_text_with_fraction : list N :=
  123%N :: quote (str "userId") ++ 58%N :: quote (str "anon_1_ab") ++
  44%N :: quote (str "type") ++ 58%N :: quote anonymous ++
  44%N :: quote (str "exp") ++ 58%N :: str "0.0" ++
  44%N :: quote (str "score") ++ 58%N :: str "1.5" ++ [125%N].

(** What [JSON.parse] makes of it. *)
Definition payload_with_fraction : json :=
  JObj [(str "userId", JStr (str "anon_1_ab")); (str "type", JStr anonymous);
        (str "exp", JNum 0); (str "score", JReal 3 (-1))].

(** The token with that payload text, signed under the secret [secret]. *)
Definition token_with_fraction : list N :=
  let data := btoa_bytes (JSON_stringify jwt_header) ++ DOT ::
              btoa_bytes payload_text_with_fraction in
  data ++ DOT :: btoa_bytes (fromCharCode (WebCrypto.sign (str "secret") data)).

(** What a parser reads with some fuel, it reads with any fuel that
    covers the units read. *)
Definition stable_value (f : nat) : Prop :=
  forall s v rest, parse_value f s = Some (v, rest) ->
    (length rest < length s)%nat /\
    forall f', (length s - length rest <= f')%nat -> parse_value f' s = Some (v, rest).

Definition stable_members (f : nat) : Prop :=
  forall s ms rest, parse_members f s = Some (ms, rest) ->
    (length rest < length s)%nat /\
    forall f', (length s - length rest <= f')%nat -> parse_members f' s = Some (ms, rest).

Definition stable_elements (f : nat) : Prop :=
  forall s vs rest, parse_elements f s = Some (vs, rest) ->
    (length rest < length s)%nat /\
    forall f', (length s - length rest <= f')%nat -> parse_elements f' s = Some (vs, rest).

(** The two hexadecimal digits of each byte. *)
Definition randomHex (randomBytes : list Byte.byte) : list N :=
  flat_map (fun b => [hex_digit (Byte.to_N b / 16); hex_digit (Byte.to_N b mod 16)])
    randomBytes.

(* ===================================================================== *)
(** * Part II. Properties *)
(* ===================================================================== *)

(** ** Strings and base64 *)

Example btoa_hello : btoa (str "hello") = Some (str "aGVsbG8=").
Proof. reflexivity. Qed.

Example atob_hello : atob (str "aGVsbG8=") = Some (str "hello").
Proof. reflexivity. Qed.

Example atob_unpadded : atob (str "aGk") = Some (str "hi").
Proof. reflexivity. Qed.

Example atob_bad_length : atob (str "aGVsb") = None.
Proof. reflexivity. Qed.

Example btoa_non_latin1 : btoa [12354%N] = None.
Proof. reflexivity. Qed.

Example split_three : split DOT (str "a.b.c") = [str "a"; str "b"; str "c"].
Proof. reflexivity. Qed.

Example split_trailing : split DOT (str "a.") = [str "a"; []].
Proof. reflexivity. Qed.

(** Checking a boolean property of all code units below a bound by
    evaluation. *)
Lemma N_forall_below (n : nat) (P : N -> bool) :
  forallb P (List.map N.of_nat (seq 0 n)) = true ->
  forall v, (v < N.of_nat n)%N -> P v = true.
Proof.
  intros H v Hv.
  rewrite forallb_forall in H. apply H.
  apply in_map_iff. exists (N.to_nat v). split.
  - apply N2Nat.id.
  - apply in_seq. lia.
Qed.

Lemma list_ind3 {A} (P : list A -> Prop) :
  P [] -> (forall a, P [a]) -> (forall a b, P [a; b]) ->
  (forall a b c r, P r -> P (a :: b :: c :: r)) ->
  forall l, P l.
Proof.
  intros H0 H1 H2 H3.
  assert (H : forall l, P l /\ (forall a, P (a :: l)) /\ (forall a b, P (a :: b :: l))).
  { induction l as [|x l (IH0 & IH1 & IH2)]; auto. }
  intros l. apply H.
Qed.

Lemma b64val_b64char v : (v < 64)%N -> b64val (b64char v) = Some v.
Proof.
  intros Hv.
  assert (H : (match b64val (b64char v) with
               | Some w => N.eqb w v | None => false end) = true).
  { revert v Hv. apply (N_forall_below 64). vm_compute. reflexivity. }
  destruct (b64val (b64char v)); [|discriminate].
  apply N.eqb_eq in H. now subst.
Qed.

(** A base64 character is never whitespace, padding or the separator. *)
Lemma b64char_plain v :
  is_ascii_ws (b64char v) = false /\ b64char v <> PAD /\ b64char v <> DOT.
Proof.
  unfold b64char, is_ascii_ws, PAD, DOT.
  repeat match goal with
         | |- context [(?a <? ?b)%N] => destruct (N.ltb_spec a b)
         | |- context [(?a =? ?b)%N] => destruct (N.eqb_spec a b)
         end; simpl; repeat split; try lia; try discriminate.
Qed.

(** Linear arithmetic with division and remainder by constants. *)
Ltac dlia := zify; Z.to_euclidean_division_equations; lia.

Lemma sextets_bound l :
  Forall (fun c => (c <= 255)%N) l -> Forall (fun v => (v < 64)%N) (sextets l).
Proof.
  induction l as [|a|a b|a b c r IH] using list_ind3; intros H; cbn [sextets unsextets].
  - constructor.
  - inversion_clear H. repeat apply List.Forall_cons; try apply List.Forall_nil; dlia.
  - inversion_clear H as [|? ? Ha H']. inversion_clear H' as [|? ? Hb _].
    repeat apply List.Forall_cons; try apply List.Forall_nil; dlia.
  - inversion_clear H as [|? ? Ha H']. inversion_clear H' as [|? ? Hb H''].
    inversion_clear H'' as [|? ? Hc Hr].
    repeat apply List.Forall_cons; try dlia. now apply IH.
Qed.

Lemma unsextets_sextets l :
  Forall (fun c => (c <= 255)%N) l -> unsextets (sextets l) = l.
Proof.
  induction l as [|a|a b|a b c r IH] using list_ind3; intros H; cbn [sextets unsextets].
  - reflexivity.
  - f_equal. dlia.
  - inversion_clear H as [|? ? Ha H']. inversion_clear H' as [|? ? Hb _].
    repeat f_equal; dlia.
  - inversion_clear H as [|? ? Ha H']. inversion_clear H' as [|? ? Hb H''].
    inversion_clear H'' as [|? ? Hc Hr].
    rewrite (IH Hr). repeat f_equal; dlia.
Qed.

Lemma padding_cons3 a b c r : padding (a :: b :: c :: r) = padding r.
Proof.
  unfold padding. cbn [length].
  replace (S (S (S (length r)))) with (length r + 1 * 3)%nat by lia.
  now rewrite Nat.Div0.mod_add.
Qed.

Lemma padding_cases l : padding l = [] \/ padding l = [PAD] \/ padding l = [PAD; PAD].
Proof.
  unfold padding. destruct (length l mod 3)%nat as [|[|n]]; auto.
Qed.

Lemma sextets_length l :
  (length (sextets l) mod 4 <> 1)%nat /\
  ((length (sextets l) + length (padding l)) mod 4 = 0)%nat.
Proof.
  induction l as [|a|a b|a b c r [IH1 IH2]] using list_ind3;
    try (cbn; split; [discriminate|reflexivity]).
  rewrite padding_cons3. cbn [sextets length].
  replace (S (S (S (S (length (sextets r)))))) with (length (sextets r) + 1 * 4)%nat by lia.
  replace (length (sextets r) + 1 * 4 + length (padding r))%nat
    with (length (sextets r) + length (padding r) + 1 * 4)%nat by lia.
  rewrite !Nat.Div0.mod_add. auto.
Qed.

Lemma map_option_b64 vs :
  Forall (fun v => (v < 64)%N) vs ->
  map_option b64val (List.map b64char vs) = Some vs.
Proof.
  induction 1 as [|v vs Hv _ IH]; cbn [List.map map_option]; [reflexivity|].
  now rewrite (b64val_b64char v Hv), IH.
Qed.

Lemma filter_ws_id s :
  Forall (fun c => is_ascii_ws c = false) s ->
  List.filter (fun c => negb (is_ascii_ws c)) s = s.
Proof.
  induction 1 as [|c s Hc _ IH]; cbn [List.filter]; [reflexivity|].
  now rewrite Hc, IH.
Qed.

Lemma strip_padding_body body :
  Forall (fun c => c <> PAD) body -> strip_padding body = body.
Proof.
  intros H. unfold strip_padding.
  destruct (rev body) as [|p r] eqn:E; [reflexivity|].
  assert (Hp : p <> PAD).
  { rewrite List.Forall_forall in H. apply H. apply in_rev. rewrite E. now left. }
  apply N.eqb_neq in Hp. rewrite Hp. now destruct r.
Qed.

Lemma strip_padding_one body :
  Forall (fun c => c <> PAD) body -> strip_padding (body ++ [PAD]) = body.
Proof.
  intros H. unfold strip_padding. rewrite rev_unit.
  destruct (rev body) as [|q r] eqn:E.
  - cbn. apply (f_equal (@rev N)) in E. rewrite rev_involutive in E. now subst.
  - assert (Hq : q <> PAD).
    { rewrite List.Forall_forall in H. apply H. apply in_rev. rewrite E. now left. }
    apply N.eqb_neq in Hq. rewrite N.eqb_refl, Hq, <- E. apply rev_involutive.
Qed.

Lemma strip_padding_two body : strip_padding (body ++ [PAD; PAD]) = body.
Proof.
  unfold strip_padding.
  change (body ++ [PAD; PAD]) with (body ++ [PAD] ++ [PAD]).
  rewrite app_assoc, !rev_unit, N.eqb_refl. apply rev_involutive.
Qed.

Lemma b64chars_plain vs :
  Forall (fun c => is_ascii_ws c = false) (List.map b64char vs) /\
  Forall (fun c => c <> PAD) (List.map b64char vs) /\
  Forall (fun c => c <> DOT) (List.map b64char vs).
Proof.
  induction vs as [|v vs (IH1 & IH2 & IH3)]; cbn [List.map].
  - repeat split; apply List.Forall_nil.
  - destruct (b64char_plain v) as (H1 & H2 & H3).
    repeat split; apply List.Forall_cons; assumption.
Qed.

(** [atob] undoes [btoa] on every byte sequence. *)
Lemma atob_btoa_bytes l :
  Forall (fun c => (c <= 255)%N) l -> atob (btoa_bytes l) = Some l.
Proof.
  intros Hl. unfold atob.
  destruct (b64chars_plain (sextets l)) as (Hws & Hpad & _).
  destruct (sextets_length l) as [Hlen1 Hlen0].
  assert (Hf : List.filter (fun c => negb (is_ascii_ws c)) (btoa_bytes l) = btoa_bytes l).
  { apply filter_ws_id. unfold btoa_bytes. apply Forall_app. split; [exact Hws|].
    destruct (padding_cases l) as [->|[->| ->]];
      repeat apply List.Forall_cons; try apply List.Forall_nil; reflexivity. }
  rewrite Hf.
  assert (Hl0 : (length (btoa_bytes l) mod 4 =? 0)%nat = true).
  { apply Nat.eqb_eq. unfold btoa_bytes. now rewrite length_app, length_map. }
  rewrite Hl0.
  assert (Hs : strip_padding (btoa_bytes l) = List.map b64char (sextets l)).
  { unfold btoa_bytes. destruct (padding_cases l) as [->|[->| ->]].
    - rewrite app_nil_r. now apply strip_padding_body.
    - now apply strip_padding_one.
    - apply strip_padding_two. }
  rewrite Hs.
  assert (Hl1 : (length (List.map b64char (sextets l)) mod 4 =? 1)%nat = false).
  { apply Nat.eqb_neq. now rewrite length_map. }
  rewrite Hl1, map_option_b64 by now apply sextets_bound.
  now rewrite unsextets_sextets.
Qed.

Lemma is_latin1_Forall s :
  is_latin1 s = true <-> Forall (fun c => (c <= 255)%N) s.
Proof.
  unfold is_latin1. rewrite forallb_forall, List.Forall_forall.
  split; intros H c Hc; specialize (H c Hc); now apply N.leb_le.
Qed.

Lemma atob_btoa s e : btoa s = Some e -> atob e = Some s.
Proof.
  unfold btoa. destruct (is_latin1 s) eqn:E; [|discriminate].
  intros [= <-]. apply atob_btoa_bytes. now apply is_latin1_Forall.
Qed.

Lemma btoa_no_dot s e : btoa s = Some e -> Forall (fun c => c <> DOT) e.
Proof.
  unfold btoa. destruct (is_latin1 s); [|discriminate]. intros [= <-].
  unfold btoa_bytes. apply Forall_app. split.
  - apply b64chars_plain.
  - destruct (padding_cases s) as [->|[->| ->]];
      repeat apply List.Forall_cons; try apply List.Forall_nil; discriminate.
Qed.

Lemma btoa_nonempty s e : btoa s = Some e -> s <> [] -> e <> [].
Proof.
  unfold btoa. destruct (is_latin1 s); [|discriminate]. intros [= <-] Hs.
  destruct s as [|a [|b [|c r]]]; [congruence|discriminate..].
Qed.

(** ** Numbers *)

(** Number values: rounding to 53 bits with ties to even, the least
    positive Number and the largest finite one. *)
Example Number_value_rounds :
  Number_value 9007199254740993 1 = Dyadic 4503599627370496 1 /\
  Number_value 9007199254740995 1 = Dyadic 4503599627370498 1 /\
  Number_value 1 10 = Dyadic 7205759403792794 (-56) /\
  Number_value 3 (10 ^ 324) = Dyadic 1 (-1074) /\
  Number_value 2 (10 ^ 324) = Dyadic 0 (-1074) /\
  Number_value (17976931348623158 * 10 ^ 292) 1 = Dyadic 9007199254740991 971 /\
  Number_value (17976931348623159 * 10 ^ 292) 1 = Infinity false.
Proof. vm_compute. repeat split. Qed.

Example Number_toString_examples :
  List.map (fun q => Number_toString (Number_value (fst q) (snd q)))
    [(1700000000000, 1); (9007199254740993, 1); (10 ^ 21, 1); (2 ^ 60, 1);
     (3, 2); (1, 10); (2, 3); (1, 10 ^ 7); (1, 10 ^ 6); (-5, 2);
     (3, 10 ^ 324); (123456789012345678901234, 1); (2 ^ 1024, 1)]
  = [str "1700000000000"; str "9007199254740992"; str "1e+21";
     str "1152921504606847000"; str "1.5"; str "0.1"; str "0.6666666666666666";
     str "1e-7"; str "0.000001"; str "-2.5"; str "5e-324";
     str "1.2345678901234569e+23"; str "Infinity"].
Proof. vm_compute. reflexivity. Qed.

(** Number literals with a fraction or an exponent; what is not a JSON
    number is refused. *)
Example parse_number_literals :
  JSON_parse (str "[0.0,-0.0,1.5,1e3,25E-2,1e-400,9007199254740993.0,-1.25e+2,1e400]")
  = Some (JArr [JNum 0; JNum 0; JReal 3 (-1); JNum 1000; JReal 1 (-2); JNum 0;
                JNum 9007199254740992; JNum (-125); JNum (2 ^ 1024)]) /\
  List.map (fun text => JSON_parse (str text))
    ["1."; ".5"; "1e"; "1e+"; "01.5"; "1.5.2"; "+1"; "0x10"; "1e1.5"]%string
  = repeat None 9.
Proof. vm_compute. split; reflexivity. Qed.

(** The conversions of a template literal and of a comparison. *)
Example ToString_examples :
  ToString (JArr [JNum 1; JNull; JArr [JStr (str "a"); JBool true]; JObj []])
    = Ok (str "1,,a,true,[object Object]") /\
  ToString (JNum 9007199254740993) = Ok (str "9007199254740992") /\
  ToString (JReal 3 (-1)) = Ok (str "1.5") /\
  ToString (JObj [(str "valueOf", JNum 0)]) = Ok (str "[object Object]") /\
  ToString (JObj [(str "toString", JNum 0)]) = Throw Err_Type /\
  ToString (JArr [JNum 1; JObj [(str "toString", JNum 0)]]) = Throw Err_Type.
Proof. vm_compute. repeat split. Qed.

Example StringToNumber_examples :
  List.map (fun text => StringToNumber (str text))
    ["  12 "; "   "; "0x1F"; "1e3"; ".5"; "5."; "-Infinity"; "0b101"; "007"]%string
  = [Some (Number_value 12 1); Some (Number_value 0 1); Some (Number_value 31 1);
     Some (Number_value 1000 1); Some (Number_value 1 2); Some (Number_value 5 1);
     Some (Infinity true); Some (Number_value 5 1); Some (Number_value 7 1)] /\
  StringToNumber [] = Some (Number_value 0 1) /\
  List.map (fun text => StringToNumber (str text))
    ["0x"; "."; "infinity"; "1 2"; "-0x10"; "1e"; "1_0"; "-"; ".e3"; "abc"]%string
  = repeat None 10.
Proof. vm_compute. repeat split. Qed.

(** [exp < now / 1000] at [now = 1700000000000] for values of [exp] that
    are not integers of the script. *)
Example expired_examples :
  List.map (fun exp => expired (Some exp) 1700000000000)
    [JStr (str "1702592000"); JStr (str "1600000000"); JArr []; JArr [JNum 5; JNum 6];
     JObj []; JObj [(str "toString", JNum 0)]; JBool true; JStr (str "abc");
     JReal 3 (-1); JNum 1700000000; JNum 1699999999; JNum 0; JStr []]
  = [Ok false; Ok true; Ok true; Ok false; Ok false; Throw Err_Type; Ok true; Ok false;
     Ok true; Ok false; Ok true; Ok false; Ok false].
Proof. vm_compute. reflexivity. Qed.

(** For the clock readings and expiry times of the script, the integer
    reading of [exp < now / 1000] is the comparison of the Numbers. *)
Example expired_integer_reading :
  List.map (fun now => Double_ltb (Number_value 1702592000 1) (Number_value now 1000))
    [1702591999999; 1702592000000; 1702592000001]
  = List.map (fun now => 1702592000 * 1000 <? now)
      [1702591999999; 1702592000000; 1702592000001].
Proof. vm_compute. reflexivity. Qed.

(** ** JSON *)

Example stringify_array :
  JSON_stringify (JArr [JNum (-12); JNull; JBool true; JNum 0]) = str "[-12,null,true,0]".
Proof. reflexivity. Qed.

Example stringify_object :
  JSON_stringify (JObj [(str "a", JNum 1); (str "b", JStr [10%N])])
  = str "{" ++ [34%N] ++ str "a" ++ [34%N] ++ str ":1," ++ [34%N] ++ str "b"
    ++ [34%N] ++ str ":" ++ [34%N] ++ str "\n" ++ [34%N] ++ str "}".
Proof. reflexivity. Qed.

Example parse_stringify_object :
  let v := JObj [(str "a", JNum (-12)); (str "b", JArr [JStr [10; 34; 955]%N; JBool true])] in
  JSON_parse (JSON_stringify v) = Some v.
Proof. reflexivity. Qed.

Example parse_leading_zero : JSON_parse (str "01") = None.
Proof. reflexivity. Qed.

Example parse_null : JSON_parse (str " null ") = Some JNull.
Proof. reflexivity. Qed.

Lemma uint_units_digits u : Forall (fun c => is_digit c = true) (uint_units u).
Proof.
  induction u; cbn [uint_units]; try apply List.Forall_nil;
    apply List.Forall_cons; auto.
Qed.

Lemma units_uint_units u : units_uint (uint_units u) = u.
Proof.
  induction u as [|u IH|u IH|u IH|u IH|u IH|u IH|u IH|u IH|u IH|u IH];
    cbn [uint_units units_uint]; [reflexivity|rewrite IH; reflexivity ..].
Qed.

Lemma span_digits_app ds rest :
  Forall (fun c => is_digit c = true) ds -> ends_number rest ->
  span_digits (ds ++ rest) = (ds, rest).
Proof.
  intros Hds Hrest. induction Hds as [|c ds Hc _ IH]; cbn [app span_digits].
  - destruct rest as [|c r]; [reflexivity|].
    destruct Hrest as [Hc _]. cbn [span_digits]. now rewrite Hc.
  - now rewrite Hc, IH.
Qed.

Lemma unorm_fixed_canonical u : unorm u = u -> canonical u.
Proof.
  intros H. split.
  - rewrite <- H. apply DecimalFacts.unorm_nonnil.
  - intros u' ->. rewrite DecimalFacts.unorm_D0 in H.
    unfold unorm in H. destruct (nzhead u') eqn:E;
      try (exfalso; exact (DecimalFacts.nzhead_nonzero u' u' (eq_trans E H))).
    now injection H.
Qed.

Lemma to_int_canonical n :
  match Z.to_int n with Pos u | Neg u => canonical u end.
Proof.
  pose proof (DecimalZ.to_of (Z.to_int n)) as H.
  rewrite DecimalZ.of_to in H.
  destruct (Z.to_int n) as [u|u]; cbn [norm] in H.
  - apply unorm_fixed_canonical. congruence.
  - destruct (nzhead u) eqn:E; try discriminate; injection H as H;
      first [ exfalso; exact (DecimalFacts.nzhead_nonzero _ _ E)
            | rewrite H; split; [discriminate | intros u' Hu'; discriminate] ].
Qed.

Lemma parse_digits_canonical (neg : bool) u rest :
  canonical u -> ends_number rest ->
  (let '(ds, rest') := span_digits (uint_units u ++ rest) in
   match ds with
   | [] => None
   | d :: ds' =>
       if (d =? 48)%N && negb (match ds' with [] => true | _ => false end) then None
       else
         let frac := match rest' with
                     | c :: _ => ((c =? 46) || (c =? 101) || (c =? 69))%N
                     | [] => false
                     end in
         if frac then parse_fraction neg ds rest'
         else
           let v := units_uint ds in
           Some (JNum (Z.of_int (if neg then Neg v else Pos v)), rest')
   end) = Some (JNum (Z.of_int (if neg then Neg u else Pos u)), rest).
Proof.
  intros [Hnil Hz] Hrest.
  rewrite span_digits_app by (auto using uint_units_digits).
  assert (Hfrac : match rest with
                  | c :: _ => ((c =? 46) || (c =? 101) || (c =? 69))%N
                  | [] => false
                  end = false).
  { destruct rest as [|c r]; [reflexivity|].
    destruct Hrest as (_ & H1 & H2 & H3).
    apply N.eqb_neq in H1, H2, H3. now rewrite H1, H2, H3. }
  destruct u as [|u|u|u|u|u|u|u|u|u|u]; try congruence;
    cbn [uint_units]; cbn [N.eqb Pos.eqb andb]; rewrite ?Hfrac.
  1: { rewrite (Hz u eq_refl). cbn. rewrite ?Hfrac. reflexivity. }
  all: cbn [units_uint N.eqb Pos.eqb]; rewrite units_uint_units; reflexivity.
Qed.

Lemma parse_number_units n rest :
  ends_number rest ->
  parse_number (number_units n ++ rest) = Some (JNum n, rest).
Proof.
  intros Hrest. unfold parse_number, number_units.
  pose proof (to_int_canonical n) as Hc.
  pose proof (DecimalZ.of_to n) as Hn.
  destruct (Z.to_int n) as [u|u].
  - assert (Hs : (match uint_units u ++ rest with
                  | c :: r => if (c =? 45)%N then (true, r) else (false, uint_units u ++ rest)
                  | [] => (false, uint_units u ++ rest)
                  end) = (false, uint_units u ++ rest)).
    { destruct u; cbn [uint_units app]; try reflexivity.
      destruct rest as [|c r]; [reflexivity|].
      destruct Hc as [Hc _]. congruence. }
    rewrite Hs. rewrite <- Hn.
    apply (parse_digits_canonical false); assumption.
  - cbn [app]. cbn [N.eqb Pos.eqb]. rewrite <- Hn.
    apply (parse_digits_canonical true); assumption.
Qed.

Lemma hex_val_digit d : (d < 16)%N -> hex_val (hex_digit d) = Some d.
Proof.
  intros Hd.
  assert (H : (match hex_val (hex_digit d) with
               | Some w => N.eqb w d | None => false end) = true).
  { revert d Hd. apply (N_forall_below 16). vm_compute. reflexivity. }
  destruct (hex_val (hex_digit d)); [|discriminate].
  apply N.eqb_eq in H. now subst.
Qed.

Lemma hex4_escape c :
  (c < 65536)%N ->
  hex4 (hex_digit (c / 4096)) (hex_digit ((c / 256) mod 16))
       (hex_digit ((c / 16) mod 16)) (hex_digit (c mod 16)) = Some c.
Proof.
  intros Hc. unfold hex4.
  rewrite !hex_val_digit by dlia. f_equal. dlia.
Qed.

Lemma parse_escape_u h1 h2 h3 h4 rest :
  parse_string_body (92 :: 117 :: h1 :: h2 :: h3 :: h4 :: rest)%N
  = match hex4 h1 h2 h3 h4 with
    | Some u => cons_unit u (parse_string_body rest)
    | None => None
    end.
Proof. reflexivity. Qed.

Lemma parse_u_escape c rest :
  (c < 65536)%N ->
  parse_string_body (u_escape c ++ rest) = cons_unit c (parse_string_body rest).
Proof.
  intros Hc. unfold u_escape. cbn [app].
  now rewrite parse_escape_u, hex4_escape.
Qed.

Lemma parse_raw_unit c rest :
  (32 <= c)%N -> c <> 34%N -> c <> 92%N ->
  parse_string_body (c :: rest) = cons_unit c (parse_string_body rest).
Proof.
  intros H1 H2 H3. cbn [parse_string_body].
  apply N.eqb_neq in H2, H3. rewrite H2, H3.
  destruct (N.ltb_spec c 32); [lia|reflexivity].
Qed.

Lemma parse_quote_unit c rest :
  (c < 65536)%N ->
  parse_string_body (quote_unit c ++ rest) = cons_unit c (parse_string_body rest).
Proof.
  intros Hc. unfold quote_unit.
  repeat match goal with
         | |- context [(?a =? ?b)%N] =>
             destruct (N.eqb_spec a b); [subst; reflexivity|]
         end.
  destruct (N.ltb_spec c 32).
  - now apply parse_u_escape.
  - now apply parse_raw_unit.
Qed.

Lemma quote_units_cons c r :
  quote_units (c :: r) =
  if is_high_surrogate c then
    match r with
    | d :: r' =>
        if is_low_surrogate d then c :: d :: quote_units r'
        else u_escape c ++ quote_units r
    | [] => u_escape c
    end
  else if is_low_surrogate c then u_escape c ++ quote_units r
  else quote_unit c ++ quote_units r.
Proof. reflexivity. Qed.

(** A quoted string is read back unit for unit. *)
Lemma parse_quote_units s rest :
  Forall (fun c => (c < 65536)%N) s ->
  parse_string_body (quote_units s ++ 34%N :: rest) = Some (s, rest).
Proof.
  enough (H : forall s, Forall (fun c => (c < 65536)%N) s ->
            (forall rest, parse_string_body (quote_units s ++ 34%N :: rest) = Some (s, rest)) /\
            (forall c rest, (c < 65536)%N ->
               parse_string_body (quote_units (c :: s) ++ 34%N :: rest) = Some (c :: s, rest))).
  { intros Hs. now apply H. }
  clear s rest. intros s Hs.
  induction Hs as [|d s Hd Hs [IH0 IH1]].
  - split; [reflexivity|]. intros c rest Hc. cbn [quote_units].
    destruct (is_high_surrogate c); [|destruct (is_low_surrogate c)];
      rewrite ?app_nil_r, <- ?app_assoc;
      (rewrite parse_u_escape by assumption) || (rewrite parse_quote_unit by assumption);
      reflexivity.
  - split; [intros rest; now apply IH1|].
    intros c rest Hc. rewrite quote_units_cons.
    destruct (is_high_surrogate c) eqn:Eh.
    + destruct (is_low_surrogate d) eqn:El.
      * unfold is_high_surrogate in Eh. unfold is_low_surrogate in El.
        apply andb_true_iff in Eh as [Eh _]. apply andb_true_iff in El as [El _].
        apply N.leb_le in Eh, El. cbn [app].
        rewrite !parse_raw_unit by lia. now rewrite IH0.
      * rewrite <- app_assoc, parse_u_escape by assumption.
        now rewrite (IH1 d rest Hd).
    + destruct (is_low_surrogate c).
      * rewrite <- app_assoc, parse_u_escape by assumption.
        now rewrite (IH1 d rest Hd).
      * rewrite <- app_assoc, parse_quote_unit by assumption.
        now rewrite (IH1 d rest Hd).
Qed.

(** ** The concrete platform *)

Example sha256_abc :
  WebCrypto.hex_bytes (WebCrypto.sha256 (WebCrypto.utf8_encode (str "abc")))
  = str "ba7816bf8f01cfea414140de5dae2223b00361a396177a9cb410ff61f20015ad".
Proof. vm_compute. reflexivity. Qed.

Example sha256_two_blocks :
  WebCrypto.hex_bytes (WebCrypto.sha256 (repeat 97 100))
  = str "2816597888e4a0d3a36b82b83316ab32680eb8f00f8cd3b904d681246d285a0e".
Proof. vm_compute. reflexivity. Qed.

Example hmac_sha256_rfc4231_2 :
  WebCrypto.hex_bytes
    (WebCrypto.hmac_sha256 (WebCrypto.utf8_encode (str "Jefe"))
       (WebCrypto.utf8_encode (str "what do ya want for nothing?")))
  = str "5bdcc146bf60754e6a042426089575c75a003f089d2739839dec58b964ec3843".
Proof. vm_compute. reflexivity. Qed.

Example hmac_sha256_long_key :
  WebCrypto.hex_bytes (WebCrypto.hmac_sha256 (repeat 107 100) (repeat 109 200))
  = str "a6bca6f4482167eeffadc0449a346c21ffe8f96177eceecaeb182b610f6128c8".
Proof. vm_compute. reflexivity. Qed.

(** ** Reading back what JSON.stringify prints *)

Lemma parse_value_numeric_head f c r :
  is_digit c = true \/ c = 45%N ->
  parse_value (S f) (c :: r) = parse_number (c :: r).
Proof.
  intros Hc.
  assert (Hb : (45 <= c <= 57)%N).
  { destruct Hc as [Hc| ->]; [|lia]. unfold is_digit in Hc.
    apply andb_true_iff in Hc as [H1 H2]. apply N.leb_le in H1, H2. lia. }
  assert (Hne : forall k, (k < 45 \/ 57 < k)%N -> (c =? k)%N = false /\ (k =? c)%N = false).
  { intros k Hk. split; apply N.eqb_neq; lia. }
  cbn [parse_value skip_ws]. unfold is_json_ws.
  rewrite (proj1 (Hne 32%N ltac:(lia))), (proj1 (Hne 9%N ltac:(lia))),
    (proj1 (Hne 10%N ltac:(lia))), (proj1 (Hne 13%N ltac:(lia))).
  cbn [orb].
  rewrite (proj1 (Hne 123%N ltac:(lia))), (proj1 (Hne 91%N ltac:(lia))),
    (proj1 (Hne 34%N ltac:(lia))).
  change (str "true") with (116 :: str "rue")%N.
  change (str "false") with (102 :: str "alse")%N.
  change (str "null") with (110 :: str "ull")%N.
  cbn [startsWith].
  rewrite (proj2 (Hne 116%N ltac:(lia))), (proj2 (Hne 102%N ltac:(lia))),
    (proj2 (Hne 110%N ltac:(lia))).
  reflexivity.
Qed.

Lemma number_units_head n :
  exists c tl, number_units n = c :: tl /\ (is_digit c = true \/ c = 45%N).
Proof.
  unfold number_units. pose proof (to_int_canonical n) as Hc.
  destruct (Z.to_int n) as [u|u].
  - destruct Hc as [Hnil _].
    destruct u; try congruence; cbn [uint_units]; eauto.
  - eauto.
Qed.

Lemma parse_value_number f n rest :
  ends_number rest ->
  parse_value (S f) (number_units n ++ rest) = Some (JNum n, rest).
Proof.
  intros Hrest. destruct (number_units_head n) as (c & tl & E & Hc).
  rewrite <- (parse_number_units n rest Hrest).
  rewrite E. cbn [app]. now apply parse_value_numeric_head.
Qed.

Lemma parse_value_string f s rest :
  Forall (fun c => (c < 65536)%N) s ->
  parse_value (S f) (34%N :: quote_units s ++ 34%N :: rest) = Some (JStr s, rest).
Proof.
  intros Hs. cbn [parse_value skip_ws].
  change (is_json_ws 34) with false. cbv iota.
  change (34 =? 123)%N with false. change (34 =? 91)%N with false.
  change (34 =? 34)%N with true. cbv iota.
  now rewrite parse_quote_units.
Qed.

Lemma parse_members_cons f k vt v more ms rest :
  Forall (fun c => (c < 65536)%N) k ->
  parse_value f vt = Some (v, 44%N :: more) ->
  parse_members f more = Some (ms, rest) ->
  parse_members (S f) (34%N :: quote_units k ++ 34%N :: 58%N :: vt)
  = Some ((k, v) :: ms, rest).
Proof.
  intros Hk Hv Hms. cbn [parse_members skip_ws].
  change (is_json_ws 34) with false. cbv iota.
  change (34 =? 34)%N with true. cbv iota.
  rewrite parse_quote_units by assumption. cbn [skip_ws].
  change (is_json_ws 58) with false. cbv iota.
  change (58 =? 58)%N with true. cbv iota.
  rewrite Hv. cbn [skip_ws]. change (is_json_ws 44) with false. cbv iota.
  change (44 =? 44)%N with true. cbv iota.
  now rewrite Hms.
Qed.

Lemma parse_members_last f k vt v rest :
  Forall (fun c => (c < 65536)%N) k ->
  parse_value f vt = Some (v, 125%N :: rest) ->
  parse_members (S f) (34%N :: quote_units k ++ 34%N :: 58%N :: vt)
  = Some ([(k, v)], rest).
Proof.
  intros Hk Hv. cbn [parse_members skip_ws].
  change (is_json_ws 34) with false. cbv iota.
  change (34 =? 34)%N with true. cbv iota.
  rewrite parse_quote_units by assumption. cbn [skip_ws].
  change (is_json_ws 58) with false. cbv iota.
  change (58 =? 58)%N with true. cbv iota.
  rewrite Hv. cbn [skip_ws]. change (is_json_ws 125) with false. cbv iota.
  change (125 =? 44)%N with false. change (125 =? 125)%N with true. cbv iota.
  reflexivity.
Qed.

Lemma parse_value_object f text ms rest :
  parse_members f (34%N :: text) = Some (ms, rest) ->
  parse_value (S f) (123%N :: 34%N :: text) = Some (JObj ms, rest).
Proof.
  intros Hms. cbn [parse_value skip_ws].
  change (is_json_ws 123) with false. cbv iota.
  change (123 =? 123)%N with true. cbv iota.
  change (is_json_ws 34) with false. cbv iota.
  change (34 =? 125)%N with false. cbv iota.
  now rewrite Hms.
Qed.

Lemma str_units s : Forall (fun c => (c < 65536)%N) (str s).
Proof.
  unfold str. apply List.Forall_forall. intros c Hc.
  apply in_map_iff in Hc as (a & <- & _).
  pose proof (N_ascii_bounded a). lia.
Qed.

Lemma latin1_units s :
  Forall (fun c => (c <= 255)%N) s -> Forall (fun c => (c < 65536)%N) s.
Proof.
  intros H. eapply List.Forall_impl; [|exact H]. cbv beta. intros c Hc. lia.
Qed.

Lemma parse_payload_object f userId iat exp type rest :
  Forall (fun c => (c < 65536)%N) userId ->
  Forall (fun c => (c < 65536)%N) type ->
  parse_value (S (S (S (S (S (S f))))))
    (JSON_stringify (payload_object userId iat exp type) ++ rest)
  = Some (payload_object userId iat exp type, rest).
Proof.
  intros Hid Hty. unfold payload_object. cbn [JSON_stringify]. unfold quote.
  repeat (cbn [app]; rewrite <- ?app_assoc).
  apply parse_value_object.
  eapply parse_members_cons;
    [apply str_units | apply parse_value_string; assumption |].
  eapply parse_members_cons;
    [apply str_units | apply parse_value_number; cbn; repeat split; discriminate |].
  eapply parse_members_cons;
    [apply str_units | apply parse_value_number; cbn; repeat split; discriminate |].
  eapply parse_members_last;
    [apply str_units | apply parse_value_string; assumption].
Qed.

Lemma stringify_payload_length userId iat exp type :
  exists n, length (JSON_stringify (payload_object userId iat exp type))
            = S (S (S (S (S n)))).
Proof.
  unfold payload_object. cbn [JSON_stringify]. unfold quote.
  change (quote_units (str "userId")) with (str "userId").
  cbn [str list_ascii_of_string List.map app length]. eauto.
Qed.

(** [JSON.parse] gives back the payload object that [JSON.stringify]
    printed. *)
Lemma JSON_parse_payload userId iat exp type :
  Forall (fun c => (c < 65536)%N) userId ->
  Forall (fun c => (c < 65536)%N) type ->
  JSON_parse (JSON_stringify (payload_object userId iat exp type))
  = Some (payload_object userId iat exp type).
Proof.
  intros Hid Hty. unfold JSON_parse.
  destruct (stringify_payload_length userId iat exp type) as [n ->].
  rewrite <- (app_nil_r (JSON_stringify _)).
  rewrite parse_payload_object by assumption.
  reflexivity.
Qed.

Lemma quote_unit_latin1 c :
  (c <= 255)%N -> Forall (fun c => (c <= 255)%N) (quote_unit c).
Proof.
  intros Hc. apply is_latin1_Forall.
  revert c Hc.
  enough (H : forall c, (c < N.of_nat 256)%N -> is_latin1 (quote_unit c) = true).
  { intros c Hc. apply H. lia. }
  apply (N_forall_below 256). vm_compute. reflexivity.
Qed.

Lemma quote_units_latin1 s :
  Forall (fun c => (c <= 255)%N) s -> Forall (fun c => (c <= 255)%N) (quote_units s).
Proof.
  induction 1 as [|c s Hc Hs IH]; [apply List.Forall_nil|].
  rewrite quote_units_cons.
  assert (Hh : is_high_surrogate c = false).
  { unfold is_high_surrogate. apply andb_false_iff. left. apply N.leb_gt. lia. }
  assert (Hl : is_low_surrogate c = false).
  { unfold is_low_surrogate. apply andb_false_iff. left. apply N.leb_gt. lia. }
  rewrite Hh, Hl. apply Forall_app. split; [now apply quote_unit_latin1|exact IH].
Qed.

Lemma quote_latin1 s :
  Forall (fun c => (c <= 255)%N) s -> Forall (fun c => (c <= 255)%N) (quote s).
Proof.
  intros H. unfold quote. apply List.Forall_cons; [lia|].
  apply Forall_app. split; [now apply quote_units_latin1|].
  apply List.Forall_cons; [lia|apply List.Forall_nil].
Qed.

Lemma number_units_latin1 n : Forall (fun c => (c <= 255)%N) (number_units n).
Proof.
  assert (H : forall u, Forall (fun c => (c <= 255)%N) (uint_units u)).
  { intros u. eapply List.Forall_impl; [|apply uint_units_digits].
    cbv beta. intros c Hc. unfold is_digit in Hc.
    apply andb_true_iff in Hc as [_ Hc]. apply N.leb_le in Hc. lia. }
  unfold number_units. destruct (Z.to_int n); [apply H|].
  apply List.Forall_cons; [lia|apply H].
Qed.

Lemma str_latin1 s : Forall (fun c => (c <= 255)%N) (str s).
Proof.
  unfold str. apply List.Forall_forall. intros c Hc.
  apply in_map_iff in Hc as (a & <- & _).
  pose proof (N_ascii_bounded a). lia.
Qed.

Lemma stringify_payload_latin1 userId iat exp type :
  Forall (fun c => (c <= 255)%N) userId ->
  Forall (fun c => (c <= 255)%N) type ->
  Forall (fun c => (c <= 255)%N) (JSON_stringify (payload_object userId iat exp type)).
Proof.
  intros Hid Hty. unfold payload_object. cbn [JSON_stringify].
  repeat match goal with
         | |- Forall _ (quote _) =>
             apply quote_latin1; first [assumption | apply str_latin1]
         | |- Forall _ (number_units _) => apply number_units_latin1
         | |- Forall _ (_ ++ _) => apply Forall_app; split
         | |- Forall _ (_ :: _) => apply List.Forall_cons; [lia|]
         | |- Forall _ [] => apply List.Forall_nil
         end.
Qed.

(** ** The fuel of the JSON parser *)

Lemma skip_ws_length s : (length (skip_ws s) <= length s)%nat.
Proof.
  induction s as [|c s IH]; cbn [skip_ws]; [lia|].
  destruct (is_json_ws c); cbn [length]; lia.
Qed.

Lemma parse_string_body_length s t rest :
  parse_string_body s = Some (t, rest) -> (length rest < length s)%nat.
Proof.
  enough (Hn : forall n s t rest, (length s <= n)%nat ->
            parse_string_body s = Some (t, rest) -> (length rest < length s)%nat)
    by (apply (Hn (length s)); lia).
  clear s t rest. induction n as [|n IHn]; intros s t rest Hlen H.
  { destruct s; [discriminate|cbn [length] in Hlen; lia]. }
  assert (IH : forall s' t' rest', (length s' < length s)%nat ->
            parse_string_body s' = Some (t', rest') -> (length rest' < length s')%nat).
  { intros s' t' rest' Hs'. apply IHn. lia. }
  clear IHn. destruct s as [|c r]; [discriminate|].
  cbn [parse_string_body] in H.
  destruct (c =? 34)%N; [injection H as _ <-; cbn [length]; lia|].
  destruct (c =? 92)%N.
  - destruct r as [|e r']; [discriminate|].
    destruct (e =? 117)%N.
    + destruct r' as [|h1 [|h2 [|h3 [|h4 r'']]]]; try discriminate.
      destruct (hex4 h1 h2 h3 h4); [|discriminate].
      destruct (parse_string_body r'') as [[t' rest']|] eqn:E; [|discriminate].
      injection H as _ <-. apply IH in E; cbn [length] in *; lia.
    + destruct (unescape e); [|discriminate].
      destruct (parse_string_body r') as [[t' rest']|] eqn:E; [|discriminate].
      injection H as _ <-. apply IH in E; cbn [length] in *; lia.
  - destruct (c <? 32)%N; [discriminate|].
    destruct (parse_string_body r) as [[t' rest']|] eqn:E; [|discriminate].
    injection H as _ <-. apply IH in E; cbn [length] in *; lia.
Qed.

Lemma span_digits_length s ds rest :
  span_digits s = (ds, rest) -> (length ds + length rest = length s)%nat.
Proof.
  revert ds rest. induction s as [|c s IH]; intros ds rest H; cbn [span_digits] in H.
  - injection H as <- <-. reflexivity.
  - destruct (is_digit c).
    + destruct (span_digits s) as [ds' rest'] eqn:E. injection H as <- <-.
      specialize (IH _ _ eq_refl). cbn [length]. lia.
    + injection H as <- <-. reflexivity.
Qed.

Lemma parse_fraction_length negative int_digits s v rest :
  parse_fraction negative int_digits s = Some (v, rest) ->
  (length rest <= length s)%nat.
Proof.
  unfold parse_fraction. intros H.
  assert (Hfraction : forall fs rest1,
    match s with
    | c :: r =>
        if (c =? 46)%N then
          let '(fs, r') := span_digits r in
          match fs with
          | [] => None
          | _ :: _ => Some (fs, r')
          end
        else Some ([], s)
    | [] => Some ([], s)
    end = Some (fs, rest1) -> (length rest1 <= length s)%nat).
  { intros fs rest1 E. destruct s as [|c r]; [injection E as _ <-; lia|].
    destruct (c =? 46)%N; [|injection E as _ <-; lia].
    destruct (span_digits r) as [fs' r'] eqn:E'. apply span_digits_length in E'.
    destruct fs'; [discriminate|]. injection E as _ <-. cbn [length] in *. lia. }
  destruct (match s with
            | c :: r =>
                if (c =? 46)%N then
                  let '(fs, r') := span_digits r in
                  match fs with
                  | [] => None
                  | _ :: _ => Some (fs, r')
                  end
                else Some ([], s)
            | [] => Some ([], s)
            end) as [[fs rest1]|]; [|discriminate].
  specialize (Hfraction fs rest1 eq_refl).
  destruct rest1 as [|c r]; [injection H as _ <-; exact Hfraction|].
  destruct ((c =? 101) || (c =? 69))%N; [|injection H as _ <-; exact Hfraction].
  destruct (match r with
            | c' :: r' =>
                if (c' =? 45)%N then (true, r')
                else if (c' =? 43)%N then (false, r')
                else (false, r)
            | [] => (false, r)
            end) as [minus r1] eqn:E1.
  assert (Hr1 : (length r1 <= length r)%nat).
  { destruct r as [|c' r']; [injection E1 as _ <-; lia|].
    destruct (c' =? 45)%N; [injection E1 as _ <-; cbn [length]; lia|].
    destruct (c' =? 43)%N; injection E1 as _ <-; cbn [length]; lia. }
  destruct (span_digits r1) as [es r2] eqn:E2. apply span_digits_length in E2.
  destruct es; [discriminate|]. injection H as _ <-.
  cbn [length] in *. lia.
Qed.

Lemma parse_number_length s v rest :
  parse_number s = Some (v, rest) -> (length rest < length s)%nat.
Proof.
  unfold parse_number. intros H.
  destruct (match s with
            | [] => (false, s)
            | c :: r => if (c =? 45)%N then (true, r) else (false, s)
            end) as [neg s1] eqn:E1.
  assert (Hs1 : (length s1 <= length s)%nat).
  { destruct s as [|c r]; [injection E1 as _ <-; lia|].
    destruct (c =? 45)%N; injection E1 as _ <-; cbn [length]; lia. }
  destruct (span_digits s1) as [ds rest'] eqn:E2.
  apply span_digits_length in E2.
  destruct ds as [|d ds']; [discriminate|].
  destruct ((d =? 48)%N && negb match ds' with [] => true | _ :: _ => false end); [discriminate|].
  destruct (match rest' with
            | [] => false
            | c :: _ => (c =? 46)%N || (c =? 101)%N || (c =? 69)%N
            end).
  - apply parse_fraction_length in H. cbn [length] in E2. lia.
  - injection H as _ <-. cbn [length] in E2. lia.
Qed.

Lemma startsWith_length p s : startsWith p s = true -> (length p <= length s)%nat.
Proof.
  revert s. induction p as [|x p IH]; intros [|y s] H; cbn [startsWith length] in *;
    try lia; try discriminate.
  apply andb_true_iff in H as [_ H]. apply IH in H. lia.
Qed.

Lemma stable_value_step f :
  stable_members f -> stable_elements f -> stable_value (S f).
Proof.
  intros IHm IHe s v rest H. cbn [parse_value] in H.
  pose proof (skip_ws_length s) as Hs.
  destruct (skip_ws s) as [|c r] eqn:Es; [discriminate|]. cbn [length] in Hs.
  destruct (c =? 123)%N eqn:E123.
  { pose proof (skip_ws_length r) as Hr.
    destruct (skip_ws r) as [|c' r'] eqn:Er; [discriminate|]. cbn [length] in Hr.
    destruct (c' =? 125)%N eqn:E125.
    - injection H as <- <-. split; [lia|]. intros [|g] Hg; [lia|].
      cbn [parse_value]. now rewrite Es, E123, Er, E125.
    - destruct (parse_members f r) as [[ms rest']|] eqn:Em; [|discriminate].
      injection H as <- <-. destruct (IHm _ _ _ Em) as [Hl Hst].
      split; [lia|]. intros [|g] Hg; [lia|].
      cbn [parse_value]. rewrite Es, E123, Er, E125, (Hst g) by lia. reflexivity. }
  destruct (c =? 91)%N eqn:E91.
  { pose proof (skip_ws_length r) as Hr.
    destruct (skip_ws r) as [|c' r'] eqn:Er; [discriminate|]. cbn [length] in Hr.
    destruct (c' =? 93)%N eqn:E93.
    - injection H as <- <-. split; [lia|]. intros [|g] Hg; [lia|].
      cbn [parse_value]. now rewrite Es, E123, E91, Er, E93.
    - destruct (parse_elements f r) as [[vs rest']|] eqn:Ee; [|discriminate].
      injection H as <- <-. destruct (IHe _ _ _ Ee) as [Hl Hst].
      split; [lia|]. intros [|g] Hg; [lia|].
      cbn [parse_value]. rewrite Es, E123, E91, Er, E93, (Hst g) by lia. reflexivity. }
  assert (Hflat : (length rest < S (length r))%nat ->
                  (length rest < length s)%nat /\
                  forall f', (length s - length rest <= f')%nat ->
                    parse_value f' s = Some (v, rest)).
  { intros Hl. split; [lia|]. intros [|g] Hg; [lia|].
    cbn [parse_value]. rewrite Es, E123, E91. exact H. }
  apply Hflat. clear Hflat.
  destruct (c =? 34)%N.
  { destruct (parse_string_body r) as [[t rest']|] eqn:Eb; [|discriminate].
    injection H as _ <-. apply parse_string_body_length in Eb. lia. }
  destruct (startsWith (str "true") (c :: r)) eqn:Et.
  { injection H as _ <-. apply startsWith_length in Et.
    rewrite length_skipn. cbn [length] in *. change (length (str "true")) with 4%nat in Et. lia. }
  destruct (startsWith (str "false") (c :: r)) eqn:Ef.
  { injection H as _ <-. apply startsWith_length in Ef.
    rewrite length_skipn. cbn [length] in *. change (length (str "false")) with 5%nat in Ef. lia. }
  destruct (startsWith (str "null") (c :: r)) eqn:En.
  { injection H as _ <-. apply startsWith_length in En.
    rewrite length_skipn. cbn [length] in *. change (length (str "null")) with 4%nat in En. lia. }
  apply parse_number_length in H. cbn [length] in H. lia.
Qed.

Lemma stable_members_step f :
  stable_value f -> stable_members f -> stable_members (S f).
Proof.
  intros IHv IHm s ms rest H. cbn [parse_members] in H.
  pose proof (skip_ws_length s) as Hs.
  destruct (skip_ws s) as [|c r] eqn:Es; [discriminate|]. cbn [length] in Hs.
  destruct (c =? 34)%N eqn:E34; [|discriminate].
  destruct (parse_string_body r) as [[k r1]|] eqn:Ek; [|discriminate].
  pose proof (parse_string_body_length _ _ _ Ek) as Hk.
  pose proof (skip_ws_length r1) as Hr1.
  destruct (skip_ws r1) as [|c1 r2] eqn:Er1; [discriminate|]. cbn [length] in Hr1.
  destruct (c1 =? 58)%N eqn:E58; [|discriminate].
  destruct (parse_value f r2) as [[v r3]|] eqn:Ev; [|discriminate].
  destruct (IHv _ _ _ Ev) as [Hv Hvst].
  pose proof (skip_ws_length r3) as Hr3.
  destruct (skip_ws r3) as [|c3 r4] eqn:Er3; [discriminate|]. cbn [length] in Hr3.
  destruct (c3 =? 44)%N eqn:E44.
  - destruct (parse_members f r4) as [[ms' r5]|] eqn:Em; [|discriminate].
    injection H as <- <-. destruct (IHm _ _ _ Em) as [Hm Hmst].
    split; [lia|]. intros [|g] Hg; [lia|].
    cbn [parse_members].
    rewrite Es, E34, Ek, Er1, E58, (Hvst g) by lia.
    rewrite Er3, E44, (Hmst g) by lia. reflexivity.
  - destruct (c3 =? 125)%N eqn:E125; [|discriminate].
    injection H as <- <-. split; [lia|]. intros [|g] Hg; [lia|].
    cbn [parse_members].
    rewrite Es, E34, Ek, Er1, E58, (Hvst g) by lia.
    rewrite Er3, E44, E125. reflexivity.
Qed.

Lemma stable_elements_step f :
  stable_value f -> stable_elements f -> stable_elements (S f).
Proof.
  intros IHv IHe s vs rest H. cbn [parse_elements] in H.
  destruct (parse_value f s) as [[v r1]|] eqn:Ev; [|discriminate].
  destruct (IHv _ _ _ Ev) as [Hv Hvst].
  pose proof (skip_ws_length r1) as Hr1.
  destruct (skip_ws r1) as [|c1 r2] eqn:Er1; [discriminate|]. cbn [length] in Hr1.
  destruct (c1 =? 44)%N eqn:E44.
  - destruct (parse_elements f r2) as [[vs' r3]|] eqn:Ee; [|discriminate].
    injection H as <- <-. destruct (IHe _ _ _ Ee) as [He Hest].
    split; [lia|]. intros [|g] Hg; [lia|].
    cbn [parse_elements]. rewrite (Hvst g) by lia.
    rewrite Er1, E44, (Hest g) by lia. reflexivity.
  - destruct (c1 =? 93)%N eqn:E93; [|discriminate].
    injection H as <- <-. split; [lia|]. intros [|g] Hg; [lia|].
    cbn [parse_elements]. rewrite (Hvst g) by lia.
    rewrite Er1, E44, E93. reflexivity.
Qed.

Lemma parse_stable f : stable_value f /\ stable_members f /\ stable_elements f.
Proof.
  induction f as [|f (IHv & IHm & IHe)].
  - split; [|split]; intros s x rest Hp; discriminate.
  - split; [now apply stable_value_step|].
    split; [now apply stable_members_step|now apply stable_elements_step].
Qed.

(** The fuel of [JSON_parse] is enough: what any amount of fuel reads is
    read with the fuel [JSON_parse] gives. *)
Lemma JSON_parse_fuel f s v rest :
  parse_value f s = Some (v, rest) ->
  parse_value (S (length s)) s = Some (v, rest).
Proof.
  intros H. destruct (parse_stable f) as [Hv _].
  destruct (Hv _ _ _ H) as [_ Hst]. apply Hst. lia.
Qed.

(** ** Splitting a token *)

Lemma split_nonempty sep s : split sep s <> [].
Proof.
  destruct s as [|c s]; cbn [split]; [discriminate|].
  destruct (c =? sep)%N; [discriminate|].
  destruct (split sep s); discriminate.
Qed.

Lemma split_app sep a b :
  split sep (a ++ sep :: b) = split sep a ++ split sep b.
Proof.
  induction a as [|c a IH]; cbn [app split].
  - now rewrite N.eqb_refl.
  - destruct (c =? sep)%N; [now rewrite IH|].
    rewrite IH. pose proof (split_nonempty sep a) as Hne.
    destruct (split sep a); [congruence|reflexivity].
Qed.

Lemma split_nosep sep a : Forall (fun c => c <> sep) a -> split sep a = [a].
Proof.
  induction 1 as [|c a Hc _ IH]; cbn [split]; [reflexivity|].
  apply N.eqb_neq in Hc. now rewrite Hc, IH.
Qed.

(** ** Bytes *)

Lemma to_uint8_to_N b : to_uint8 (Byte.to_N b) = b.
Proof. destruct b; reflexivity. Qed.

Lemma Uint8Array_from_fromCharCode bs : Uint8Array_from (fromCharCode bs) = bs.
Proof.
  unfold Uint8Array_from, fromCharCode. rewrite List.map_map.
  induction bs as [|b bs IH]; cbn [List.map]; [reflexivity|].
  now rewrite to_uint8_to_N, IH.
Qed.

Lemma fromCharCode_latin1 bs : Forall (fun c => (c <= 255)%N) (fromCharCode bs).
Proof.
  unfold fromCharCode. apply List.Forall_forall. intros c Hc.
  apply in_map_iff in Hc as (b & <- & _). apply Byte.to_N_bounded.
Qed.

Lemma bytes_eqb_eq a b : bytes_eqb a b = true <-> a = b.
Proof.
  revert b. induction a as [|x a IH]; intros [|y b]; cbn [bytes_eqb];
    try (split; [discriminate|congruence]); [tauto|].
  rewrite andb_true_iff, IH. split.
  - intros [Hxy ->]. apply Byte.byte_dec_bl in Hxy. now subst.
  - intros [= -> ->]. split; [now apply Byte.byte_dec_lb|reflexivity].
Qed.

(** ** Credential codec *)

Lemma btoa_bytes_segment t :
  Forall (fun c => (c <= 255)%N) t -> t <> [] ->
  btoa t = Some (btoa_bytes t) /\ not_string (btoa_bytes t) = false /\
  Forall (fun c => c <> DOT) (btoa_bytes t) /\ atob (btoa_bytes t) = Some t.
Proof.
  intros Ht Hne.
  assert (E : btoa t = Some (btoa_bytes t)).
  { unfold btoa. now rewrite (proj2 (is_latin1_Forall t) Ht). }
  repeat split.
  - exact E.
  - pose proof (btoa_nonempty _ _ E Hne). now destruct (btoa_bytes t).
  - exact (btoa_no_dot _ _ E).
  - exact (atob_btoa _ _ E).
Qed.

Lemma stringify_header_segment :
  Forall (fun c => (c <= 255)%N) (JSON_stringify jwt_header) /\
  JSON_stringify jwt_header <> [].
Proof.
  split; [apply is_latin1_Forall; reflexivity|discriminate].
Qed.

Section CodecProperties.

Variable P : Platform.
Hypothesis mac_length : hmac_sha256_output P.

Lemma signJWT_token payload secret :
  Forall (fun c => (c <= 255)%N) (JSON_stringify payload) ->
  hmac_key_ok P secret = true ->
  signJWT P payload secret
  = Ok (signing_input payload ++ DOT ::
        btoa_bytes (fromCharCode (hmac P secret (signing_input payload)))).
Proof.
  intros Hp Hk. unfold signJWT, signing_input.
  destruct stringify_header_segment as [Hh Hhne].
  destruct (btoa_bytes_segment _ Hh Hhne) as (-> & _).
  unfold btoa at 1. rewrite (proj2 (is_latin1_Forall _) Hp).
  cbn [of_option bindO]. rewrite Hk.
  unfold btoa. rewrite (proj2 (is_latin1_Forall _) (fromCharCode_latin1 _)).
  reflexivity.
Qed.

Lemma mac_nonempty secret data : fromCharCode (hmac P secret data) <> [].
Proof.
  intros E. apply (f_equal (@length N)) in E.
  unfold fromCharCode in E. rewrite length_map, mac_length in E. discriminate.
Qed.

(** A token made by [signJWT] passes the format guard and the signature
    check of [verifyJWT], which then reads the payload text back. *)
Lemma verifyJWT_signed payload secret now :
  Forall (fun c => (c <= 255)%N) (JSON_stringify payload) ->
  JSON_stringify payload <> [] ->
  hmac_key_ok P secret = true ->
  verifyJWT P (signing_input payload ++ DOT ::
               btoa_bytes (fromCharCode (hmac P secret (signing_input payload))))
            secret now
  = try_catch
      (let* parsed := of_option Err_Syntax (JSON_parse (JSON_stringify payload)) in
       let* exp := get_prop parsed (str "exp") in
       let* is_expired := expired exp now in
       if is_expired then Throw Err_TokenExpired else Ok parsed)
      (fun error => Throw (Err_TokenVerificationFailed error)).
Proof.
  intros Hp Hpne Hk.
  destruct stringify_header_segment as [Hh Hhne].
  destruct (btoa_bytes_segment _ Hh Hhne) as (_ & Hh1 & Hh2 & _).
  destruct (btoa_bytes_segment _ Hp Hpne) as (_ & Hp1 & Hp2 & Hp3).
  destruct (btoa_bytes_segment _ (fromCharCode_latin1 (hmac P secret (signing_input payload)))
              (mac_nonempty secret (signing_input payload))) as (_ & Hs1 & Hs2 & Hs3).
  unfold verifyJWT.
  assert (Hsplit : split DOT (signing_input payload ++ DOT ::
               btoa_bytes (fromCharCode (hmac P secret (signing_input payload))))
          = [btoa_bytes (JSON_stringify jwt_header);
             btoa_bytes (JSON_stringify payload);
             btoa_bytes (fromCharCode (hmac P secret (signing_input payload)))]).
  { unfold signing_input at 1. rewrite !split_app.
    now rewrite !split_nosep by assumption. }
  rewrite Hsplit. cbn [nth]. rewrite Hh1, Hp1, Hs1. cbn [orb].
  fold (signing_input payload). rewrite Hk, Hs3. cbn [of_option bindO].
  rewrite Uint8Array_from_fromCharCode.
  rewrite (proj2 (bytes_eqb_eq _ _) eq_refl). cbn [negb].
  rewrite Hp3. reflexivity.
Qed.

End CodecProperties.

(** ** The concrete platform produces 32-byte MACs *)

Lemma round_length st kw : length st = 8%nat -> length (WebCrypto.round st kw) = 8%nat.
Proof.
  intros H. do 9 (destruct st as [|? st]; try discriminate). reflexivity.
Qed.

Lemma rounds_length kws st :
  length st = 8%nat -> length (fold_left WebCrypto.round kws st) = 8%nat.
Proof.
  revert st. induction kws as [|kw kws IH]; intros st H; cbn [fold_left]; [exact H|].
  apply IH. now apply round_length.
Qed.

Lemma compress_length hs block :
  length hs = 8%nat -> length (WebCrypto.compress hs block) = 8%nat.
Proof.
  intros H. unfold WebCrypto.compress.
  rewrite length_map, length_combine, rounds_length by exact H. rewrite H. reflexivity.
Qed.

Lemma sha256_length msg : length (WebCrypto.sha256 msg) = 32%nat.
Proof.
  unfold WebCrypto.sha256.
  set (bs := WebCrypto.blocks _ _).
  assert (H : length (fold_left WebCrypto.compress bs WebCrypto.H256) = 8%nat).
  { generalize WebCrypto.H256 (eq_refl : length WebCrypto.H256 = 8%nat).
    induction bs as [|b bs IH]; intros hs Hhs; cbn [fold_left]; [exact Hhs|].
    apply IH. now apply compress_length. }
  generalize dependent (fold_left WebCrypto.compress bs WebCrypto.H256).
  intros st H. do 9 (destruct st as [|? st]; try discriminate). reflexivity.
Qed.

Lemma platform_mac_length : hmac_sha256_output WebCrypto.platform.
Proof.
  intros secret data. cbn [hmac WebCrypto.platform]. unfold WebCrypto.sign.
  rewrite length_map. unfold WebCrypto.hmac_sha256. apply sha256_length.
Qed.

(** ** C1: round trip of the credential codec *)

(** [verifyJWT] returns the payload object [signJWT] signed, unless its
    [exp] has passed. *)
Lemma signed_payload_verifies
    (P : Platform) (id type secret : list N) (iat exp now' : Z) :
  hmac_sha256_output P ->
  hmac_key_ok P secret = true ->
  Forall (fun c => (c <= 255)%N) id ->
  Forall (fun c => (c <= 255)%N) type ->
  now' <= exp * 1000 ->
  exists token,
    signJWT P (payload_object id iat exp type) secret = Ok token /\
    verifyJWT P token secret now' = Ok (payload_object id iat exp type).
Proof.
  intros Hmac Hkey Hid Hty Hnow.
  set (payload := payload_object id iat exp type).
  assert (Hp : Forall (fun c => (c <= 255)%N) (JSON_stringify payload))
    by now apply stringify_payload_latin1.
  assert (Hpne : JSON_stringify payload <> []) by discriminate.
  eexists. split; [now apply signJWT_token|].
  rewrite verifyJWT_signed by assumption.
  unfold payload at 1.
  rewrite JSON_parse_payload by now apply latin1_units.
  fold payload. cbn [of_option bindO].
  change (get_prop payload (str "exp")) with (Ok (Some (JNum exp))).
  cbn [bindO]. unfold expired. cbn [truthy].
  destruct (Z.ltb_spec (exp * 1000) now') as [Hlt|_]; [lia|].
  destruct (negb (exp =? 0)); reflexivity.
Qed.

(** C1 (amended).  For every identity whose code units are all at most
    0xFF (every generated identity is such a string), every secret the
    platform imports as an HMAC key, and every reading [now'] of
    [Date.now()] (milliseconds) before the expiry [(now + ttl)] seconds:
    [signJWT] of the payload [{userId: id, iat: now, exp: now + ttl,
    type: 'anonymous'}] returns a token, and [verifyAnonymousToken] of that
    token under the same secret at [now'] returns a payload whose [userId]
    is [id]. *)
Theorem credential_round_trip
    (P : Platform) (id secret : list N) (now ttl now' : Z) :
  hmac_sha256_output P ->
  hmac_key_ok P secret = true ->
  Forall (fun c => (c <= 255)%N) id ->
  now' < (now + ttl) * 1000 ->
  exists token payload,
    signJWT P (payload_object id now (now + ttl) anonymous) secret = Ok token /\
    verifyAnonymousToken P token secret now' = Ok payload /\
    get_prop payload (str "userId") = Ok (Some (JStr id)).
Proof.
  intros Hmac Hkey Hid Hnow.
  destruct (signed_payload_verifies P id anonymous secret now (now + ttl) now')
    as (token & Hsign & Hverify); try assumption; [apply str_latin1|lia|].
  exists token, (payload_object id now (now + ttl) anonymous).
  split; [exact Hsign|]. split; [|reflexivity].
  unfold verifyAnonymousToken. rewrite Hverify. reflexivity.
Qed.

Lemma credential_round_trip_witness :
  let id := str "anon_1700000000000_00112233445566778899aabbccddeeff" in
  exists token payload,
    signJWT WebCrypto.platform
      (payload_object id 1700000000 (1700000000 + 2592000) anonymous)
      (str "secret") = Ok token /\
    verifyAnonymousToken WebCrypto.platform token (str "secret") 1700000005000
    = Ok payload /\
    get_prop payload (str "userId") = Ok (Some (JStr id)).
Proof.
  intros id.
  apply (credential_round_trip WebCrypto.platform id (str "secret")
           1700000000 2592000 1700000005000).
  - exact platform_mac_length.
  - reflexivity.
  - apply str_latin1.
  - lia.
Defined.

(** C1 as stated fails on an identity with a code unit above 0xFF:
    [btoa] throws on the payload text, so no token is produced. *)
Lemma credential_round_trip_non_latin1 :
  ~ exists token payload,
      signJWT WebCrypto.platform
        (payload_object [12354%N] 1700000000 (1700000000 + 2592000) anonymous)
        (str "secret") = Ok token /\
      verifyAnonymousToken WebCrypto.platform token (str "secret") 1700000005000
      = Ok payload /\
      get_prop payload (str "userId") = Ok (Some (JStr [12354%N])).
Proof.
  intros (token & payload & Hsign & _).
  vm_compute in Hsign. discriminate.
Qed.

(** ** Rate limiter *)

Lemma ceil_div_spec x d :
  0 < d -> d * (ceil_div x d - 1) < x <= d * ceil_div x d.
Proof.
  intros Hd. unfold ceil_div.
  pose proof (Z.div_mod (- x) d ltac:(lia)).
  pose proof (Z.mod_pos_bound (- x) d Hd). lia.
Qed.

Lemma Math_min_spec l :
  l <> [] -> In (Math_min l) l /\ forall t, In t l -> Math_min l <= t.
Proof.
  destruct l as [|x l]; [congruence|]. intros _. cbn [Math_min].
  revert x. induction l as [|y l IH]; intros x; cbn [fold_left].
  - split; [now left|]. intros t [->|[]]. lia.
  - destruct (IH (Z.min x y)) as [Hin Hle]. split.
    + destruct Hin as [Hin|Hin]; [|right; now right].
      rewrite <- Hin. destruct (Z.min_spec x y) as [[_ ->]|[_ ->]];
        [now left|right; now left].
    + intros t [->|[->|Ht]].
      * specialize (Hle (Z.min t y) (or_introl eq_refl)). lia.
      * specialize (Hle (Z.min x t) (or_introl eq_refl)). lia.
      * apply Hle. now right.
Qed.

(** The decision of [checkRateLimit] and its effect on the rate-limit
    namespace when no KV call is rejected. *)
Lemma checkRateLimit_spec userId now now_stats w :
  let remaining := remaining_requests userId now w in
  let r := checkRateLimit no_faults userId now now_stats w in
  if maxRequests <=? Z.of_nat (length remaining) then
    fst r = Ok (deny (ceil_div (Math_min remaining + windowMs - now) 1000)) /\
    RATE_LIMIT_KV (snd r) = RATE_LIMIT_KV w
  else
    fst r = Ok allow /\
    RATE_LIMIT_KV (snd r)
    = <[rate_limit_key userId := remaining ++ [now]]> (RATE_LIMIT_KV w).
Proof.
  cbv zeta. unfold remaining_requests, stored_requests, checkRateLimit.
  unfold tryM, bindM, rate_limit_get, no_faults. cbn [RATE_LIMIT_KV log].
  unfold default.
  set (requests := List.filter _ _).
  destruct (maxRequests <=? Z.of_nat (length requests)); [split; reflexivity|].
  unfold rate_limit_put, updateUserStats, tryM, bindM, user_stats_get,
    user_stats_put, ret. cbn. split; reflexivity.
Qed.

Lemma remaining_in_window userId now w t :
  In t (remaining_requests userId now w) -> now - t < windowMs.
Proof.
  unfold remaining_requests. intros Ht. apply filter_In in Ht as [_ Ht].
  now apply Z.ltb_lt.
Qed.

(** The shapes a call of [checkRateLimit] can take, whatever KV calls are
    rejected: it resolves, and it denies only after a successful read of a
    full window. *)
Lemma checkRateLimit_cases faulty userId now now_stats w :
  let remaining := remaining_requests userId now w in
  let r := checkRateLimit faulty userId now now_stats w in
  (fst r = Ok allow) \/
  (faulty (RateLimitGet (rate_limit_key userId)) = false /\
   maxRequests <= Z.of_nat (length remaining) /\
   fst r = Ok (deny (ceil_div (Math_min remaining + windowMs - now) 1000)) /\
   trace (snd r) = trace w ++ [KvEvent (RateLimitGet (rate_limit_key userId)) false]).
Proof.
  cbv zeta. unfold remaining_requests, stored_requests, checkRateLimit.
  unfold tryM, bindM, rate_limit_get.
  destruct (faulty (RateLimitGet (rate_limit_key userId))); [left; reflexivity|].
  cbn [RATE_LIMIT_KV log]. unfold default.
  set (requests := List.filter _ _).
  destruct (Z.leb_spec maxRequests (Z.of_nat (length requests))) as [Hfull|_].
  - right. split; [reflexivity|]. split; [exact Hfull|]. split; reflexivity.
  - left. unfold rate_limit_put, updateUserStats, tryM, bindM, user_stats_get,
      user_stats_put, ret.
    repeat match goal with
           | |- context [if faulty ?c then _ else _] => destruct (faulty c)
           end; reflexivity.
Qed.

(** ** C3: the retry hint of a denial *)

(** C3.  Whenever [checkRateLimit] denies, at least [maxRequests] stored
    timestamps are inside the window, and [retryAfter] is
    [ceil((oldest + windowMs - now) / 1000)] for [oldest] the least of
    them, computed on integers: it is the least number of seconds [s] with
    [oldest + windowMs - now <= 1000 * s], and it is at least 1 because
    every remaining timestamp [t] has [now - t < windowMs]. *)
Theorem retry_after_formula
    (faulty : KvCall -> bool) (userId : list N) (now now_stats : Z) (w : World)
    (r : RateLimitResult) :
  fst (checkRateLimit faulty userId now now_stats w) = Ok r ->
  allowed r = false ->
  let remaining := remaining_requests userId now w in
  maxRequests <= Z.of_nat (length remaining) /\
  exists oldest seconds,
    In oldest remaining /\
    (forall t, In t remaining -> oldest <= t /\ now - t < windowMs) /\
    retryAfter r = Some seconds /\
    seconds = ceil_div (oldest + windowMs - now) 1000 /\
    1000 * (seconds - 1) < oldest + windowMs - now <= 1000 * seconds /\
    1 <= seconds.
Proof.
  intros Hr Hdenied remaining.
  destruct (checkRateLimit_cases faulty userId now now_stats w)
    as [Hallow|(_ & Hfull & Hdeny & _)].
  - rewrite Hallow in Hr. injection Hr as <-. discriminate.
  - fold remaining in Hfull, Hdeny. rewrite Hdeny in Hr. injection Hr as <-.
    split; [exact Hfull|].
    assert (Hne : remaining <> []).
    { intros E. rewrite E in Hfull. unfold maxRequests in Hfull. cbn in Hfull. lia. }
    destruct (Math_min_spec remaining Hne) as [Hin Hmin].
    pose proof (remaining_in_window userId now w _ Hin) as Hwin.
    pose proof (ceil_div_spec (Math_min remaining + windowMs - now) 1000 ltac:(lia)) as Hceil.
    exists (Math_min remaining), (ceil_div (Math_min remaining + windowMs - now) 1000).
    repeat split; try assumption; try lia.
    + now apply Hmin.
    + now apply (remaining_in_window userId now w).
Qed.

(** ** C7: the limiter fails open *)

(** C7.  For every identity and time, [checkRateLimit] resolves, and if a
    KV read or write it performed was rejected (in the rate-limit or in
    the usage-statistics namespace) it resolves to [allowed = true]: the
    error is neither propagated nor turned into a denial. *)
Theorem rate_limiter_fails_open
    (faulty : KvCall -> bool) (userId : list N) (now now_stats : Z) (w : World) :
  let r := checkRateLimit faulty userId now now_stats w in
  exists result events,
    fst r = Ok result /\
    trace (snd r) = trace w ++ events /\
    ((exists call, In (KvEvent call true) events) -> result = allow).
Proof.
  cbv zeta.
  destruct (checkRateLimit_cases faulty userId now now_stats w)
    as [Hallow|(_ & _ & Hdeny & Htrace)].
  - exists allow.
    assert (Htrace : exists events,
      trace (snd (checkRateLimit faulty userId now now_stats w)) = trace w ++ events).
    { unfold checkRateLimit, tryM, bindM, rate_limit_get, rate_limit_put,
        updateUserStats, tryM, bindM, user_stats_get, user_stats_put, ret.
      repeat match goal with
             | |- context [if ?c then _ else _] => destruct c
             end; cbn [snd trace log]; rewrite <- ?app_assoc; eauto. }
    destruct Htrace as [events Htrace]. exists events. auto.
  - eexists _, _. split; [exact Hdeny|]. split; [exact Htrace|].
    intros (call & [Hin|[]]). discriminate.
Qed.

Lemma retry_after_formula_witness :
  let w := full_window_world (str "anon_1_ab") in
  let remaining := remaining_requests (str "anon_1_ab") 150000 w in
  maxRequests <= Z.of_nat (length remaining) /\
  exists oldest seconds,
    In oldest remaining /\
    (forall t, In t remaining -> oldest <= t /\ 150000 - t < windowMs) /\
    retryAfter (deny 3450) = Some seconds /\
    seconds = ceil_div (oldest + windowMs - 150000) 1000 /\
    1000 * (seconds - 1) < oldest + windowMs - 150000 <= 1000 * seconds /\
    1 <= seconds.
Proof.
  apply (retry_after_formula no_faults (str "anon_1_ab") 150000 150000
           (full_window_world (str "anon_1_ab")) (deny 3450)).
  - vm_compute. reflexivity.
  - reflexivity.
Defined.

(** ** C2: the window of one identity *)

Lemma filter_keep_all (f : Z -> bool) l :
  Forall (fun t => f t = true) l -> List.filter f l = l.
Proof.
  induction 1 as [|t l Ht _ IH]; cbn [List.filter]; [reflexivity|].
  now rewrite Ht, IH.
Qed.

Lemma filter_drop_all (f : Z -> bool) l :
  Forall (fun t => f t = false) l -> List.filter f l = [].
Proof.
  induction 1 as [|t l Ht _ IH]; cbn [List.filter]; [reflexivity|].
  now rewrite Ht, IH.
Qed.

Lemma stored_after_insert userId requests w w' :
  RATE_LIMIT_KV w' = <[rate_limit_key userId := requests]> (RATE_LIMIT_KV w) ->
  stored_requests userId w' = requests.
Proof.
  intros E. unfold stored_requests. now rewrite E, lookup_insert_eq.
Qed.

(** Calls inside one window [t0, t0 + windowMs) are all admitted while
    the record has room, and each one appends its timestamp. *)
Lemma admits_within_window userId t0 calls :
  forall w,
  Forall (fun t => t0 <= t < t0 + windowMs) (stored_requests userId w) ->
  Forall (fun c => t0 <= fst c < t0 + windowMs) calls ->
  (length (stored_requests userId w) + length calls <= 100)%nat ->
  let r := checkRateLimit_calls no_faults userId calls w in
  Forall (fun o => o = Ok allow) (fst r) /\
  length (fst r) = length calls /\
  stored_requests userId (snd r) = stored_requests userId w ++ List.map fst calls.
Proof.
  induction calls as [|[now now_stats] calls IH]; intros w Hpre Hcalls Hlen; cbv zeta.
  - cbn. rewrite app_nil_r. repeat split. apply List.Forall_nil.
  - cbn [checkRateLimit_calls].
    apply List.Forall_cons_iff in Hcalls as [Hnow Hcalls]. cbn [fst] in Hnow.
    cbn [length] in Hlen.
    pose proof (checkRateLimit_spec userId now now_stats w) as Hspec. cbv zeta in Hspec.
    assert (Hrem : remaining_requests userId now w = stored_requests userId w).
    { unfold remaining_requests. apply filter_keep_all.
      eapply List.Forall_impl; [|exact Hpre]. cbv beta. intros t Ht.
      apply Z.ltb_lt. lia. }
    rewrite Hrem in Hspec.
    destruct (Z.leb_spec maxRequests (Z.of_nat (length (stored_requests userId w))))
      as [Hfull|_]; [unfold maxRequests in Hfull; lia|].
    destruct Hspec as [Hres Hkv].
    destruct (checkRateLimit no_faults userId now now_stats w) as [r w'].
    cbn [fst snd] in Hres, Hkv. subst r.
    pose proof (stored_after_insert _ _ _ _ Hkv) as Hstored.
    specialize (IH w'). rewrite Hstored in IH.
    destruct IH as (IH1 & IH2 & IH3).
    + apply Forall_app. split; [exact Hpre|].
      apply List.Forall_cons; [exact Hnow|apply List.Forall_nil].
    + exact Hcalls.
    + rewrite length_app. cbn [length]. lia.
    + destruct (checkRateLimit_calls no_faults userId calls w') as [rs w''].
      cbn [fst snd] in *. repeat split.
      * apply List.Forall_cons; [reflexivity|exact IH1].
      * cbn [length]. now rewrite IH2.
      * rewrite IH3, <- app_assoc. reflexivity.
Qed.

(** C2.  With [maxRequests = 100] and [windowMs = 3,600,000], for every
    identity whose rate-limit record is absent: 100 consecutive calls of
    [checkRateLimit] inside one window are all allowed; the 101st call
    inside that window is denied with [retryAfter > 0]; and a call made
    when every stored timestamp is at least [windowMs] old is allowed
    again. *)
Theorem window_admits_100_then_denies
    (userId : list N) (w : World) (calls : list (Z * Z)) (call101 later : Z * Z)
    (t0 : Z) :
  RATE_LIMIT_KV w !! rate_limit_key userId = None ->
  length calls = 100%nat ->
  Forall (fun c => t0 <= fst c < t0 + windowMs) (calls ++ [call101]) ->
  Forall (fun c => windowMs <= fst later - fst c) calls ->
  maxRequests = 100 /\ windowMs = 3600000 /\
  let '(results, w1) := checkRateLimit_calls no_faults userId calls w in
  let '(r101, w2) := checkRateLimit no_faults userId (fst call101) (snd call101) w1 in
  let '(rlater, _) := checkRateLimit no_faults userId (fst later) (snd later) w2 in
  Forall (fun r => r = Ok allow) results /\ length results = 100%nat /\
  (exists seconds, r101 = Ok (deny seconds) /\ 0 < seconds) /\
  rlater = Ok allow.
Proof.
  intros Habsent Hlen Hwin Hlater.
  split; [reflexivity|]. split; [reflexivity|].
  apply Forall_app in Hwin as [Hcalls H101].
  apply List.Forall_cons_iff in H101 as [H101 _].
  assert (Hstored0 : stored_requests userId w = []).
  { unfold stored_requests. now rewrite Habsent. }
  destruct (admits_within_window userId t0 calls w) as (Hres & Hreslen & Hstored).
  { rewrite Hstored0. apply List.Forall_nil. }
  { exact Hcalls. }
  { rewrite Hstored0, Hlen. cbn. lia. }
  rewrite Hstored0 in Hstored. cbn [app] in Hstored.
  destruct (checkRateLimit_calls no_faults userId calls w) as [results w1].
  cbn [fst snd] in Hres, Hreslen, Hstored.
  (* the 101st call *)
  pose proof (checkRateLimit_spec userId (fst call101) (snd call101) w1) as Hspec.
  cbv zeta in Hspec.
  assert (Hrem : remaining_requests userId (fst call101) w1 = List.map fst calls).
  { unfold remaining_requests. rewrite Hstored. apply filter_keep_all.
    apply List.Forall_forall. intros t Ht.
    apply in_map_iff in Ht as (c & <- & Hc).
    rewrite List.Forall_forall in Hcalls. specialize (Hcalls c Hc).
    apply Z.ltb_lt. lia. }
  rewrite Hrem, length_map, Hlen in Hspec.
  change (maxRequests <=? Z.of_nat 100) with true in Hspec.
  destruct Hspec as [Hr101 Hkv].
  destruct (checkRateLimit no_faults userId (fst call101) (snd call101) w1) as [r101 w2].
  cbn [fst snd] in Hr101, Hkv.
  (* the call after the window *)
  pose proof (checkRateLimit_spec userId (fst later) (snd later) w2) as Hspec.
  cbv zeta in Hspec.
  assert (Hrem' : remaining_requests userId (fst later) w2 = []).
  { unfold remaining_requests, stored_requests. rewrite Hkv.
    fold (stored_requests userId w1). rewrite Hstored. apply filter_drop_all.
    apply List.Forall_forall. intros t Ht.
    apply in_map_iff in Ht as (c & <- & Hc).
    rewrite List.Forall_forall in Hlater. specialize (Hlater c Hc).
    apply Z.ltb_ge. lia. }
  rewrite Hrem' in Hspec. change (maxRequests <=? Z.of_nat (length [])) with false in Hspec.
  destruct Hspec as [Hrlater _].
  destruct (checkRateLimit no_faults userId (fst later) (snd later) w2) as [rlater w3].
  cbn [fst] in Hrlater.
  repeat split; try assumption.
  - now rewrite Hreslen.
  - eexists. split; [exact Hr101|].
    assert (Hne : List.map fst calls <> []).
    { destruct calls; [discriminate|discriminate]. }
    destruct (Math_min_spec _ Hne) as [Hin _].
    apply in_map_iff in Hin as (c & Hc & Hin).
    rewrite List.Forall_forall in Hcalls. specialize (Hcalls c Hin).
    pose proof (ceil_div_spec (Math_min (List.map fst calls) + windowMs - fst call101)
                  1000 ltac:(lia)) as Hceil.
    lia.
Qed.

Lemma Forall_forallb {A} (P : A -> Prop) (f : A -> bool) l :
  (forall x, f x = true -> P x) -> forallb f l = true -> Forall P l.
Proof.
  intros Hf H. rewrite forallb_forall in H.
  apply List.Forall_forall. intros x Hx. apply Hf, H, Hx.
Qed.

Lemma window_admits_100_then_denies_witness :
  maxRequests = 100 /\ windowMs = 3600000 /\
  let '(results, w1) :=
    checkRateLimit_calls no_faults (str "anon_1_ab") (calls_every_second 100) empty_world in
  let '(r101, w2) := checkRateLimit no_faults (str "anon_1_ab") 150000 150000 w1 in
  let '(rlater, _) := checkRateLimit no_faults (str "anon_1_ab") 3700000 3700000 w2 in
  Forall (fun r => r = Ok allow) results /\ length results = 100%nat /\
  (exists seconds, r101 = Ok (deny seconds) /\ 0 < seconds) /\
  rlater = Ok allow.
Proof.
  apply (window_admits_100_then_denies (str "anon_1_ab") empty_world
           (calls_every_second 100) (150000, 150000) (3700000, 3700000) 0).
  - reflexivity.
  - reflexivity.
  - apply (Forall_forallb _ (fun c => (0 <=? fst c) && (fst c <? 0 + windowMs))).
    + intros c Hc. apply andb_true_iff in Hc as [H1 H2].
      apply Z.leb_le in H1. apply Z.ltb_lt in H2. lia.
    + vm_compute. reflexivity.
  - apply (Forall_forallb _ (fun c => windowMs <=? 3700000 - fst c)).
    + intros c Hc. apply Z.leb_le in Hc. exact Hc.
    + vm_compute. reflexivity.
Defined.

(** ** Usage tracker *)

Lemma updateUserStats_spec userId now w :
  updateUserStats no_faults userId now w
  = (Ok tt,
     {| RATE_LIMIT_KV := RATE_LIMIT_KV w;
        USER_STATS_KV :=
          <[stats_key userId := record_request (prior_stats userId now w) now]>
            (USER_STATS_KV w);
        trace := trace w
                 ++ [KvEvent (UserStatsGet (stats_key userId)) false]
                 ++ [KvEvent (UserStatsPut (stats_key userId)
                                (record_request (prior_stats userId now w) now)) false] |}).
Proof.
  unfold updateUserStats, tryM, bindM, user_stats_get, user_stats_put,
    no_faults, prior_stats, stats_or_new, log.
  cbn [RATE_LIMIT_KV USER_STATS_KV trace]. rewrite <- app_assoc. reflexivity.
Qed.

(** The day of [now] is never behind the horizon of [now]. *)
Lemma today_retained now : ~ (dateValue (toISODate now) < now - RETENTION_MS).
Proof.
  unfold dateValue, toISODate, RETENTION_MS, DAY_MS.
  pose proof (Z.div_mod now (24 * 60 * 60 * 1000) ltac:(lia)).
  pose proof (Z.mod_pos_bound now (24 * 60 * 60 * 1000) ltac:(lia)). lia.
Qed.

Lemma record_request_spec stats now :
  let stats' := record_request stats now in
  let today := toISODate now in
  totalRequests stats' = totalRequests stats + 1 /\
  lastRequestAt stats' = Some now /\
  dailyRequests stats' !! today
    = Some (default 0 (dailyRequests stats !! today) + 1) /\
  (forall date, dateValue date < now - RETENTION_MS ->
     dailyRequests stats' !! date = None) /\
  (forall date, date <> today -> ~ (dateValue date < now - RETENTION_MS) ->
     dailyRequests stats' !! date = dailyRequests stats !! date).
Proof.
  cbv zeta. unfold record_request. cbn [totalRequests lastRequestAt dailyRequests].
  split; [reflexivity|]. split; [reflexivity|]. split; [|split].
  - apply map_lookup_filter_Some_2; [apply lookup_insert_eq|].
    cbn [fst]. apply today_retained.
  - intros date Hold. apply map_lookup_filter_None_2.
    right. intros x _ Hkeep. cbn [fst] in Hkeep. contradiction.
  - intros date Hne Hkeep. rewrite map_lookup_filter.
    rewrite lookup_insert_ne by congruence.
    destruct (dailyRequests stats !! date) as [x|]; [|reflexivity].
    cbn. now rewrite option_guard_True.
Qed.

Lemma requests_on_app date times t :
  requests_on date (times ++ [t])
  = requests_on date times + (if toISODate t =? date then 1 else 0).
Proof.
  unfold requests_on. rewrite List.filter_app, length_app. cbn [List.filter].
  destruct (toISODate t =? date); cbn [length]; lia.
Qed.

Lemma requests_on_nonneg date times : 0 <= requests_on date times.
Proof. unfold requests_on. lia. Qed.

Lemma requests_on_pos date times :
  requests_on date times <> 0 -> exists t, In t times /\ toISODate t = date.
Proof.
  unfold requests_on. intros H.
  destruct (List.filter (fun t => toISODate t =? date) times) as [|t l] eqn:E;
    [cbn in H; lia|].
  assert (Hin : In t (List.filter (fun t => toISODate t =? date) times))
    by (rewrite E; now left).
  apply filter_In in Hin as [Hin Hd]. exists t. split; [exact Hin|].
  now apply Z.eqb_eq.
Qed.

Lemma counts_step times o t :
  counts times o -> within_retention (times ++ [t]) ->
  counts (times ++ [t]) (Some (record_request (stats_or_new o t) t)).
Proof.
  intros [Htot Hdaily] Hret.
  assert (Hm : dailyRequests (stats_or_new o t) = daily_of o) by now destruct o.
  assert (Hn : totalRequests (stats_or_new o t) = total_of o) by now destruct o.
  split.
  - cbn [total_of record_request totalRequests]. rewrite Hn, Htot, length_app.
    cbn [length]. lia.
  - intros date. cbn [daily_of]. unfold record_request. cbn [dailyRequests].
    rewrite Hm. rewrite map_filter_id.
    + rewrite requests_on_app.
      pose proof (requests_on_nonneg date times) as Hnn.
      destruct (Z.eqb_spec (toISODate t) date) as [<-|Hne].
      * rewrite lookup_insert_eq, Hdaily.
        destruct (Z.eqb_spec (requests_on (toISODate t) times) 0) as [->|_];
          cbn [default];
          destruct (Z.eqb_spec (requests_on (toISODate t) times + 1) 0);
          try lia; reflexivity.
      * rewrite lookup_insert_ne by exact Hne. rewrite Hdaily, Z.add_0_r. reflexivity.
    + intros i x Hix. cbn [fst].
      destruct (Z.eq_dec (toISODate t) i) as [<-|Hne]; [apply today_retained|].
      rewrite lookup_insert_ne in Hix by exact Hne. rewrite Hdaily in Hix.
      destruct (Z.eqb_spec (requests_on i times) 0) as [|Hpos]; [discriminate|].
      destruct (requests_on_pos i times Hpos) as (t0 & Hin & <-).
      apply Hret; apply in_or_app; [left; exact Hin|right; now left].
Qed.

Lemma stats_after_update userId now w :
  USER_STATS_KV (snd (updateUserStats no_faults userId now w)) !! stats_key userId
  = Some (record_request (prior_stats userId now w) now).
Proof.
  rewrite updateUserStats_spec. cbn [snd USER_STATS_KV]. apply lookup_insert_eq.
Qed.

Lemma counts_after_calls userId todo :
  forall times w,
  counts times (USER_STATS_KV w !! stats_key userId) ->
  within_retention (times ++ todo) ->
  counts (times ++ todo)
    (USER_STATS_KV (updateUserStats_calls no_faults userId todo w) !! stats_key userId).
Proof.
  induction todo as [|t todo IH]; intros times w Hc Hret; cbn [updateUserStats_calls].
  - now rewrite app_nil_r.
  - change (times ++ t :: todo) with (times ++ [t] ++ todo) in *.
    rewrite app_assoc in *. apply IH; [|exact Hret].
    rewrite stats_after_update. apply counts_step; [exact Hc|].
    intros a b Ha Hb. apply Hret; apply in_or_app; now left.
Qed.

Lemma total_after_calls userId todo :
  forall w,
  total_of (USER_STATS_KV (updateUserStats_calls no_faults userId todo w) !! stats_key userId)
  = total_of (USER_STATS_KV w !! stats_key userId) + Z.of_nat (length todo).
Proof.
  induction todo as [|t todo IH]; intros w; cbn [updateUserStats_calls length].
  - lia.
  - rewrite IH, stats_after_update. cbn [total_of record_request totalRequests].
    unfold prior_stats.
    destruct (USER_STATS_KV w !! stats_key userId); cbn [stats_or_new total_of totalRequests]; lia.
Qed.

Lemma requests_on_two_dates d1 d2 times :
  d1 <> d2 ->
  Forall (fun t => toISODate t = d1 \/ toISODate t = d2) times ->
  requests_on d1 times + requests_on d2 times = Z.of_nat (length times).
Proof.
  intros Hne. unfold requests_on.
  induction 1 as [|t times Ht _ IH]; cbn [List.filter length]; [reflexivity|].
  destruct (Z.eqb_spec (toISODate t) d1), (Z.eqb_spec (toISODate t) d2);
    cbn [length]; lia.
Qed.

Lemma requests_on_other date times (Q : Z -> Prop) :
  Forall (fun t => Q (toISODate t)) times -> ~ Q date -> requests_on date times = 0.
Proof.
  intros H Hd. unfold requests_on.
  induction H as [|t times Ht _ IH]; cbn [List.filter]; [reflexivity|].
  destruct (Z.eqb_spec (toISODate t) date) as [E|_]; [|exact IH].
  rewrite E in Ht. contradiction.
Qed.

Lemma requests_on_some date times :
  (exists t, In t times /\ toISODate t = date) -> 0 < requests_on date times.
Proof.
  intros (t & Hin & Hd). unfold requests_on.
  assert (H : In t (List.filter (fun t => toISODate t =? date) times)).
  { apply filter_In. split; [exact Hin|]. now apply Z.eqb_eq. }
  destruct (List.filter _ times); [destruct H|cbn [length]; lia].
Qed.

Lemma two_entries (d1 d2 c1 c2 : Z) :
  d1 <> d2 ->
  size (<[d1 := c1]> ({[d2 := c2]} : gmap Z Z)) = 2%nat /\
  daily_total (<[d1 := c1]> {[d2 := c2]}) = c1 + c2.
Proof.
  intros Hne. split.
  - rewrite map_size_insert_None by (now apply lookup_singleton_ne).
    now rewrite map_size_singleton.
  - unfold daily_total. rewrite map_fold_insert_L.
    + rewrite map_fold_singleton. lia.
    + intros. lia.
    + now apply lookup_singleton_ne.
Qed.

Lemma empty_record_counts o : empty_record o -> counts [] o.
Proof.
  intros H. split.
  - destruct o as [stats|]; [apply H|reflexivity].
  - intros date. cbn. destruct o as [stats|]; cbn [daily_of]; [|apply lookup_empty].
    destruct H as [_ ->]. apply lookup_empty.
Qed.

(** ** C8: one usage update, and N updates over two dates *)

(** C8 (amended).  For every identity, prior usage record or none, and
    time [now]: one usage update adds exactly 1 to [totalRequests], sets
    [lastRequestAt] to [now], adds exactly 1 to the daily counter of the
    calendar date of [now], and leaves no [dailyRequests] key for a date
    older than [now - 30 days].  Consequently, after N updates spread over
    two distinct calendar dates starting from an empty record,
    [totalRequests] is N; and if neither date is behind the 30-day horizon
    of any of the updates, [dailyRequests] has exactly two entries, which
    sum to N. *)
Theorem usage_update_counts (userId : list N) (w : World) :
  (forall now,
     let before := prior_stats userId now w in
     let r := updateUserStats no_faults userId now w in
     exists after,
       fst r = Ok tt /\
       USER_STATS_KV (snd r) !! stats_key userId = Some after /\
       totalRequests after = totalRequests before + 1 /\
       lastRequestAt after = Some now /\
       dailyRequests after !! toISODate now
         = Some (default 0 (dailyRequests before !! toISODate now) + 1) /\
       forall date, dateValue date < now - RETENTION_MS ->
         dailyRequests after !! date = None) /\
  (forall times d1 d2,
     empty_record (USER_STATS_KV w !! stats_key userId) ->
     d1 <> d2 ->
     Forall (fun t => toISODate t = d1 \/ toISODate t = d2) times ->
     (exists t, In t times /\ toISODate t = d1) ->
     (exists t, In t times /\ toISODate t = d2) ->
     exists after,
       USER_STATS_KV (updateUserStats_calls no_faults userId times w)
         !! stats_key userId = Some after /\
       totalRequests after = Z.of_nat (length times) /\
       (within_retention times ->
        size (dailyRequests after) = 2%nat /\
        daily_total (dailyRequests after) = Z.of_nat (length times))).
Proof.
  split.
  - intros now. cbv zeta.
    destruct (record_request_spec (prior_stats userId now w) now)
      as (H1 & H2 & H3 & H4 & _).
    exists (record_request (prior_stats userId now w) now).
    rewrite stats_after_update. rewrite updateUserStats_spec. cbn [fst].
    repeat split; assumption.
  - intros times d1 d2 Hempty Hne Hdates [t1 [Hin1 Hd1]] Hex2.
    pose proof (total_after_calls userId times w) as Htot.
    assert (H0 : total_of (USER_STATS_KV w !! stats_key userId) = 0).
    { destruct (USER_STATS_KV w !! stats_key userId); [apply Hempty|reflexivity]. }
    rewrite H0 in Htot.
    destruct (USER_STATS_KV (updateUserStats_calls no_faults userId times w)
                !! stats_key userId) as [after|] eqn:Hafter.
    2: { cbn [total_of] in Htot. destruct times; [destruct Hin1|cbn [length] in Htot; lia]. }
    exists after. cbn [total_of] in Htot. split; [reflexivity|]. split; [lia|].
    intros Hret.
    pose proof (counts_after_calls userId times [] w (empty_record_counts _ Hempty) Hret)
      as [_ Hdaily].
    cbn [app] in Hdaily. rewrite Hafter in Hdaily. cbn [daily_of] in Hdaily.
    pose proof (requests_on_some d1 times (ex_intro _ t1 (conj Hin1 Hd1))) as Hc1.
    pose proof (requests_on_some d2 times Hex2) as Hc2.
    assert (Hmap : dailyRequests after
                   = <[d1 := requests_on d1 times]> {[d2 := requests_on d2 times]}).
    { apply map_eq. intros date. rewrite Hdaily.
      destruct (Z.eq_dec date d1) as [->|Hn1].
      - rewrite lookup_insert_eq.
        destruct (Z.eqb_spec (requests_on d1 times) 0); [lia|reflexivity].
      - rewrite lookup_insert_ne by congruence.
        destruct (Z.eq_dec date d2) as [->|Hn2].
        + rewrite lookup_singleton_eq.
          destruct (Z.eqb_spec (requests_on d2 times) 0); [lia|reflexivity].
        + rewrite lookup_singleton_ne by congruence.
          rewrite (requests_on_other date times (fun d => d = d1 \/ d = d2));
            [reflexivity|exact Hdates|tauto]. }
    rewrite Hmap.
    destruct (two_entries d1 d2 (requests_on d1 times) (requests_on d2 times) Hne)
      as [Hsize Hsum].
    split; [exact Hsize|]. rewrite Hsum. now apply requests_on_two_dates.
Qed.

Lemma within_retention_forallb times :
  forallb (fun t => forallb (fun t' =>
     negb (dateValue (toISODate t) <? t' - RETENTION_MS)) times) times = true ->
  within_retention times.
Proof.
  intros H t t' Ht Ht'. rewrite forallb_forall in H. specialize (H t Ht).
  rewrite forallb_forall in H. specialize (H t' Ht').
  apply negb_true_iff, Z.ltb_ge in H. lia.
Qed.

(** Two requests on 2024-01-01 and one on 2024-01-02. *)
Lemma usage_update_counts_witness :
  let times := [1704103200000; 1704110400000; 1704186000000] in
  exists after,
    USER_STATS_KV (updateUserStats_calls no_faults (str "anon_1_ab") times empty_world)
      !! stats_key (str "anon_1_ab") = Some after /\
    totalRequests after = 3 /\
    size (dailyRequests after) = 2%nat /\
    daily_total (dailyRequests after) = 3.
Proof.
  cbv zeta.
  destruct (proj2 (usage_update_counts (str "anon_1_ab") empty_world)
              [1704103200000; 1704110400000; 1704186000000] 19723 19724)
    as (after & Hafter & Htotal & Hdaily).
  - exact I.
  - discriminate.
  - apply (Forall_forallb _ (fun t => (toISODate t =? 19723) || (toISODate t =? 19724))).
    + intros t Ht. apply orb_true_iff in Ht as [Ht|Ht]; apply Z.eqb_eq in Ht; auto.
    + vm_compute. reflexivity.
  - exists 1704103200000. split; [now left|reflexivity].
  - exists 1704186000000. split; [right; right; now left|reflexivity].
  - exists after. split; [exact Hafter|]. split; [exact Htotal|].
    apply Hdaily. apply within_retention_forallb. vm_compute. reflexivity.
Defined.

(** C8 as stated fails when the two dates are more than 30 days apart:
    one request on 2024-01-01 and one on 2024-03-01 leave a single daily
    entry, the older one having been pruned by the second update. *)
Lemma usage_two_dates_beyond_retention :
  let times := [1704103200000; 1709287200000] in
  toISODate 1704103200000 <> toISODate 1709287200000 /\
  exists after,
    USER_STATS_KV (updateUserStats_calls no_faults (str "anon_1_ab") times empty_world)
      !! stats_key (str "anon_1_ab") = Some after /\
    totalRequests after = 2 /\
    size (dailyRequests after) = 1%nat /\
    daily_total (dailyRequests after) = 1.
Proof.
  cbv zeta. split; [discriminate|].
  eexists. split; [vm_compute; reflexivity|].
  split; [reflexivity|]. split; vm_compute; reflexivity.
Qed.

(** ** Token shape *)

Lemma jsstring_eqb_eq a b : jsstring_eqb a b = true <-> a = b.
Proof.
  revert b. induction a as [|x a IH]; intros [|y b]; cbn [jsstring_eqb];
    try (split; [discriminate|congruence]); [tauto|].
  rewrite andb_true_iff, IH, N.eqb_eq. split; [intros [-> ->]|intros [= -> ->]]; auto.
Qed.

Lemma format_guard token :
  let segments := split DOT token in
  not_string (nth 0 segments []) || not_string (nth 1 segments [])
    || not_string (nth 2 segments []) = false
  <-> three_segments token.
Proof.
  cbv zeta. unfold three_segments.
  destruct (split DOT token) as [|h [|p [|s rest]]]; cbn [nth not_string].
  - split; [discriminate|]. intros (? & ? & ? & ? & [=] & _).
  - split; [|intros (? & ? & ? & ? & [=] & _)].
    destruct h; discriminate.
  - split; [|intros (? & ? & ? & ? & [=] & _)].
    destruct h, p; discriminate.
  - split.
    + intros H. exists h, p, s, rest.
      destruct h, p, s; try discriminate. repeat split; discriminate.
    + intros (h' & p' & s' & rest' & [= <- <- <- <-] & Hh & Hp & Hs).
      destruct h, p, s; first [reflexivity|congruence].
Qed.

(** ** What the coercions throw *)

(** Induction on parsed values, through the elements of arrays and the
    members of objects. *)
Lemma json_induction (Q : json -> Prop) :
  Q JNull ->
  (forall b, Q (JBool b)) ->
  (forall n, Q (JNum n)) ->
  (forall m e, Q (JReal m e)) ->
  (forall s, Q (JStr s)) ->
  (forall l, List.Forall Q l -> Q (JArr l)) ->
  (forall l, List.Forall (fun member => Q (snd member)) l -> Q (JObj l)) ->
  forall v, Q v.
Proof.
  intros Q_null Q_bool Q_num Q_real Q_str Q_arr Q_obj.
  exact (fix go (v : json) : Q v :=
    match v with
    | JNull => Q_null
    | JBool b => Q_bool b
    | JNum n => Q_num n
    | JReal m e => Q_real m e
    | JStr s => Q_str s
    | JArr l =>
        Q_arr l
          ((fix elements (l : list json) : List.Forall Q l :=
              match l with
              | [] => @List.Forall_nil json Q
              | x :: l' => @List.Forall_cons json Q x l' (go x) (elements l')
              end) l)
    | JObj l =>
        Q_obj l
          ((fix members (l : list (list N * json))
              : List.Forall (fun member => Q (snd member)) l :=
              match l with
              | [] => @List.Forall_nil _ (fun member => Q (snd member))
              | member :: l' =>
                  @List.Forall_cons _ (fun member => Q (snd member)) member l'
                    (go (snd member)) (members l')
              end) l)
    end).
Qed.

Lemma ToString_throws v e : ToString v = Throw e -> e = Err_Type.
Proof.
  revert e. induction v as [|b|n|m x|s|l IH|l _] using json_induction; intros e;
    cbn [ToString]; try discriminate.
  - destruct b; discriminate.
  - induction IH as [|x l Hx _ IHl]; [discriminate|].
    assert (Hfirst : forall e', match x with JNull => Ok [] | _ => ToString x end = Throw e' ->
                                e' = Err_Type).
    { intros e' H. destruct x; try discriminate; now apply Hx. }
    destruct l as [|y l']; [apply Hfirst|].
    intros H.
    destruct (match x with JNull => Ok [] | _ => ToString x end) as [first|e1] eqn:E1.
    + cbn [bindO] in H.
      match type of H with
      | bindO ?j _ = _ => destruct j as [others|e2] eqn:E2
      end; [discriminate|].
      cbn [bindO] in H. injection H as <-. now apply IHl.
    + cbn [bindO] in H. injection H as <-. now apply Hfirst.
  - destruct (existsb _ l); [intros [= <-]; reflexivity|discriminate].
Qed.

Lemma less_than_seconds_throws v now e :
  less_than_seconds v now = Throw e -> e = Err_Type.
Proof.
  unfold less_than_seconds.
  destruct v; cbn [bindO]; try discriminate;
    (destruct (ToString _) as [text|e'] eqn:E; cbn [bindO]; [discriminate|];
     intros [= <-]; now apply ToString_throws in E).
Qed.

Lemma expired_throws exp now e : expired exp now = Throw e -> e = Err_Type.
Proof.
  unfold expired. destruct (truthy exp); [|discriminate].
  destruct exp as [v|]; [|discriminate].
  destruct v; try discriminate; apply less_than_seconds_throws.
Qed.

Section VerifyProperties.

Variable P : Platform.

Lemma verifyJWT_format_error token secret now :
  verifyJWT P token secret now
    = Throw (Err_TokenVerificationFailed Err_InvalidTokenFormat)
  <-> ~ three_segments token.
Proof.
  rewrite <- format_guard. cbv zeta. unfold verifyJWT.
  destruct (not_string (nth 0 (split DOT token) [])
            || not_string (nth 1 (split DOT token) [])
            || not_string (nth 2 (split DOT token) [])) eqn:G.
  - split; [intros _; discriminate|reflexivity].
  - split; [|congruence]. intros H. exfalso.
    destruct (hmac_key_ok P secret); [|discriminate].
    destruct (atob (nth 2 (split DOT token) [])); [|discriminate].
    cbn [of_option bindO] in H.
    destruct (negb (bytes_eqb _ _)); [discriminate|].
    destruct (atob (nth 1 (split DOT token) [])); [|discriminate].
    cbn [of_option bindO] in H.
    destruct (JSON_parse _) as [payload|]; [|discriminate].
    cbn [of_option bindO] in H.
    destruct (get_prop payload (str "exp")) as [exp|e] eqn:E.
    + cbn [bindO] in H.
      destruct (expired exp now) as [[|]|e'] eqn:Ee; try discriminate.
      cbn [bindO try_catch] in H. injection H as ->.
      apply expired_throws in Ee. discriminate.
    + destruct payload; cbn in E; try discriminate. injection E as <-. discriminate.
Qed.

(** Segments after the third are not looked at. *)
Lemma verifyJWT_extra_segment token secret now suffix :
  three_segments token ->
  verifyJWT P (token ++ DOT :: suffix) secret now = verifyJWT P token secret now.
Proof.
  intros (h & p & s & rest & Hsplit & _).
  unfold verifyJWT. rewrite split_app, Hsplit. reflexivity.
Qed.

End VerifyProperties.

(** ** C4: the malformed-token error *)

(** C4 (amended).  [verifyJWT] fails with the invalid-format error if and
    only if the token, split on [.], has fewer than three segments or an
    empty one among its first three.  Segments after the third are
    ignored: a token that verifies still verifies, with the same payload,
    when [.suffix] is appended to it. *)
Theorem malformed_token_iff (P : Platform) (token secret : list N) (now : Z) :
  (verifyJWT P token secret now
     = Throw (Err_TokenVerificationFailed Err_InvalidTokenFormat)
   <-> ~ exists h p s rest,
         split DOT token = h :: p :: s :: rest /\ h <> [] /\ p <> [] /\ s <> []) /\
  (forall suffix payload,
     verifyJWT P token secret now = Ok payload ->
     verifyJWT P (token ++ DOT :: suffix) secret now = Ok payload).
Proof.
  split; [apply verifyJWT_format_error|].
  intros suffix payload Hok.
  rewrite verifyJWT_extra_segment; [exact Hok|].
  destruct (format_guard token) as [Hguard _]. apply Hguard. cbv zeta.
  destruct (not_string (nth 0 (split DOT token) [])
            || not_string (nth 1 (split DOT token) [])
            || not_string (nth 2 (split DOT token) [])) eqn:G; [|reflexivity].
  unfold verifyJWT in Hok. rewrite G in Hok. discriminate.
Qed.

(** C4 as stated fails on a token with four segments: a signed token with
    [.suffix] appended verifies. *)
Lemma extra_segment_token_verifies :
  exists token payload,
    signJWT WebCrypto.platform
      (payload_object (str "anon_1_ab") 1700000000 1702592000 anonymous)
      (str "secret") = Ok token /\
    length (split DOT (token ++ DOT :: str "suffix")) = 4%nat /\
    verifyJWT WebCrypto.platform (token ++ DOT :: str "suffix") (str "secret")
      1700000005000 = Ok payload.
Proof.
  eexists _, _. split; [vm_compute; reflexivity|].
  split.
  - vm_compute. reflexivity.
  - vm_compute. reflexivity.
Qed.

(** ** C9: a token without expiry *)

(** C9.  For every token whose first three segments are not empty, whose
    signature segment decodes to the MAC of [header.payload] under the
    secret, and whose payload segment decodes to a JSON value with [type]
    equal to ['anonymous'] and with [exp] absent, 0 or otherwise falsy:
    [verifyAnonymousToken] returns the payload at every time [now]; the
    expiry check is skipped. *)
Theorem token_without_exp_never_expires
    (P : Platform) (token secret : list N) (now : Z)
    (h p s : list N) (rest : list (list N)) (signature_text payload_text : list N)
    (payload : json) (exp : option json) :
  split DOT token = h :: p :: s :: rest ->
  h <> [] -> p <> [] -> s <> [] ->
  hmac_key_ok P secret = true ->
  atob s = Some signature_text ->
  Uint8Array_from signature_text = hmac P secret (h ++ DOT :: p) ->
  atob p = Some payload_text ->
  JSON_parse payload_text = Some payload ->
  get_prop payload (str "type") = Ok (Some (JStr anonymous)) ->
  get_prop payload (str "exp") = Ok exp ->
  truthy exp = false ->
  verifyAnonymousToken P token secret now = Ok payload.
Proof.
  intros Hsplit Hh Hp Hs Hkey Hsig Hmac Hptext Hparse Htype Hexp Hfalsy.
  unfold verifyAnonymousToken, verifyJWT. rewrite Hsplit. cbn [nth].
  destruct h; [congruence|]. destruct p; [congruence|]. destruct s; [congruence|].
  cbn [not_string orb]. rewrite Hkey, Hsig. cbn [of_option bindO].
  rewrite Hmac, (proj2 (bytes_eqb_eq _ _) eq_refl). cbn [negb].
  rewrite Hptext. cbn [of_option bindO]. rewrite Hparse. cbn [of_option bindO].
  rewrite Hexp. cbn [bindO]. unfold expired. rewrite Hfalsy. cbn [andb try_catch bindO].
  rewrite Htype. reflexivity.
Qed.

Lemma token_without_exp_never_expires_witness :
  JSON_parse payload_text_with_fraction = Some payload_with_fraction /\
  verifyAnonymousToken WebCrypto.platform token_with_fraction (str "secret")
    99999999999999999 = Ok payload_with_fraction.
Proof.
  split; [vm_compute; reflexivity|].
  apply (token_without_exp_never_expires WebCrypto.platform token_with_fraction
           (str "secret") 99999999999999999
           (btoa_bytes (JSON_stringify jwt_header))
           (btoa_bytes payload_text_with_fraction)
           (btoa_bytes (fromCharCode
              (WebCrypto.sign (str "secret")
                 (btoa_bytes (JSON_stringify jwt_header) ++ DOT ::
                  btoa_bytes payload_text_with_fraction))))
           []
           (fromCharCode
              (WebCrypto.sign (str "secret")
                 (btoa_bytes (JSON_stringify jwt_header) ++ DOT ::
                  btoa_bytes payload_text_with_fraction)))
           payload_text_with_fraction
           payload_with_fraction (Some (JNum 0))).
  - vm_compute. reflexivity.
  - discriminate.
  - discriminate.
  - vm_compute. discriminate.
  - reflexivity.
  - vm_compute. reflexivity.
  - vm_compute. reflexivity.
  - vm_compute. reflexivity.
  - vm_compute. reflexivity.
  - reflexivity.
  - reflexivity.
  - reflexivity.
Defined.

(** ** Routing *)

Lemma startsWith_app p s : startsWith p (p ++ s) = true.
Proof.
  induction p as [|c p IH]; cbn [app startsWith]; [reflexivity|].
  now rewrite N.eqb_refl, IH.
Qed.

Lemma jsstring_eqb_refl a : jsstring_eqb a a = true.
Proof. now apply jsstring_eqb_eq. Qed.

Lemma jsstring_eqb_neq a b : a <> b -> jsstring_eqb a b = false.
Proof.
  intros H. destruct (jsstring_eqb a b) eqn:E; [|reflexivity].
  apply jsstring_eqb_eq in E. contradiction.
Qed.

(** ** C6: methods on /api/token *)

(** C6 (amended).  For every request to the [/api/token] path whose
    method is neither POST nor OPTIONS, the worker responds with status
    405; an OPTIONS request is answered as a CORS preflight, with status
    200.  In both cases nothing else is done. *)
Theorem token_path_other_methods
    (P : Platform) (rt : Runtime) (request : Request) (env : Env) (w : World) :
  pathname request = str "/api/token" ->
  method request <> str "POST" ->
  exists response,
    fetch P rt request env w = (Ok response, w) /\
    (method request = str "OPTIONS" -> status response = 200) /\
    (method request <> str "OPTIONS" -> status response = 405).
Proof.
  intros Hpath Hmethod. unfold fetch.
  destruct (jsstring_eqb (method request) (str "OPTIONS")) eqn:Hopt.
  - apply jsstring_eqb_eq in Hopt. eexists. split; [reflexivity|].
    split; [reflexivity|]. intros H. contradiction.
  - rewrite Hpath. change (jsstring_eqb (str "/api/token") (str "/api/external-service"))
      with false. cbv iota. rewrite jsstring_eqb_refl.
    unfold handleTokenRequest. rewrite (jsstring_eqb_neq _ _ Hmethod). cbn [negb].
    eexists. split; [reflexivity|]. split; [|reflexivity].
    intros H. rewrite H in Hopt. discriminate.
Qed.

Lemma token_path_other_methods_witness :
  let request := {| method := str "GET"; pathname := str "/api/token";
                    authorization := None; json_body := None |} in
  exists response,
    fetch WebCrypto.platform quiet_runtime request test_env empty_world
      = (Ok response, empty_world) /\
    (method request = str "OPTIONS" -> status response = 200) /\
    (method request <> str "OPTIONS" -> status response = 405).
Proof.
  cbv zeta.
  apply (token_path_other_methods WebCrypto.platform quiet_runtime
           {| method := str "GET"; pathname := str "/api/token";
              authorization := None; json_body := None |} test_env empty_world).
  - reflexivity.
  - discriminate.
Defined.

(** C6 as stated fails for OPTIONS: the preflight branch of [fetch]
    answers 200 before the path is looked at. *)
Lemma token_path_options_is_200 :
  let request := {| method := str "OPTIONS"; pathname := str "/api/token";
                    authorization := None; json_body := None |} in
  method request <> str "POST" /\
  exists response,
    fetch WebCrypto.platform quiet_runtime request test_env empty_world
      = (Ok response, empty_world) /\
    status response = 200 /\ status response <> 405.
Proof.
  cbv zeta. split; [discriminate|].
  eexists. split; [reflexivity|]. split; [reflexivity|discriminate].
Qed.

(** ** C5: a bearer token of bad shape *)

(** C5 (amended).  For every request to POST [/api/external-service]
    whose bearer token does not have three non-empty first segments, the
    service responds with status 401 and the error of a failed
    authentication, and touches neither KV namespace nor the downstream
    service; no token is answered with 400. *)
Theorem malformed_bearer_token_is_401
    (P : Platform) (rt : Runtime) (request : Request) (env : Env) (w : World)
    (token : list N) :
  method request = str "POST" ->
  pathname request = str "/api/external-service" ->
  authorization request = Some (str "Bearer " ++ token) ->
  ~ (exists h p s rest,
       split DOT token = h :: p :: s :: rest /\ h <> [] /\ p <> [] /\ s <> []) ->
  fetch P rt request env w
  = (Ok (json_response 401 (ErrorBody (str "Invalid or expired token"))), w).
Proof.
  intros Hmethod Hpath Hauth Hshape. unfold fetch.
  rewrite Hmethod, Hpath.
  change (jsstring_eqb (str "POST") (str "OPTIONS")) with false. cbv iota.
  rewrite jsstring_eqb_refl.
  unfold handleExternalApiRequest, authenticateUser.
  rewrite Hmethod, jsstring_eqb_refl, Hauth. cbn [negb].
  rewrite startsWith_app. cbn [negb orb].
  change (not_string (str "Bearer " ++ token)) with false. cbv iota.
  change (substring 7 (str "Bearer " ++ token)) with token.
  unfold verifyAnonymousToken.
  rewrite (proj2 (verifyJWT_format_error P token (env_as_secret env) (now_verifyJWT rt)) Hshape).
  reflexivity.
Qed.

Lemma malformed_bearer_token_is_401_witness :
  let request := {| method := str "POST"; pathname := str "/api/external-service";
                    authorization := Some (str "Bearer " ++ str "abc.def");
                    json_body := Some (JObj []) |} in
  fetch WebCrypto.platform quiet_runtime request test_env empty_world
  = (Ok (json_response 401 (ErrorBody (str "Invalid or expired token"))), empty_world).
Proof.
  cbv zeta.
  apply (malformed_bearer_token_is_401 WebCrypto.platform quiet_runtime
           {| method := str "POST"; pathname := str "/api/external-service";
              authorization := Some (str "Bearer " ++ str "abc.def");
              json_body := Some (JObj []) |} test_env empty_world (str "abc.def")).
  - reflexivity.
  - reflexivity.
  - reflexivity.
  - intros (h & p & s & rest & Hsplit & _). vm_compute in Hsplit. discriminate.
Defined.

(** C5 as stated fails: a token of bad shape is answered with 401, not
    400. *)
Lemma malformed_bearer_token_not_400 :
  let request := {| method := str "POST"; pathname := str "/api/external-service";
                    authorization := Some (str "Bearer abc");
                    json_body := Some (JObj []) |} in
  split DOT (str "abc") = [str "abc"] /\
  exists response,
    fetch WebCrypto.platform quiet_runtime request test_env empty_world
      = (Ok response, empty_world) /\
    status response = 401 /\ status response <> 400.
Proof.
  cbv zeta. split; [reflexivity|].
  eexists. split; [vm_compute; reflexivity|]. split; [reflexivity|discriminate].
Qed.

(** ** C10: the quota of a request with a valid credential *)

Lemma checkRateLimit_admit userId now now_stats w :
  Z.of_nat (length (remaining_requests userId now w)) < maxRequests ->
  checkRateLimit no_faults userId now now_stats w
  = (Ok allow, admitted_world userId now now_stats w).
Proof.
  intros Hroom. unfold admitted_world. cbv zeta.
  unfold remaining_requests, stored_requests in *.
  unfold checkRateLimit, tryM, bindM, rate_limit_get, no_faults.
  cbn [RATE_LIMIT_KV log]. unfold default in *.
  set (requests := List.filter _ _) in *.
  destruct (Z.leb_spec maxRequests (Z.of_nat (length requests))) as [Hfull|_]; [lia|].
  unfold rate_limit_put, updateUserStats, tryM, bindM, user_stats_get,
    user_stats_put, ret, prior_stats, stats_or_new, log.
  cbn [RATE_LIMIT_KV USER_STATS_KV trace]. rewrite <- !app_assoc. reflexivity.
Qed.

(** C10 (code bug).  The claim is about a request that carries a valid
    credential.  A credential the service itself issues is signed under
    [env.JWT_SECRET] by [generateAnonymousToken], while [authenticateUser]
    hands the whole [env] object to [verifyAnonymousToken] where the
    secret is expected.  Here a token is issued by a POST to [/api/token]
    and sent at once, with a free window and a body that is not JSON, to
    [/api/external-service]: the answer is 401, not 400, and neither the
    rate-limit record nor the usage record is touched. *)
Theorem issued_credential_consumes_no_quota :
  let issue :=
    fetch WebCrypto.platform quiet_runtime
      {| method := str "POST"; pathname := str "/api/token";
         authorization := None; json_body := None |}
      test_env empty_world in
  exists token userId expiresAt,
    fst issue
    = Ok (json_response 200 (TokenBody token userId expiresAt 100 3600000)) /\
    remaining_requests userId (now_checkRateLimit quiet_runtime) (snd issue) = [] /\
    fetch WebCrypto.platform quiet_runtime
      {| method := str "POST"; pathname := str "/api/external-service";
         authorization := Some (str "Bearer " ++ token);
         json_body := None |}
      test_env (snd issue)
    = (Ok (json_response 401 (ErrorBody (str "Invalid or expired token"))), snd issue).
Proof.
  cbv zeta. eexists _, _, _. split.
  - vm_compute. reflexivity.
  - split.
    + vm_compute. reflexivity.
    + vm_compute. reflexivity.
Qed.

(** A token issued by [handleTokenRequest] is signed under
    [env.JWT_SECRET]; [authenticateUser] checks it against the string of
    the [env] object, so the request is answered with 401. *)
Example issued_token_is_rejected :
  exists token,
    generateAnonymousToken WebCrypto.platform (str "anon_1_ab")
      (JWT_SECRET test_env) 1700000000001 = Ok token /\
    fst (fetch WebCrypto.platform quiet_runtime
           {| method := str "POST"; pathname := str "/api/external-service";
              authorization := Some (str "Bearer " ++ token);
              json_body := Some (JObj []) |}
           test_env empty_world)
    = Ok (json_response 401 (ErrorBody (str "Invalid or expired token"))).
Proof.
  eexists. split.
  - vm_compute. reflexivity.
  - vm_compute. reflexivity.
Qed.

Example utf8_encode_units :
  WebCrypto.utf8_encode [233; 8364; 55357; 56832; 56832]%N
  = [195; 169; 226; 130; 172; 240; 159; 152; 128; 239; 191; 189].
Proof. reflexivity. Qed.

Example generated_identity :
  generateAnonymousUserId 1700000000000 (repeat Byte.x2a 16)
  = str "anon_1700000000000_2a2a2a2a2a2a2a2a2a2a2a2a2a2a2a2a".
Proof. reflexivity. Qed.

Example sha256_constants :
  length WebCrypto.K256 = 64%nat /\
  nth 0 WebCrypto.K256 0 = 0x428a2f98 /\ nth 63 WebCrypto.K256 0 = 0xc67178f2 /\
  nth 0 WebCrypto.H256 0 = 0x6a09e667 /\ nth 7 WebCrypto.H256 0 = 0x5be0cd19.
Proof. repeat split. Qed.

(** ** Generated identities *)

Lemma hex_digit_latin1 d : (d < 16)%N -> (hex_digit d <= 255)%N.
Proof.
  intros Hd. unfold hex_digit. destruct (N.ltb_spec d 10); lia.
Qed.

(** Every generated identity is made of units below 0x100, so the round
    trip of the codec covers it. *)
Lemma generated_identity_latin1 now randomBytes :
  Forall (fun c => (c <= 255)%N) (generateAnonymousUserId now randomBytes).
Proof.
  unfold generateAnonymousUserId.
  apply Forall_app. split; [apply str_latin1|].
  apply Forall_app. split; [apply number_units_latin1|].
  apply Forall_app. split; [apply str_latin1|].
  induction randomBytes as [|b bs IH]; cbn [flat_map]; [apply List.Forall_nil|].
  pose proof (Byte.to_N_bounded b) as Hb.
  apply Forall_app. split; [|exact IH].
  repeat apply List.Forall_cons; try apply List.Forall_nil;
    apply hex_digit_latin1; dlia.
Qed.

(** The token [generateAnonymousToken] issues for a generated identity
    verifies under the same secret for 30 days. *)
Lemma issued_token_round_trip (P : Platform) secret now randomBytes now' :
  hmac_sha256_output P ->
  hmac_key_ok P secret = true ->
  now' < (now / 1000 + 30 * 24 * 60 * 60) * 1000 ->
  let id := generateAnonymousUserId now randomBytes in
  exists token payload,
    generateAnonymousToken P id secret now = Ok token /\
    verifyAnonymousToken P token secret now' = Ok payload /\
    get_prop payload (str "userId") = Ok (Some (JStr id)).
Proof.
  intros Hmac Hkey Hnow id. unfold generateAnonymousToken.
  destruct (signed_payload_verifies P id anonymous secret (now / 1000)
              (now / 1000 + 30 * 24 * 60 * 60) now')
    as (token & Hsign & Hverify); try assumption;
    [apply generated_identity_latin1|apply str_latin1|lia|].
  exists token, (payload_object id (now / 1000) (now / 1000 + 30 * 24 * 60 * 60) anonymous).
  split; [exact Hsign|]. split; [|reflexivity].
  unfold verifyAnonymousToken. rewrite Hverify. reflexivity.
Qed.

Example token_request_answered :
  exists token,
    fst (fetch WebCrypto.platform quiet_runtime
           {| method := str "POST"; pathname := str "/api/token";
              authorization := None; json_body := None |}
           test_env empty_world)
    = Ok (json_response 200
            (TokenBody token (str "anon_1700000000000_2a2a2a2a2a2a2a2a2a2a2a2a2a2a2a2a")
               1702592000003 100 3600000)).
Proof.
  eexists. vm_compute. reflexivity.
Qed.

Example unknown_path_is_404 :
  fst (fetch WebCrypto.platform quiet_runtime
         {| method := str "GET"; pathname := str "/";
            authorization := None; json_body := None |}
         test_env empty_world)
  = Ok {| status := 404; body := TextBody (str "Not Found"); retry_after_header := None |}.
Proof. reflexivity. Qed.

(** ** What verification accepts and rejects *)

Lemma format_decimal_nonempty digits n : digits <> [] -> format_decimal digits n <> [].
Proof.
  intros Hd. unfold format_decimal.
  destruct ((Z.of_nat (length digits) <=? n) && (n <=? 21)).
  { destruct digits; [congruence|discriminate]. }
  destruct ((0 <? n) && (n <=? 21)).
  { destruct (firstn (Z.to_nat n) digits); discriminate. }
  destruct ((-6 <? n) && (n <=? 0)); [discriminate|].
  destruct digits as [|d [|d' rest]]; [congruence|discriminate|discriminate].
Qed.

Lemma Number_toString_nonempty x : Number_toString x <> [].
Proof.
  assert (Hpositive : forall y, positive_toString y <> []).
  { intros [m e|negative]; [|discriminate]. unfold positive_toString.
    destruct (if 0 <=? e then (m * 2 ^ e, 1) else (m, 2 ^ (- e))) as [num den].
    destruct (shortest_decimal 17 (Dyadic m e) num den (decimal_exponent num den) 1)
      as [s p].
    destruct (drop_zeros 17 s p) as [s' p'].
    apply format_decimal_nonempty.
    destruct (number_units_head s') as (c & tl & -> & _). discriminate. }
  destruct x as [m e|[|]]; cbn [Number_toString]; [|discriminate|apply Hpositive].
  destruct (m =? 0); [discriminate|]. destruct (m <? 0); [discriminate|apply Hpositive].
Qed.

Lemma JSON_stringify_nonempty v : JSON_stringify v <> [].
Proof.
  destruct v as [|[|]|n|m e|s|l|l]; try discriminate.
  - cbn [JSON_stringify]. destruct (number_units_head n) as (c & tl & -> & _). discriminate.
  - apply Number_toString_nonempty.
Qed.

(** X1.  [verifyJWT] accepts a token only if its first three segments are there
    and not empty, the key is imported, the signature segment decodes to
    the MAC of [header.payload] under the secret, the payload segment
    decodes to a text that parses to the returned payload, and [exp] is
    absent, falsy or, converted to a Number without a TypeError, not less
    than [now / 1000]. *)
Theorem verifyJWT_accepts_only_signed
    (P : Platform) (token secret : list N) (now : Z) (payload : json) :
  verifyJWT P token secret now = Ok payload ->
  exists h p s rest signature_text payload_text exp,
    split DOT token = h :: p :: s :: rest /\ h <> [] /\ p <> [] /\ s <> [] /\
    hmac_key_ok P secret = true /\
    atob s = Some signature_text /\
    Uint8Array_from signature_text = hmac P secret (h ++ DOT :: p) /\
    atob p = Some payload_text /\
    JSON_parse payload_text = Some payload /\
    get_prop payload (str "exp") = Ok exp /\
    expired exp now = Ok false.
Proof.
  intros H.
  assert (Hshape : three_segments token).
  { destruct (format_guard token) as [Hg _]. apply Hg. cbv zeta.
    unfold verifyJWT in H.
    destruct (not_string (nth 0 (split DOT token) [])
              || not_string (nth 1 (split DOT token) [])
              || not_string (nth 2 (split DOT token) [])); [discriminate|reflexivity]. }
  destruct Hshape as (h & p & s & rest & Hsplit & Hh & Hp & Hs).
  exists h, p, s, rest.
  unfold verifyJWT in H. rewrite Hsplit in H. cbn [nth] in H.
  destruct h as [|h0 h']; [congruence|]. destruct p as [|p0 p']; [congruence|].
  destruct s as [|s0 s']; [congruence|]. cbn [not_string orb] in H.
  destruct (hmac_key_ok P secret) eqn:Hkey; [|discriminate].
  destruct (atob (s0 :: s')) as [signature_text|] eqn:Hatob_s; [|discriminate].
  cbn [of_option bindO] in H.
  destruct (bytes_eqb (Uint8Array_from signature_text)
              (hmac P secret ((h0 :: h') ++ DOT :: p0 :: p'))) eqn:Hsig; [|discriminate].
  apply bytes_eqb_eq in Hsig. cbn [negb] in H.
  destruct (atob (p0 :: p')) as [payload_text|] eqn:Hatob_p; [|discriminate].
  cbn [of_option bindO] in H.
  destruct (JSON_parse payload_text) as [parsed|] eqn:Hparse; [|discriminate].
  cbn [of_option bindO] in H.
  destruct (get_prop parsed (str "exp")) as [exp|e] eqn:Hexp; [|discriminate].
  cbn [bindO] in H.
  destruct (expired exp now) as [[|]|e] eqn:Hexpired; try discriminate.
  cbn [bindO try_catch] in H. injection H as <-.
  exists signature_text, payload_text, exp.
  split; [exact Hsplit|]. split; [discriminate|]. split; [discriminate|].
  split; [discriminate|].
  repeat (split; [first [reflexivity|assumption]|]).
  first [reflexivity|assumption].
Qed.

Lemma verifyJWT_accepts_only_signed_witness :
  exists h p s rest signature_text payload_text exp,
    split DOT token_without_exp = h :: p :: s :: rest /\
    h <> [] /\ p <> [] /\ s <> [] /\
    hmac_key_ok WebCrypto.platform (str "secret") = true /\
    atob s = Some signature_text /\
    Uint8Array_from signature_text
      = hmac WebCrypto.platform (str "secret") (h ++ DOT :: p) /\
    atob p = Some payload_text /\
    JSON_parse payload_text = Some payload_without_exp /\
    get_prop payload_without_exp (str "exp") = Ok exp /\
    expired exp 1700000000000 = Ok false.
Proof.
  apply (verifyJWT_accepts_only_signed WebCrypto.platform token_without_exp
           (str "secret") 1700000000000 payload_without_exp).
  vm_compute. reflexivity.
Defined.

(** What [verifyJWT] answers, at any time, to the token [signJWT] makes of
    a payload object with a non-zero [exp]. *)
Lemma signed_token_verdict
    (P : Platform) (id type secret : list N) (iat exp now : Z) :
  hmac_sha256_output P ->
  hmac_key_ok P secret = true ->
  Forall (fun c => (c <= 255)%N) id ->
  Forall (fun c => (c <= 255)%N) type ->
  exp <> 0 ->
  let payload := payload_object id iat exp type in
  let token := signing_input payload ++ DOT ::
               btoa_bytes (fromCharCode (hmac P secret (signing_input payload))) in
  signJWT P payload secret = Ok token /\
  verifyJWT P token secret now
  = if exp * 1000 <? now then Throw (Err_TokenVerificationFailed Err_TokenExpired)
    else Ok payload.
Proof.
  intros Hmac Hkey Hid Hty Hexp payload token.
  assert (Hp : Forall (fun c => (c <= 255)%N) (JSON_stringify payload))
    by now apply stringify_payload_latin1.
  assert (Hpne : JSON_stringify payload <> []) by apply JSON_stringify_nonempty.
  split; [now apply signJWT_token|].
  unfold token. rewrite verifyJWT_signed by assumption.
  unfold payload at 1. rewrite JSON_parse_payload by now apply latin1_units.
  fold payload. cbn [of_option bindO].
  change (get_prop payload (str "exp")) with (Ok (Some (JNum exp))).
  cbn [bindO]. unfold expired. cbn [truthy].
  apply Z.eqb_neq in Hexp. rewrite Hexp. cbn [negb andb].
  destruct (exp * 1000 <? now); reflexivity.
Qed.

(** X2.  A signed payload with a non-zero [exp] is accepted up to and including
    the instant [exp] (in seconds) and rejected as expired after it;
    [verifyAnonymousToken] reports the expiry as an invalid token. *)
Theorem token_expires_after_exp
    (P : Platform) (id type secret : list N) (iat exp now' : Z) :
  hmac_sha256_output P ->
  hmac_key_ok P secret = true ->
  Forall (fun c => (c <= 255)%N) id ->
  Forall (fun c => (c <= 255)%N) type ->
  exp <> 0 ->
  exists token,
    signJWT P (payload_object id iat exp type) secret = Ok token /\
    (now' <= exp * 1000 ->
     verifyJWT P token secret now' = Ok (payload_object id iat exp type)) /\
    (exp * 1000 < now' ->
     verifyJWT P token secret now'
       = Throw (Err_TokenVerificationFailed Err_TokenExpired) /\
     verifyAnonymousToken P token secret now' = Throw Err_InvalidAnonymousToken).
Proof.
  intros Hmac Hkey Hid Hty Hexp.
  destruct (signed_token_verdict P id type secret iat exp now')
    as [Hsign Hv]; try assumption.
  eexists. split; [exact Hsign|].
  split.
  - intros Hle. rewrite Hv. destruct (Z.ltb_spec (exp * 1000) now'); [lia|reflexivity].
  - intros Hlt. unfold verifyAnonymousToken. rewrite Hv.
    destruct (Z.ltb_spec (exp * 1000) now'); [split; reflexivity|lia].
Qed.

Lemma token_expires_after_exp_witness :
  exists token,
    signJWT WebCrypto.platform
      (payload_object (str "anon_1_ab") 1700000000 1702592000 anonymous)
      (str "secret") = Ok token /\
    (1702592000000 <= 1702592000 * 1000 ->
     verifyJWT WebCrypto.platform token (str "secret") 1702592000000
       = Ok (payload_object (str "anon_1_ab") 1700000000 1702592000 anonymous)) /\
    (1702592000 * 1000 < 1702592000000 ->
     verifyJWT WebCrypto.platform token (str "secret") 1702592000000
       = Throw (Err_TokenVerificationFailed Err_TokenExpired) /\
     verifyAnonymousToken WebCrypto.platform token (str "secret") 1702592000000
       = Throw Err_InvalidAnonymousToken).
Proof.
  apply (token_expires_after_exp WebCrypto.platform (str "anon_1_ab") anonymous
           (str "secret") 1700000000 1702592000 1702592000000).
  - exact platform_mac_length.
  - reflexivity.
  - apply str_latin1.
  - apply str_latin1.
  - discriminate.
Defined.

(** X3.  A token whose signature verifies but whose [type] is not
    ['anonymous'] passes [verifyJWT] and is rejected by
    [verifyAnonymousToken]. *)
Theorem wrong_type_rejected
    (P : Platform) (id type secret : list N) (iat exp now' : Z) :
  hmac_sha256_output P ->
  hmac_key_ok P secret = true ->
  Forall (fun c => (c <= 255)%N) id ->
  Forall (fun c => (c <= 255)%N) type ->
  type <> anonymous ->
  now' <= exp * 1000 ->
  exists token,
    signJWT P (payload_object id iat exp type) secret = Ok token /\
    verifyJWT P token secret now' = Ok (payload_object id iat exp type) /\
    verifyAnonymousToken P token secret now' = Throw Err_InvalidAnonymousToken.
Proof.
  intros Hmac Hkey Hid Hty Hne Hnow.
  destruct (signed_payload_verifies P id type secret iat exp now')
    as (token & Hsign & Hverify); try assumption.
  exists token. split; [exact Hsign|]. split; [exact Hverify|].
  unfold verifyAnonymousToken. rewrite Hverify. cbn [bindO].
  change (get_prop (payload_object id iat exp type) (str "type"))
    with (Ok (Some (JStr type))).
  cbn [bindO strict_neq_string]. rewrite (jsstring_eqb_neq _ _ Hne). reflexivity.
Qed.

Lemma wrong_type_rejected_witness :
  exists token,
    signJWT WebCrypto.platform
      (payload_object (str "anon_1_ab") 1700000000 1702592000 (str "admin"))
      (str "secret") = Ok token /\
    verifyJWT WebCrypto.platform token (str "secret") 1700000005000
      = Ok (payload_object (str "anon_1_ab") 1700000000 1702592000 (str "admin")) /\
    verifyAnonymousToken WebCrypto.platform token (str "secret") 1700000005000
      = Throw Err_InvalidAnonymousToken.
Proof.
  apply (wrong_type_rejected WebCrypto.platform (str "anon_1_ab") (str "admin")
           (str "secret") 1700000000 1702592000 1700000005000).
  - exact platform_mac_length.
  - reflexivity.
  - apply str_latin1.
  - apply str_latin1.
  - discriminate.
  - lia.
Defined.

(** ** What signing produces *)

(** X4.  [signJWT] resolves exactly when the payload text has no unit above
    0xFF and the key is imported.  The token then has exactly three
    segments, none empty, which decode to the header text, the payload
    text and the MAC of [header.payload].  Otherwise it rejects: with
    [btoa]'s error for a payload text outside Latin-1, with the key
    import's error else. *)
Theorem signJWT_outcome (P : Platform) (payload : json) (secret : list N) :
  hmac_sha256_output P ->
  match signJWT P payload secret with
  | Ok token =>
      is_latin1 (JSON_stringify payload) = true /\
      hmac_key_ok P secret = true /\
      exists h p s signature_text,
        split DOT token = [h; p; s] /\ h <> [] /\ p <> [] /\ s <> [] /\
        atob h = Some (JSON_stringify jwt_header) /\
        atob p = Some (JSON_stringify payload) /\
        atob s = Some signature_text /\
        Uint8Array_from signature_text = hmac P secret (h ++ DOT :: p)
  | Throw e =>
      if is_latin1 (JSON_stringify payload)
      then e = Err_Crypto /\ hmac_key_ok P secret = false
      else e = Err_InvalidCharacter
  end.
Proof.
  intros Hmac.
  destruct (is_latin1 (JSON_stringify payload)) eqn:Hl.
  - destruct (hmac_key_ok P secret) eqn:Hk.
    + apply is_latin1_Forall in Hl.
      rewrite (signJWT_token P payload secret Hl Hk).
      split; [reflexivity|]. split; [reflexivity|].
      destruct stringify_header_segment as [Hh Hhne].
      destruct (btoa_bytes_segment _ Hh Hhne) as (_ & Hh1 & Hh2 & Hh3).
      destruct (btoa_bytes_segment _ Hl (JSON_stringify_nonempty payload))
        as (_ & Hp1 & Hp2 & Hp3).
      destruct (btoa_bytes_segment _
                  (fromCharCode_latin1 (hmac P secret (signing_input payload)))
                  (mac_nonempty P Hmac secret (signing_input payload)))
        as (_ & Hs1 & Hs2 & Hs3).
      exists (btoa_bytes (JSON_stringify jwt_header)),
             (btoa_bytes (JSON_stringify payload)),
             (btoa_bytes (fromCharCode (hmac P secret (signing_input payload)))),
             (fromCharCode (hmac P secret (signing_input payload))).
      split.
      { unfold signing_input at 1. rewrite !split_app.
        now rewrite !split_nosep by assumption. }
      split; [intros E; rewrite E in Hh1; discriminate|].
      split; [intros E; rewrite E in Hp1; discriminate|].
      split; [intros E; rewrite E in Hs1; discriminate|].
      split; [exact Hh3|]. split; [exact Hp3|]. split; [exact Hs3|].
      apply Uint8Array_from_fromCharCode.
    + unfold signJWT.
      destruct stringify_header_segment as [Hh Hhne].
      destruct (btoa_bytes_segment _ Hh Hhne) as (-> & _).
      unfold btoa at 1. rewrite Hl. cbn [of_option bindO]. rewrite Hk.
      split; reflexivity.
  - unfold signJWT.
    destruct stringify_header_segment as [Hh Hhne].
    destruct (btoa_bytes_segment _ Hh Hhne) as (-> & _).
    unfold btoa at 1. rewrite Hl. reflexivity.
Qed.

Lemma signJWT_outcome_witness :
  match signJWT WebCrypto.platform accepted_payload (str "secret") with
  | Ok token =>
      is_latin1 (JSON_stringify accepted_payload) = true /\
      hmac_key_ok WebCrypto.platform (str "secret") = true /\
      exists h p s signature_text,
        split DOT token = [h; p; s] /\ h <> [] /\ p <> [] /\ s <> [] /\
        atob h = Some (JSON_stringify jwt_header) /\
        atob p = Some (JSON_stringify accepted_payload) /\
        atob s = Some signature_text /\
        Uint8Array_from signature_text
          = hmac WebCrypto.platform (str "secret") (h ++ DOT :: p)
  | Throw e =>
      if is_latin1 (JSON_stringify accepted_payload)
      then e = Err_Crypto /\ hmac_key_ok WebCrypto.platform (str "secret") = false
      else e = Err_InvalidCharacter
  end.
Proof.
  apply (signJWT_outcome WebCrypto.platform accepted_payload (str "secret")).
  exact platform_mac_length.
Defined.

(** ** The shape of generated identities and of issued tokens *)

Lemma uint_units_range u :
  Forall (fun c => (48 <= c <= 57)%N) (uint_units u).
Proof.
  induction u; cbn [uint_units]; try apply List.Forall_nil;
    (apply List.Forall_cons; [lia|assumption]).
Qed.

Lemma number_units_no_underscore n : Forall (fun c => c <> 95%N) (number_units n).
Proof.
  unfold number_units.
  destruct (Z.to_int n) as [u|u];
    [|apply List.Forall_cons; [discriminate|]];
    (eapply List.Forall_impl; [|apply uint_units_range]); cbv beta; intros c Hc; lia.
Qed.

Lemma number_units_inj n m : number_units n = number_units m -> n = m.
Proof.
  intros E.
  pose proof (parse_number_units n [] I) as Hn.
  pose proof (parse_number_units m [] I) as Hm.
  rewrite E in Hn. rewrite Hn in Hm. congruence.
Qed.

Lemma hex_digit_range d :
  (d < 16)%N ->
  let c := hex_digit d in ((48 <= c <= 57) \/ (97 <= c <= 102))%N.
Proof.
  intros Hd. cbv zeta. unfold hex_digit. destruct (N.ltb_spec d 10); lia.
Qed.

Lemma hex_digit_inj a b : (a < 16)%N -> (b < 16)%N -> hex_digit a = hex_digit b -> a = b.
Proof.
  unfold hex_digit. intros Ha Hb.
  destruct (N.ltb_spec a 10), (N.ltb_spec b 10); lia.
Qed.

Lemma randomHex_digits randomBytes :
  Forall (fun c => (48 <= c <= 57) \/ (97 <= c <= 102))%N (randomHex randomBytes).
Proof.
  induction randomBytes as [|b bs IH]; cbn [randomHex flat_map]; [apply List.Forall_nil|].
  pose proof (Byte.to_N_bounded b) as Hb.
  apply List.Forall_cons; [apply hex_digit_range; dlia|].
  apply List.Forall_cons; [apply hex_digit_range; dlia|exact IH].
Qed.

Lemma randomHex_length randomBytes :
  length (randomHex randomBytes) = (2 * length randomBytes)%nat.
Proof.
  unfold randomHex.
  induction randomBytes as [|b bs IH]; cbn [flat_map length app] in *; lia.
Qed.

Lemma randomHex_inj a b : randomHex a = randomHex b -> a = b.
Proof.
  revert b. induction a as [|x a IH]; intros [|y b]; cbn [randomHex flat_map app];
    try discriminate; [reflexivity|].
  intros E. injection E as E1 E2 E3.
  pose proof (Byte.to_N_bounded x) as Hx. pose proof (Byte.to_N_bounded y) as Hy.
  apply hex_digit_inj in E1; [|dlia|dlia]. apply hex_digit_inj in E2; [|dlia|dlia].
  assert (Hxy : Byte.to_N x = Byte.to_N y) by dlia.
  assert (x = y).
  { pose proof (Byte.of_to_N x) as Ex. pose proof (Byte.of_to_N y) as Ey.
    rewrite Hxy in Ex. congruence. }
  subst y. f_equal. now apply IH.
Qed.

Lemma generateAnonymousUserId_parts now randomBytes :
  split 95 (generateAnonymousUserId now randomBytes)
  = [str "anon"; number_units now; randomHex randomBytes].
Proof.
  unfold generateAnonymousUserId. fold (randomHex randomBytes).
  change (str "anon_" ++ number_units now ++ str "_" ++ randomHex randomBytes)
    with (str "anon" ++ 95%N :: (number_units now ++ 95%N :: randomHex randomBytes)).
  rewrite !split_app.
  rewrite (split_nosep 95 (str "anon"))
    by (apply Forall_forallb with (f := fun c => negb (c =? 95)%N);
        [intros c Hc; apply N.eqb_neq; now destruct (c =? 95)%N|reflexivity]).
  rewrite (split_nosep 95 (number_units now)) by apply number_units_no_underscore.
  rewrite (split_nosep 95 (randomHex randomBytes)).
  - reflexivity.
  - eapply List.Forall_impl; [|apply randomHex_digits]. cbv beta. intros c Hc. lia.
Qed.

(** X5.  An identity is the word [anon], the decimal reading of the clock and
    two lowercase hexadecimal digits per random byte, joined by
    underscores; none of the three parts holds an underscore, so the
    identity splits back into exactly them. *)
Theorem generated_identity_format now randomBytes :
  exists hex,
    generateAnonymousUserId now randomBytes
      = str "anon_" ++ number_units now ++ str "_" ++ hex /\
    split 95 (generateAnonymousUserId now randomBytes)
      = [str "anon"; number_units now; hex] /\
    length hex = (2 * length randomBytes)%nat /\
    Forall (fun c => (48 <= c <= 57) \/ (97 <= c <= 102))%N hex.
Proof.
  exists (randomHex randomBytes).
  split; [reflexivity|]. split; [apply generateAnonymousUserId_parts|].
  split; [apply randomHex_length|apply randomHex_digits].
Qed.

(** X6.  Two generated identities are equal only when both the clock reading
    and the random bytes are. *)
Theorem generated_identity_injective now1 bytes1 now2 bytes2 :
  generateAnonymousUserId now1 bytes1 = generateAnonymousUserId now2 bytes2 ->
  now1 = now2 /\ bytes1 = bytes2.
Proof.
  intros E. apply (f_equal (split 95)) in E.
  rewrite !generateAnonymousUserId_parts in E.
  injection E as En Eh.
  split; [now apply number_units_inj|now apply randomHex_inj].
Qed.

Lemma generated_identity_injective_witness :
  1700000000000 = 1700000000000 /\ repeat Byte.x2a 16 = repeat Byte.x2a 16.
Proof.
  apply (generated_identity_injective 1700000000000 (repeat Byte.x2a 16)
           1700000000000 (repeat Byte.x2a 16)).
  reflexivity.
Defined.

(** X7.  The token issued at [now] carries the identity, the second of issue
    as [iat], an [exp] 30 days later and the type ['anonymous'];
    [verifyAnonymousToken] returns that payload up to and including the
    instant [exp] and rejects the token after it. *)
Theorem issued_token_lifetime
    (P : Platform) (userId secret : list N) (now now' : Z) :
  hmac_sha256_output P ->
  hmac_key_ok P secret = true ->
  Forall (fun c => (c <= 255)%N) userId ->
  0 <= now ->
  let iat := now / 1000 in
  let exp := iat + 2592000 in
  exists token,
    generateAnonymousToken P userId secret now = Ok token /\
    verifyAnonymousToken P token secret now'
    = if exp * 1000 <? now' then Throw Err_InvalidAnonymousToken
      else Ok (payload_object userId iat exp anonymous).
Proof.
  intros Hmac Hkey Hid Hnow iat exp.
  assert (Hexp : exp <> 0) by (unfold exp, iat; dlia).
  destruct (signed_token_verdict P userId anonymous secret iat exp now')
    as [Hsign Hv]; try assumption; [apply str_latin1|].
  eexists. split; [exact Hsign|].
  unfold verifyAnonymousToken. rewrite Hv.
  destruct (exp * 1000 <? now'); reflexivity.
Qed.

Lemma issued_token_lifetime_witness :
  let iat := 1700000000001 / 1000 in
  let exp := iat + 2592000 in
  exists token,
    generateAnonymousToken WebCrypto.platform (str "anon_1_ab") (str "secret")
      1700000000001 = Ok token /\
    verifyAnonymousToken WebCrypto.platform token (str "secret") 1702592000000
    = if exp * 1000 <? 1702592000000 then Throw Err_InvalidAnonymousToken
      else Ok (payload_object (str "anon_1_ab") iat exp anonymous).
Proof.
  apply (issued_token_lifetime WebCrypto.platform (str "anon_1_ab") (str "secret")
           1700000000001 1702592000000).
  - exact platform_mac_length.
  - reflexivity.
  - apply str_latin1.
  - lia.
Defined.

(** ** The limiter under arbitrary KV failures *)

(** A usage update resolves whatever the KV store does, and leaves the
    rate-limit namespace alone. *)
Lemma updateUserStats_resolves faulty userId now w :
  fst (updateUserStats faulty userId now w) = Ok tt /\
  RATE_LIMIT_KV (snd (updateUserStats faulty userId now w)) = RATE_LIMIT_KV w.
Proof.
  unfold updateUserStats, tryM, bindM, user_stats_get, user_stats_put, ret.
  repeat match goal with
         | |- context [if faulty ?c then _ else _] => destruct (faulty c)
         end; split; reflexivity.
Qed.

(** Every path of [checkRateLimit]. *)
Lemma checkRateLimit_run faulty userId now now_stats w :
  let key := rate_limit_key userId in
  let remaining := remaining_requests userId now w in
  let requests := remaining ++ [now] in
  let ttl := ceil_div windowMs 1000 in
  checkRateLimit faulty userId now now_stats w
  = if faulty (RateLimitGet key) then
      (Ok allow, log (KvEvent (RateLimitGet key) true) w)
    else if maxRequests <=? Z.of_nat (length remaining) then
      (Ok (deny (ceil_div (Math_min remaining + windowMs - now) 1000)),
       log (KvEvent (RateLimitGet key) false) w)
    else if faulty (RateLimitPut key requests ttl) then
      (Ok allow,
       log (KvEvent (RateLimitPut key requests ttl) true)
         (log (KvEvent (RateLimitGet key) false) w))
    else
      (Ok allow,
       snd (updateUserStats faulty userId now_stats
              (log (KvEvent (RateLimitPut key requests ttl) false)
                 {| RATE_LIMIT_KV := <[key := requests]> (RATE_LIMIT_KV w);
                    USER_STATS_KV := USER_STATS_KV w;
                    trace := trace w ++ [KvEvent (RateLimitGet key) false] |}))).
Proof.
  cbv zeta. unfold remaining_requests, stored_requests, checkRateLimit.
  unfold tryM at 1. unfold bindM at 1. unfold rate_limit_get.
  destruct (faulty (RateLimitGet (rate_limit_key userId))); [reflexivity|].
  cbn [RATE_LIMIT_KV log]. unfold default.
  set (requests := List.filter _ _).
  destruct (maxRequests <=? Z.of_nat (length requests)); [reflexivity|].
  unfold bindM at 1. unfold rate_limit_put.
  destruct (faulty (RateLimitPut _ _ _)); [reflexivity|].
  cbn [RATE_LIMIT_KV USER_STATS_KV trace log].
  unfold bindM.
  match goal with
  | |- context [updateUserStats faulty userId now_stats ?w1] =>
      pose proof (updateUserStats_resolves faulty userId now_stats w1) as [Hr _];
      destruct (updateUserStats faulty userId now_stats w1) as [o w2]
  end.
  cbn [fst snd] in *. subst o. reflexivity.
Qed.

(** X8.  When the read of the rate-limit record is rejected, or the window has
    room and the write of the record is rejected, the request is admitted
    without being counted: neither namespace changes and the usage record
    is not touched. *)
Theorem uncounted_admission
    (faulty : KvCall -> bool) (userId : list N) (now now_stats : Z) (w : World) :
  let key := rate_limit_key userId in
  let remaining := remaining_requests userId now w in
  faulty (RateLimitGet key) = true \/
  (Z.of_nat (length remaining) < maxRequests /\
   faulty (RateLimitPut key (remaining ++ [now]) 3600) = true) ->
  let r := checkRateLimit faulty userId now now_stats w in
  exists events,
    fst r = Ok allow /\
    RATE_LIMIT_KV (snd r) = RATE_LIMIT_KV w /\
    USER_STATS_KV (snd r) = USER_STATS_KV w /\
    trace (snd r) = trace w ++ events /\
    forall call rejected, In (KvEvent call rejected) events ->
      match call with
      | RateLimitGet _ | RateLimitPut _ _ _ => True
      | UserStatsGet _ | UserStatsPut _ _ => False
      end.
Proof.
  intros key remaining H r. subst r. rewrite checkRateLimit_run. cbv zeta.
  fold key remaining. change (ceil_div windowMs 1000) with 3600.
  destruct (faulty (RateLimitGet key)) eqn:Hget.
  - exists [KvEvent (RateLimitGet key) true].
    repeat (split; [reflexivity|]).
    intros call rejected [[= <- _]|[]]. exact I.
  - destruct H as [H|[Hroom Hput]]; [discriminate|].
    destruct (Z.leb_spec maxRequests (Z.of_nat (length remaining))); [lia|].
    rewrite Hput.
    exists [KvEvent (RateLimitGet key) false;
            KvEvent (RateLimitPut key (remaining ++ [now]) 3600) true].
    split; [reflexivity|]. split; [reflexivity|]. split; [reflexivity|].
    split; [cbn [snd log trace]; now rewrite <- app_assoc|].
    intros call rejected [[= <- _]|[[= <- _]|[]]]; exact I.
Qed.

Lemma uncounted_admission_witness :
  let faulty := fun call => match call with RateLimitGet _ => true | _ => false end in
  let r := checkRateLimit faulty (str "anon_1_ab") 150000 150000
             (full_window_world (str "anon_1_ab")) in
  exists events,
    fst r = Ok allow /\
    RATE_LIMIT_KV (snd r) = RATE_LIMIT_KV (full_window_world (str "anon_1_ab")) /\
    USER_STATS_KV (snd r) = USER_STATS_KV (full_window_world (str "anon_1_ab")) /\
    trace (snd r) = trace (full_window_world (str "anon_1_ab")) ++ events /\
    forall call rejected, In (KvEvent call rejected) events ->
      match call with
      | RateLimitGet _ | RateLimitPut _ _ _ => True
      | UserStatsGet _ | UserStatsPut _ _ => False
      end.
Proof.
  cbv zeta.
  apply (uncounted_admission
           (fun call => match call with RateLimitGet _ => true | _ => false end)
           (str "anon_1_ab") 150000 150000 (full_window_world (str "anon_1_ab"))).
  left. reflexivity.
Defined.

(** X9.  A denial changes nothing: both namespaces stay as they were and the
    only KV call made is the read of the rate-limit record. *)
Theorem denial_writes_nothing
    (faulty : KvCall -> bool) (userId : list N) (now now_stats : Z) (w : World)
    (result : RateLimitResult) :
  let r := checkRateLimit faulty userId now now_stats w in
  fst r = Ok result ->
  allowed result = false ->
  RATE_LIMIT_KV (snd r) = RATE_LIMIT_KV w /\
  USER_STATS_KV (snd r) = USER_STATS_KV w /\
  trace (snd r) = trace w ++ [KvEvent (RateLimitGet (rate_limit_key userId)) false].
Proof.
  intros r. subst r. rewrite checkRateLimit_run. cbv zeta.
  repeat match goal with
         | |- context [if ?c then _ else _] => destruct c
         end; cbn [fst]; intros [= <-] Hdenied; try discriminate.
  repeat split.
Qed.

Lemma denial_writes_nothing_witness :
  let w := full_window_world (str "anon_1_ab") in
  let r := checkRateLimit no_faults (str "anon_1_ab") 150000 150000 w in
  RATE_LIMIT_KV (snd r) = RATE_LIMIT_KV w /\
  USER_STATS_KV (snd r) = USER_STATS_KV w /\
  trace (snd r)
  = trace w ++ [KvEvent (RateLimitGet (rate_limit_key (str "anon_1_ab"))) false].
Proof.
  cbv zeta.
  apply (denial_writes_nothing no_faults (str "anon_1_ab") 150000 150000
           (full_window_world (str "anon_1_ab")) (deny 3450)).
  - vm_compute. reflexivity.
  - reflexivity.
Defined.

Lemma updateUserStats_other_keys faulty userId now w k :
  k <> stats_key userId ->
  USER_STATS_KV (snd (updateUserStats faulty userId now w)) !! k = USER_STATS_KV w !! k.
Proof.
  intros Hk.
  unfold updateUserStats, tryM, bindM, user_stats_get, user_stats_put, ret.
  repeat match goal with
         | |- context [if faulty ?c then _ else _] => destruct (faulty c)
         end; cbn [snd log USER_STATS_KV]; try reflexivity.
  now apply lookup_insert_ne.
Qed.

Lemma updateUserStats_trace faulty userId now w :
  exists events,
    trace (snd (updateUserStats faulty userId now w)) = trace w ++ events.
Proof.
  unfold updateUserStats, tryM, bindM, user_stats_get, user_stats_put, ret.
  repeat match goal with
         | |- context [if faulty ?c then _ else _] => destruct (faulty c)
         end; cbn [snd log trace]; rewrite <- ?app_assoc; eauto.
Qed.

(** X10.  When the rate-limit namespace answers, the record an admitted request
    leaves behind is the timestamps still inside the window followed by
    [now]: at most [maxRequests] entries, each less than [windowMs] old,
    written with a time to live of 3600 seconds.  Failures of the usage
    namespace do not change this. *)
Theorem admitted_record_bounded
    (faulty : KvCall -> bool) (userId : list N) (now now_stats : Z) (w : World) :
  let key := rate_limit_key userId in
  let r := checkRateLimit faulty userId now now_stats w in
  faulty (RateLimitGet key) = false ->
  (forall value ttl, faulty (RateLimitPut key value ttl) = false) ->
  fst r = Ok allow ->
  exists record,
    record = remaining_requests userId now w ++ [now] /\
    RATE_LIMIT_KV (snd r) !! key = Some record /\
    Z.of_nat (length record) <= maxRequests /\
    Forall (fun t => now - t < windowMs) record /\
    In (KvEvent (RateLimitPut key record 3600) false) (trace (snd r)).
Proof.
  intros key r Hget Hput. subst r. rewrite checkRateLimit_run. cbv zeta.
  fold key. rewrite Hget, Hput. change (ceil_div windowMs 1000) with 3600.
  destruct (Z.leb_spec maxRequests (Z.of_nat (length (remaining_requests userId now w))))
    as [|Hroom]; [discriminate|].
  intros _. cbn [fst snd].
  exists (remaining_requests userId now w ++ [now]).
  split; [reflexivity|].
  match goal with
  | |- context [updateUserStats faulty userId now_stats ?w1] =>
      pose proof (updateUserStats_resolves faulty userId now_stats w1) as [_ Hrl];
      pose proof (updateUserStats_trace faulty userId now_stats w1) as [events Htr];
      rewrite Hrl, Htr
  end.
  cbn [log RATE_LIMIT_KV trace].
  split; [apply lookup_insert_eq|].
  split; [rewrite length_app; cbn [length]; lia|].
  split.
  - apply Forall_app. split.
    + apply List.Forall_forall. intros t Ht. now apply remaining_in_window in Ht.
    + apply List.Forall_cons; [unfold windowMs; lia|apply List.Forall_nil].
  - apply in_or_app. left. apply in_or_app. right. now left.
Qed.

Lemma admitted_record_bounded_witness :
  let key := rate_limit_key (str "anon_1_ab") in
  let r := checkRateLimit no_faults (str "anon_1_ab") 3600000 3600000
             (full_window_world (str "anon_1_ab")) in
  exists record,
    record = remaining_requests (str "anon_1_ab") 3600000
               (full_window_world (str "anon_1_ab")) ++ [3600000] /\
    RATE_LIMIT_KV (snd r) !! key = Some record /\
    Z.of_nat (length record) <= maxRequests /\
    Forall (fun t => 3600000 - t < windowMs) record /\
    In (KvEvent (RateLimitPut key record 3600) false) (trace (snd r)).
Proof.
  cbv zeta.
  apply (admitted_record_bounded no_faults (str "anon_1_ab") 3600000 3600000
           (full_window_world (str "anon_1_ab"))).
  - reflexivity.
  - reflexivity.
  - vm_compute. reflexivity.
Defined.

Lemma rate_limit_key_inj a b : rate_limit_key a = rate_limit_key b -> a = b.
Proof. unfold rate_limit_key. apply app_inv_head. Qed.

Lemma stats_key_inj a b : stats_key a = stats_key b -> a = b.
Proof. unfold stats_key. apply app_inv_head. Qed.

(** X11.  A call for one identity touches only that identity's two records,
    whatever the KV store does: every other key of either namespace, so
    every other identity's window and usage record, reads as before. *)
Theorem other_identities_untouched
    (faulty : KvCall -> bool) (userId : list N) (now now_stats : Z) (w : World) :
  let r := checkRateLimit faulty userId now now_stats w in
  (forall k, k <> rate_limit_key userId ->
     RATE_LIMIT_KV (snd r) !! k = RATE_LIMIT_KV w !! k) /\
  (forall k, k <> stats_key userId ->
     USER_STATS_KV (snd r) !! k = USER_STATS_KV w !! k) /\
  (forall other, other <> userId ->
     stored_requests other (snd r) = stored_requests other w /\
     USER_STATS_KV (snd r) !! stats_key other = USER_STATS_KV w !! stats_key other).
Proof.
  intros r.
  assert (Hrl : forall k, k <> rate_limit_key userId ->
            RATE_LIMIT_KV (snd r) !! k = RATE_LIMIT_KV w !! k).
  { intros k Hk. subst r. rewrite checkRateLimit_run. cbv zeta.
    repeat match goal with
           | |- context [if ?c then _ else _] => destruct c
           end; cbn [snd log RATE_LIMIT_KV]; try reflexivity.
    match goal with
    | |- context [updateUserStats faulty userId now_stats ?w1] =>
        pose proof (updateUserStats_resolves faulty userId now_stats w1) as [_ ->]
    end.
    cbn [log RATE_LIMIT_KV]. now apply lookup_insert_ne. }
  assert (Hst : forall k, k <> stats_key userId ->
            USER_STATS_KV (snd r) !! k = USER_STATS_KV w !! k).
  { intros k Hk. subst r. rewrite checkRateLimit_run. cbv zeta.
    repeat match goal with
           | |- context [if ?c then _ else _] => destruct c
           end; cbn [snd log USER_STATS_KV]; try reflexivity.
    now rewrite updateUserStats_other_keys. }
  split; [exact Hrl|]. split; [exact Hst|].
  intros other Hother. split.
  - unfold stored_requests. rewrite Hrl; [reflexivity|].
    intros E. apply rate_limit_key_inj in E. contradiction.
  - apply Hst. intros E. apply stats_key_inj in E. contradiction.
Qed.

(** X12.  When no stored timestamp lies in the future, the retry hint of a
    denial is between 1 and 3600 seconds. *)
Theorem retry_after_within_window
    (faulty : KvCall -> bool) (userId : list N) (now now_stats : Z) (w : World)
    (seconds : Z) :
  Forall (fun t => t <= now) (stored_requests userId w) ->
  fst (checkRateLimit faulty userId now now_stats w) = Ok (deny seconds) ->
  1 <= seconds <= 3600.
Proof.
  intros Hpast. rewrite checkRateLimit_run. cbv zeta.
  destruct (faulty (RateLimitGet (rate_limit_key userId))); [discriminate|].
  destruct (Z.leb_spec maxRequests (Z.of_nat (length (remaining_requests userId now w))))
    as [Hfull|_].
  - cbn [fst]. intros [= <-].
    set (remaining := remaining_requests userId now w) in *.
    assert (Hne : remaining <> []).
    { intros E. rewrite E in Hfull. cbn in Hfull. unfold maxRequests in Hfull. lia. }
    destruct (Math_min_spec remaining Hne) as [Hin _].
    pose proof (remaining_in_window _ _ _ _ Hin) as Hwin.
    assert (Hle : Math_min remaining <= now).
    { unfold remaining, remaining_requests in Hin. apply filter_In in Hin as [Hin _].
      rewrite List.Forall_forall in Hpast. now apply Hpast. }
    pose proof (ceil_div_spec (Math_min remaining + windowMs - now) 1000 ltac:(lia)).
    unfold windowMs in *. lia.
  - destruct (faulty _); discriminate.
Qed.

Lemma retry_after_within_window_witness : 1 <= 3450 <= 3600.
Proof.
  apply (retry_after_within_window no_faults (str "anon_1_ab") 150000 150000
           (full_window_world (str "anon_1_ab")) 3450).
  - apply Forall_forallb with (f := fun t => t <=? 150000).
    + intros t Ht. now apply Z.leb_le.
    + vm_compute. reflexivity.
  - vm_compute. reflexivity.
Defined.

(** ** The usage tracker under failures, and the size of a usage record *)

(** X13.  A usage update never fails and never touches the rate-limit
    namespace.  It writes the updated record only when both its read and
    its write are answered; when the read is rejected no write is
    attempted, so a record that could not be read is not replaced by a
    fresh one. *)
Theorem usage_update_failure_is_silent
    (faulty : KvCall -> bool) (userId : list N) (now : Z) (w : World) :
  let key := stats_key userId in
  let updated := record_request (prior_stats userId now w) now in
  let r := updateUserStats faulty userId now w in
  fst r = Ok tt /\
  RATE_LIMIT_KV (snd r) = RATE_LIMIT_KV w /\
  USER_STATS_KV (snd r)
  = (if faulty (UserStatsGet key) || faulty (UserStatsPut key updated)
     then USER_STATS_KV w
     else <[key := updated]> (USER_STATS_KV w)) /\
  trace (snd r)
  = trace w ++
    (if faulty (UserStatsGet key) then [KvEvent (UserStatsGet key) true]
     else [KvEvent (UserStatsGet key) false;
           KvEvent (UserStatsPut key updated) (faulty (UserStatsPut key updated))]).
Proof.
  cbv zeta. unfold updateUserStats, tryM, bindM, user_stats_get, user_stats_put, ret,
    prior_stats, stats_or_new.
  destruct (faulty (UserStatsGet (stats_key userId))).
  - repeat split.
  - cbn [USER_STATS_KV log orb].
    destruct (faulty (UserStatsPut _ _));
      cbn [fst snd log RATE_LIMIT_KV USER_STATS_KV trace];
      rewrite <- ?app_assoc; repeat split.
Qed.

Lemma retention_days now date :
  ~ (dateValue date < now - RETENTION_MS) -> toISODate now - 30 <= date.
Proof.
  unfold dateValue, toISODate, RETENTION_MS, DAY_MS. intros H.
  pose proof (Z.div_mod now (24 * 60 * 60 * 1000) ltac:(lia)).
  pose proof (Z.mod_pos_bound now (24 * 60 * 60 * 1000) ltac:(lia)). nia.
Qed.

Lemma record_request_dates stats now date count :
  dailyRequests (record_request stats now) !! date = Some count ->
  toISODate now - 30 <= date /\
  (date = toISODate now \/ dailyRequests stats !! date = Some count).
Proof.
  unfold record_request. cbn [dailyRequests]. intros H.
  apply map_lookup_filter_Some in H as [Hlook Hkeep]. cbn [fst] in Hkeep.
  split; [now apply retention_days|].
  destruct (decide (date = toISODate now)) as [->|Hne]; [now left|].
  right. now rewrite lookup_insert_ne in Hlook by congruence.
Qed.

(** X14.  As long as no stored day lies after the day of [now], an updated
    record holds only days from 30 days back up to today: at most 31
    daily counters, none of a later day. *)
Theorem daily_entries_bounded (stats : UsageRecord) (now : Z) :
  (forall date count, dailyRequests stats !! date = Some count -> date <= toISODate now) ->
  let daily := dailyRequests (record_request stats now) in
  (forall date count, daily !! date = Some count ->
     toISODate now - 30 <= date <= toISODate now) /\
  (size daily <= 31)%nat.
Proof.
  intros Hpast daily.
  assert (Hrange : forall date count, daily !! date = Some count ->
            toISODate now - 30 <= date <= toISODate now).
  { intros date count H. apply record_request_dates in H as [Hlow [->|Hold]].
    - lia.
    - apply Hpast in Hold. lia. }
  split; [exact Hrange|].
  set (days := (fun i : nat => toISODate now - 30 + Z.of_nat i) <$> seq 0 31).
  assert (Hnodup : NoDup days).
  { apply NoDup_fmap_2; [intros i j Hij; lia|apply NoDup_seq]. }
  rewrite <- size_dom.
  transitivity (size (list_to_set days : gset Z)).
  - apply subseteq_size. intros date Hdate.
    apply elem_of_dom in Hdate as [count Hdate]. apply Hrange in Hdate.
    apply elem_of_list_to_set. apply list_elem_of_fmap.
    exists (Z.to_nat (date - (toISODate now - 30))). split; [lia|].
    apply elem_of_seq. lia.
  - rewrite size_list_to_set by exact Hnodup.
    unfold days. now rewrite length_fmap, length_seq.
Qed.

Lemma daily_entries_bounded_witness :
  let stats := {| createdAt := 0; totalRequests := 0; lastRequestAt := None;
                  dailyRequests := {[ 19675 := 4 ]} |} in
  let daily := dailyRequests (record_request stats 1700000000000) in
  (forall date count, daily !! date = Some count ->
     toISODate 1700000000000 - 30 <= date <= toISODate 1700000000000) /\
  (size daily <= 31)%nat.
Proof.
  cbv zeta.
  apply (daily_entries_bounded
           {| createdAt := 0; totalRequests := 0; lastRequestAt := None;
              dailyRequests := {[ 19675 := 4 ]} |} 1700000000000).
  intros date count H. cbn [dailyRequests] in H.
  apply lookup_singleton_Some in H as [<- _]. vm_compute. discriminate.
Defined.

Lemma daily_total_insert daily date count :
  daily !! date = None ->
  daily_total (<[date := count]> daily) = count + daily_total daily.
Proof.
  intros Hnone. unfold daily_total.
  rewrite map_fold_insert_L; [reflexivity| |exact Hnone].
  intros. lia.
Qed.

Lemma daily_total_replace daily date count :
  daily_total (<[date := count]> daily)
  = count - default 0 (daily !! date) + daily_total daily.
Proof.
  destruct (daily !! date) as [old|] eqn:Hold; cbn [from_option id].
  - rewrite <- (insert_delete_id daily date old Hold) at 2.
    rewrite <- insert_delete_eq.
    rewrite !daily_total_insert by apply lookup_delete_eq. lia.
  - rewrite daily_total_insert by exact Hold. lia.
Qed.

Lemma daily_total_filter (keep : Z * Z -> Prop) `{!forall x, Decision (keep x)}
    (daily : gmap Z Z) :
  (forall date count, daily !! date = Some count -> 0 <= count) ->
  0 <= daily_total (filter keep daily) <= daily_total daily.
Proof.
  induction daily as [|date count daily Hnone IH] using map_ind; intros Hpos.
  - rewrite map_filter_empty. unfold daily_total. rewrite map_fold_empty. lia.
  - assert (Hc : 0 <= count) by (apply (Hpos date); apply lookup_insert_eq).
    assert (IH' : 0 <= daily_total (filter keep daily) <= daily_total daily).
    { apply IH. intros d c Hd. apply (Hpos d).
      rewrite lookup_insert_ne; [exact Hd|]. intros <-. congruence. }
    rewrite daily_total_insert by exact Hnone.
    destruct (decide (keep (date, count))) as [Hk|Hk].
    + rewrite map_filter_insert_True by exact Hk.
      rewrite daily_total_insert; [lia|].
      apply map_lookup_filter_None_2. now left.
    + rewrite map_filter_insert_False by exact Hk.
      rewrite delete_id by exact Hnone. lia.
Qed.

(** X15.  A usage update keeps this invariant of a record: no daily counter is
    negative and the daily counters add up to at most [totalRequests]. *)
Theorem daily_counters_within_total (stats : UsageRecord) (now : Z) :
  (forall date count, dailyRequests stats !! date = Some count -> 0 <= count) ->
  daily_total (dailyRequests stats) <= totalRequests stats ->
  let stats' := record_request stats now in
  (forall date count, dailyRequests stats' !! date = Some count -> 0 <= count) /\
  daily_total (dailyRequests stats') <= totalRequests stats'.
Proof.
  intros Hpos Hsum stats'. subst stats'.
  unfold record_request. cbn [dailyRequests totalRequests].
  set (today := toISODate now).
  set (daily := <[today := default 0 (dailyRequests stats !! today) + 1]>
                  (dailyRequests stats)).
  assert (Hpos' : forall date count, daily !! date = Some count -> 0 <= count).
  { intros date count. unfold daily.
    destruct (decide (date = today)) as [->|Hne].
    - rewrite lookup_insert_eq. intros [= <-].
      destruct (dailyRequests stats !! today) as [old|] eqn:Hold; cbn [from_option id]; [|lia].
      apply Hpos in Hold. lia.
    - rewrite lookup_insert_ne by congruence. apply Hpos. }
  split.
  - intros date count H. apply map_lookup_filter_Some in H as [H _]. now apply Hpos' in H.
  - pose proof (daily_total_filter
                  (fun entry => ~ (dateValue (fst entry) < now - RETENTION_MS))
                  daily Hpos') as [_ Hle].
    unfold daily in Hle at 2. rewrite daily_total_replace in Hle. lia.
Qed.

Lemma daily_counters_within_total_witness :
  let stats := {| createdAt := 0; totalRequests := 0; lastRequestAt := None;
                  dailyRequests := ∅ |} in
  let stats' := record_request stats 1700000000000 in
  (forall date count, dailyRequests stats' !! date = Some count -> 0 <= count) /\
  daily_total (dailyRequests stats') <= totalRequests stats'.
Proof.
  cbv zeta.
  apply (daily_counters_within_total
           {| createdAt := 0; totalRequests := 0; lastRequestAt := None;
              dailyRequests := ∅ |} 1700000000000).
  - intros date count H. cbn [dailyRequests] in H. rewrite lookup_empty in H. discriminate.
  - vm_compute. discriminate.
Defined.

(** ** The request handlers *)

Lemma fetch_external_service P rt request env :
  method request = str "POST" ->
  pathname request = str "/api/external-service" ->
  fetch P rt request env
  = tryM (handleExternalApiRequest P rt request env)
         (fun _ => ret (json_response 500 (ErrorBody (str "Internal Server Error")))).
Proof.
  intros Hmethod Hpath. unfold fetch. rewrite Hmethod, Hpath.
  change (jsstring_eqb (str "POST") (str "OPTIONS")) with false. cbv iota.
  now rewrite jsstring_eqb_refl.
Qed.

(** X16.  Requests that routing alone answers: a preflight on any path gets 200
    with no body, any other method than POST on one of the two endpoints
    gets 405, and any other path gets 404.  Nothing is read or written
    for them. *)
Theorem answered_by_routing
    (P : Platform) (rt : Runtime) (request : Request) (env : Env) (w : World) :
  method request <> str "POST" \/
  (pathname request <> str "/api/external-service" /\
   pathname request <> str "/api/token") ->
  fetch P rt request env w
  = (Ok (if jsstring_eqb (method request) (str "OPTIONS") then
           {| status := 200; body := NoBody; retry_after_header := None |}
         else if jsstring_eqb (pathname request) (str "/api/external-service")
                 || jsstring_eqb (pathname request) (str "/api/token") then
           json_response 405 (ErrorBody (str "Method not allowed"))
         else
           {| status := 404; body := TextBody (str "Not Found");
              retry_after_header := None |}),
     w).
Proof.
  intros H. unfold fetch.
  destruct (jsstring_eqb (method request) (str "OPTIONS")) eqn:Hopt; [reflexivity|].
  unfold tryM.
  destruct (jsstring_eqb (pathname request) (str "/api/external-service")) eqn:Hext.
  - apply jsstring_eqb_eq in Hext.
    destruct H as [Hm|[Hp _]]; [|contradiction].
    unfold handleExternalApiRequest. now rewrite (jsstring_eqb_neq _ _ Hm).
  - destruct (jsstring_eqb (pathname request) (str "/api/token")) eqn:Htok.
    + apply jsstring_eqb_eq in Htok.
      destruct H as [Hm|[_ Hp]]; [|contradiction].
      unfold handleTokenRequest. now rewrite (jsstring_eqb_neq _ _ Hm).
    + reflexivity.
Qed.

Lemma answered_by_routing_witness :
  let request := {| method := str "DELETE"; pathname := str "/api/external-service";
                    authorization := None; json_body := None |} in
  fetch WebCrypto.platform quiet_runtime request test_env empty_world
  = (Ok (if jsstring_eqb (method request) (str "OPTIONS") then
           {| status := 200; body := NoBody; retry_after_header := None |}
         else if jsstring_eqb (pathname request) (str "/api/external-service")
                 || jsstring_eqb (pathname request) (str "/api/token") then
           json_response 405 (ErrorBody (str "Method not allowed"))
         else
           {| status := 404; body := TextBody (str "Not Found");
              retry_after_header := None |}),
     empty_world).
Proof.
  cbv zeta.
  apply (answered_by_routing WebCrypto.platform quiet_runtime
           {| method := str "DELETE"; pathname := str "/api/external-service";
              authorization := None; json_body := None |} test_env empty_world).
  left. discriminate.
Defined.

(** X17.  A POST to [/api/external-service] without an Authorization header, or
    with one that does not start with [Bearer ] (in this case and with
    the space), is answered with 401 and the error of a missing header;
    nothing is read or written. *)
Theorem missing_bearer_header_is_401
    (P : Platform) (rt : Runtime) (request : Request) (env : Env) (w : World) :
  method request = str "POST" ->
  pathname request = str "/api/external-service" ->
  match authorization request with
  | None => True
  | Some authHeader => startsWith (str "Bearer ") authHeader = false
  end ->
  fetch P rt request env w
  = (Ok (json_response 401
           (ErrorBody (str "Missing or invalid authorization header"))), w).
Proof.
  intros Hmethod Hpath Hauth.
  rewrite fetch_external_service by assumption.
  unfold tryM, handleExternalApiRequest, authenticateUser.
  rewrite Hmethod, jsstring_eqb_refl. cbn [negb].
  destruct (authorization request) as [authHeader|]; [|reflexivity].
  rewrite Hauth. cbn [negb]. rewrite orb_true_r. reflexivity.
Qed.

Lemma missing_bearer_header_is_401_witness :
  fetch WebCrypto.platform quiet_runtime
    {| method := str "POST"; pathname := str "/api/external-service";
       authorization := Some (str "bearer " ++ accepted_token);
       json_body := Some (JObj []) |} test_env empty_world
  = (Ok (json_response 401
           (ErrorBody (str "Missing or invalid authorization header"))), empty_world).
Proof.
  apply (missing_bearer_header_is_401 WebCrypto.platform quiet_runtime
           {| method := str "POST"; pathname := str "/api/external-service";
              authorization := Some (str "bearer " ++ accepted_token);
              json_body := Some (JObj []) |} test_env empty_world).
  - reflexivity.
  - reflexivity.
  - reflexivity.
Defined.

Lemma startsWith_prefix p s :
  startsWith p s = true -> s = p ++ substring (length p) s.
Proof.
  revert s. induction p as [|c p IH]; intros s; cbn [startsWith]; [reflexivity|].
  destruct s as [|d s]; [discriminate|].
  destruct (N.eqb_spec c d) as [->|]; [|discriminate].
  cbn [andb]. intros H. apply IH in H.
  cbn [length app]. unfold substring in *. cbn [skipn]. now f_equal.
Qed.

(** X18.  [authenticateUser] succeeds only for a header [Bearer <token>] whose
    token [verifyAnonymousToken] accepts, at the time of the check, under
    the string the [env] object converts to; the identity and the two
    times it reports are those of the token's payload, whose [type] is
    ['anonymous']. *)
Theorem authentication_sound
    (P : Platform) (rt : Runtime) (request : Request) (env : Env)
    (userId issuedAt expiresAt : option json) :
  authenticateUser P rt request env = AuthSuccess userId issuedAt expiresAt ->
  exists token payload,
    authorization request = Some (str "Bearer " ++ token) /\
    verifyAnonymousToken P token (str "[object Object]") (now_verifyJWT rt) = Ok payload /\
    get_prop payload (str "userId") = Ok userId /\
    get_prop payload (str "iat") = Ok issuedAt /\
    get_prop payload (str "exp") = Ok expiresAt /\
    exists type,
      get_prop payload (str "type") = Ok type /\
      strict_neq_string type anonymous = false.
Proof.
  unfold authenticateUser. intros H.
  destruct (authorization request) as [authHeader|]; [|discriminate].
  destruct (not_string authHeader); [discriminate|]. cbn [orb] in H.
  destruct (startsWith (str "Bearer ") authHeader) eqn:Hprefix; [|discriminate].
  cbn [negb] in H. apply startsWith_prefix in Hprefix.
  change (length (str "Bearer ")) with 7%nat in Hprefix.
  unfold env_as_secret in H.
  set (token := substring 7 authHeader) in *.
  destruct (verifyAnonymousToken P token (str "[object Object]") (now_verifyJWT rt))
    as [payload|e] eqn:Hverify; [|discriminate].
  cbn [bindO] in H.
  destruct (get_prop payload (str "userId")) as [u|] eqn:Hu; [|discriminate].
  destruct (get_prop payload (str "iat")) as [i|] eqn:Hi; [|discriminate].
  destruct (get_prop payload (str "exp")) as [x|] eqn:Hx; [|discriminate].
  cbn [bindO] in H. injection H as <- <- <-.
  exists token, payload.
  split; [now f_equal|]. split; [exact Hverify|].
  split; [exact Hu|]. split; [exact Hi|]. split; [exact Hx|].
  unfold verifyAnonymousToken in Hverify.
  destruct (verifyJWT P token (str "[object Object]") (now_verifyJWT rt))
    as [verified|] eqn:Hjwt; [|discriminate].
  cbn [bindO] in Hverify.
  destruct (get_prop verified (str "type")) as [type|] eqn:Htype; [|discriminate].
  cbn [bindO] in Hverify.
  destruct (strict_neq_string type anonymous) eqn:Hneq; [discriminate|].
  cbn [try_catch] in Hverify. injection Hverify as <-.
  exists type. split; [exact Htype|exact Hneq].
Qed.

Lemma authentication_sound_witness :
  exists token payload,
    authorization request_without_json = Some (str "Bearer " ++ token) /\
    verifyAnonymousToken WebCrypto.platform token (str "[object Object]")
      (now_verifyJWT quiet_runtime) = Ok payload /\
    get_prop payload (str "userId") = Ok (Some (JStr (str "anon_1_ab"))) /\
    get_prop payload (str "iat") = Ok (Some (JNum 1700000000)) /\
    get_prop payload (str "exp") = Ok (Some (JNum 1702592000)) /\
    exists type,
      get_prop payload (str "type") = Ok type /\
      strict_neq_string type anonymous = false.
Proof.
  apply (authentication_sound WebCrypto.platform quiet_runtime request_without_json
           test_env).
  vm_compute. reflexivity.
Defined.

(** X19.  An authenticated request whose identity the template literal
    converts to a string and whose window is full is answered with 429:
    the body and the Retry-After header carry the retry hint, in decimal
    in the header.  Only the rate-limit record is read; the body of the
    request is not read, the downstream service is not called and nothing
    is written. *)
Theorem throttled_request_is_429
    (P : Platform) (rt : Runtime) (request : Request) (env : Env) (w : World)
    (userId issuedAt expiresAt : option json) (id : list N) :
  method request = str "POST" ->
  pathname request = str "/api/external-service" ->
  authenticateUser P rt request env = AuthSuccess userId issuedAt expiresAt ->
  template_value userId = Ok id ->
  let now := now_checkRateLimit rt in
  let remaining := remaining_requests id now w in
  kv_faults rt (RateLimitGet (rate_limit_key id)) = false ->
  maxRequests <= Z.of_nat (length remaining) ->
  let seconds := ceil_div (Math_min remaining + windowMs - now) 1000 in
  fetch P rt request env w
  = (Ok {| status := 429;
           body := RateLimitBody (str "Rate limit exceeded") seconds;
           retry_after_header := Some (number_units seconds) |},
     log (KvEvent (RateLimitGet (rate_limit_key id)) false) w).
Proof.
  intros Hmethod Hpath Hauth Hid now remaining Hget Hfull seconds.
  rewrite fetch_external_service by assumption.
  unfold handleExternalApiRequest. rewrite Hmethod, jsstring_eqb_refl, Hauth, Hid.
  cbn [negb]. fold now. unfold tryM, bindM, liftO.
  rewrite checkRateLimit_run. cbv zeta. fold remaining. rewrite Hget.
  destruct (Z.leb_spec maxRequests (Z.of_nat (length remaining))); [|lia].
  reflexivity.
Qed.

Lemma throttled_request_is_429_witness :
  let request := {| method := str "POST"; pathname := str "/api/external-service";
                    authorization := Some (str "Bearer " ++ accepted_token);
                    json_body := Some (JObj []) |} in
  let rt := {| kv_faults := no_faults;
               now_verifyJWT := 1700000005000;
               now_checkRateLimit := 150000;
               now_updateUserStats := 150000;
               now_generateAnonymousUserId := 0;
               now_generateAnonymousToken := 0;
               now_initializeUserStats := 0;
               now_handleTokenRequest := 0;
               now_processApiResponse := 0;
               random_bytes := [];
               downstream := None |} in
  let w := full_window_world (str "anon_1_ab") in
  let id := str "anon_1_ab" in
  let remaining := remaining_requests id 150000 w in
  let seconds := ceil_div (Math_min remaining + windowMs - 150000) 1000 in
  fetch WebCrypto.platform rt request test_env w
  = (Ok {| status := 429;
           body := RateLimitBody (str "Rate limit exceeded") seconds;
           retry_after_header := Some (number_units seconds) |},
     log (KvEvent (RateLimitGet (rate_limit_key id)) false) w).
Proof.
  cbv zeta.
  apply (throttled_request_is_429 WebCrypto.platform
           {| kv_faults := no_faults;
              now_verifyJWT := 1700000005000;
              now_checkRateLimit := 150000;
              now_updateUserStats := 150000;
              now_generateAnonymousUserId := 0;
              now_generateAnonymousToken := 0;
              now_initializeUserStats := 0;
              now_handleTokenRequest := 0;
              now_processApiResponse := 0;
              random_bytes := [];
              downstream := None |}
           {| method := str "POST"; pathname := str "/api/external-service";
              authorization := Some (str "Bearer " ++ accepted_token);
              json_body := Some (JObj []) |}
           test_env (full_window_world (str "anon_1_ab"))
           (Some (JStr (str "anon_1_ab"))) (Some (JNum 1700000000))
           (Some (JNum 1702592000)) (str "anon_1_ab")).
  - reflexivity.
  - reflexivity.
  - vm_compute. reflexivity.
  - reflexivity.
  - reflexivity.
  - vm_compute. discriminate.
Defined.

(** X20.  An authenticated request whose identity the template literal
    converts to a string, that the limiter admits, for whatever reason
    (also because the KV store failed), and whose body is JSON, is handed
    to the downstream service.  The downstream status and body are
    passed through, with the time of processing added; a downstream
    failure, or a status no response with a body can carry, gives 503. *)
Theorem admitted_request_is_proxied
    (P : Platform) (rt : Runtime) (request : Request) (env : Env) (w : World)
    (userId issuedAt expiresAt : option json) (id : list N) (requestBody : json) :
  method request = str "POST" ->
  pathname request = str "/api/external-service" ->
  authenticateUser P rt request env = AuthSuccess userId issuedAt expiresAt ->
  template_value userId = Ok id ->
  json_body request = Some requestBody ->
  let limited :=
    checkRateLimit (kv_faults rt) id (now_checkRateLimit rt) (now_updateUserStats rt) w in
  fst limited = Ok allow ->
  let unavailable := json_response 503 (ErrorBody (str "External service unavailable")) in
  fetch P rt request env w
  = match downstream rt with
    | Some (s, data) =>
        (Ok (if (200 <=? s) && (s <=? 599)
                && negb ((s =? 204) || (s =? 205) || (s =? 304))
             then {| status := s; body := ProxyBody data (now_processApiResponse rt);
                     retry_after_header := None |}
             else unavailable),
         log (DownstreamFetch false) (log (BodyRead false) (snd limited)))
    | None =>
        (Ok unavailable,
         log (DownstreamFetch true) (log (BodyRead false) (snd limited)))
    end.
Proof.
  intros Hmethod Hpath Hauth Hid Hbody limited Hallow unavailable.
  rewrite fetch_external_service by assumption.
  unfold handleExternalApiRequest. rewrite Hmethod, jsstring_eqb_refl, Hauth, Hid.
  cbn [negb]. unfold tryM at 1. unfold bindM at 1 2. unfold liftO. fold limited.
  destruct limited as [o w1]. cbn [fst snd] in *. subst o.
  cbn [allowed allow negb].
  unfold bindM, tryM, read_json_body, fetch_external, new_Response, ret, reject.
  rewrite Hbody.
  destruct (downstream rt) as [[s data]|]; [|reflexivity].
  cbn [fst snd].
  destruct ((200 <=? s) && (s <=? 599) && negb ((s =? 204) || (s =? 205) || (s =? 304)));
    reflexivity.
Qed.

Lemma admitted_request_is_proxied_witness :
  let request := {| method := str "POST"; pathname := str "/api/external-service";
                    authorization := Some (str "Bearer " ++ accepted_token);
                    json_body := Some (JObj []) |} in
  let limited :=
    checkRateLimit no_faults (str "anon_1_ab") 1700000005001 1700000005002 empty_world in
  let unavailable := json_response 503 (ErrorBody (str "External service unavailable")) in
  fetch WebCrypto.platform quiet_runtime request test_env empty_world
  = match downstream quiet_runtime with
    | Some (s, data) =>
        (Ok (if (200 <=? s) && (s <=? 599)
                && negb ((s =? 204) || (s =? 205) || (s =? 304))
             then {| status := s; body := ProxyBody data 1700000005003;
                     retry_after_header := None |}
             else unavailable),
         log (DownstreamFetch false) (log (BodyRead false) (snd limited)))
    | None =>
        (Ok unavailable,
         log (DownstreamFetch true) (log (BodyRead false) (snd limited)))
    end.
Proof.
  cbv zeta.
  apply (admitted_request_is_proxied WebCrypto.platform quiet_runtime
           {| method := str "POST"; pathname := str "/api/external-service";
              authorization := Some (str "Bearer " ++ accepted_token);
              json_body := Some (JObj []) |}
           test_env empty_world
           (Some (JStr (str "anon_1_ab"))) (Some (JNum 1700000000))
           (Some (JNum 1702592000)) (str "anon_1_ab") (JObj [])).
  - reflexivity.
  - reflexivity.
  - vm_compute. reflexivity.
  - reflexivity.
  - reflexivity.
  - vm_compute. reflexivity.
Defined.

(** X21.  A POST to [/api/token].  If the secret can be imported as a key, the
    answer is 200 with the token [generateAnonymousToken] makes for the
    generated identity, the identity, an [expiresAt] 30 days after the
    clock reading of the handler and the limits 100 per 3600000 ms; the
    only effect is the write of a fresh usage record, and the answer is
    the same when that write is rejected.  If the secret cannot be
    imported, the answer is 500 and nothing is written. *)
Theorem token_request_outcome
    (P : Platform) (rt : Runtime) (request : Request) (env : Env) (w : World) :
  method request = str "POST" ->
  pathname request = str "/api/token" ->
  let id := generateAnonymousUserId (now_generateAnonymousUserId rt) (random_bytes rt) in
  let fresh := {| createdAt := now_initializeUserStats rt; totalRequests := 0;
                  lastRequestAt := None; dailyRequests := ∅ |} in
  let put := UserStatsPut (stats_key id) fresh in
  let r := fetch P rt request env w in
  if hmac_key_ok P (JWT_SECRET env) then
    exists token,
      generateAnonymousToken P id (JWT_SECRET env) (now_generateAnonymousToken rt)
        = Ok token /\
      fst r = Ok (json_response 200
                    (TokenBody token id (now_handleTokenRequest rt + 2592000000)
                       100 3600000)) /\
      RATE_LIMIT_KV (snd r) = RATE_LIMIT_KV w /\
      USER_STATS_KV (snd r)
        = (if kv_faults rt put then USER_STATS_KV w
           else <[stats_key id := fresh]> (USER_STATS_KV w)) /\
      trace (snd r) = trace w ++ [KvEvent put (kv_faults rt put)]
  else
    r = (Ok (json_response 500 (ErrorBody (str "Token generation failed"))), w).
Proof.
  intros Hmethod Hpath id fresh put r. subst r.
  unfold fetch. rewrite Hmethod, Hpath.
  change (jsstring_eqb (str "POST") (str "OPTIONS")) with false.
  change (jsstring_eqb (str "/api/token") (str "/api/external-service")) with false.
  cbv iota. rewrite jsstring_eqb_refl.
  unfold handleTokenRequest. rewrite Hmethod, jsstring_eqb_refl. cbn [negb].
  fold id.
  destruct (hmac_key_ok P (JWT_SECRET env)) eqn:Hkey.
  - assert (Hsign : exists token,
      generateAnonymousToken P id (JWT_SECRET env) (now_generateAnonymousToken rt)
      = Ok token).
    { unfold generateAnonymousToken. eexists. apply signJWT_token; [|exact Hkey].
      apply stringify_payload_latin1;
        [apply generated_identity_latin1|apply str_latin1]. }
    destruct Hsign as [token Hsign]. exists token. split; [exact Hsign|].
    unfold tryM, bindM, liftO. rewrite Hsign.
    unfold initializeUserStats, tryM, user_stats_put, ret. fold fresh put.
    destruct (kv_faults rt put); cbn [fst snd log RATE_LIMIT_KV USER_STATS_KV trace];
      repeat split.
  - unfold tryM, bindM, liftO, generateAnonymousToken, signJWT.
    destruct stringify_header_segment as [Hh Hhne].
    destruct (btoa_bytes_segment _ Hh Hhne) as (-> & _).
    cbn [of_option bindO].
    destruct (btoa (JSON_stringify _)); cbn [of_option bindO]; [rewrite Hkey|];
      reflexivity.
Qed.

Lemma token_request_outcome_witness :
  let request := {| method := str "POST"; pathname := str "/api/token";
                    authorization := None; json_body := None |} in
  let id := generateAnonymousUserId 1700000000000 (repeat Byte.x2a 16) in
  let fresh := {| createdAt := 1700000000002; totalRequests := 0;
                  lastRequestAt := None; dailyRequests := ∅ |} in
  let put := UserStatsPut (stats_key id) fresh in
  let r := fetch WebCrypto.platform quiet_runtime request test_env empty_world in
  if hmac_key_ok WebCrypto.platform (JWT_SECRET test_env) then
    exists token,
      generateAnonymousToken WebCrypto.platform id (JWT_SECRET test_env) 1700000000001
        = Ok token /\
      fst r = Ok (json_response 200
                    (TokenBody token id (1700000000003 + 2592000000) 100 3600000)) /\
      RATE_LIMIT_KV (snd r) = RATE_LIMIT_KV empty_world /\
      USER_STATS_KV (snd r)
        = (if no_faults put then USER_STATS_KV empty_world
           else <[stats_key id := fresh]> (USER_STATS_KV empty_world)) /\
      trace (snd r) = trace empty_world ++ [KvEvent put (no_faults put)]
  else
    r = (Ok (json_response 500 (ErrorBody (str "Token generation failed"))), empty_world).
Proof.
  cbv zeta.
  apply (token_request_outcome WebCrypto.platform quiet_runtime
           {| method := str "POST"; pathname := str "/api/token";
              authorization := None; json_body := None |} test_env empty_world).
  - reflexivity.
  - reflexivity.
Defined.

Lemma checkRateLimit_resolves faulty userId now now_stats w :
  exists result events,
    checkRateLimit faulty userId now now_stats w
    = (Ok result,
       {| RATE_LIMIT_KV := RATE_LIMIT_KV (snd (checkRateLimit faulty userId now now_stats w));
          USER_STATS_KV := USER_STATS_KV (snd (checkRateLimit faulty userId now now_stats w));
          trace := trace w ++ events |}) /\
    (result = allow \/ exists seconds, result = deny seconds).
Proof.
  rewrite checkRateLimit_run. cbv zeta.
  repeat match goal with
         | |- context [if ?c then _ else _] => destruct c
         end;
    try (eexists _, _; split; [reflexivity|]; first [now left|right; eauto]).
  - eexists _, [_; _]. unfold log. cbn [snd RATE_LIMIT_KV USER_STATS_KV trace].
    rewrite <- app_assoc. split; [reflexivity|now left].
  - match goal with
    | |- context [updateUserStats faulty userId now_stats ?w1] =>
        pose proof (updateUserStats_trace faulty userId now_stats w1) as [events Htr];
        destruct (updateUserStats faulty userId now_stats w1) as [o [rl us tr]]
    end.
    cbn [snd trace log RATE_LIMIT_KV USER_STATS_KV] in *. subst tr.
    eexists _, (_ :: _ :: events). rewrite <- !app_assoc.
    split; [reflexivity|now left].
Qed.

(** X22.  The worker answers every request: [fetch] never rejects.  The status
    is 200, 400, 401, 404, 405, 429, 500 or 503, or the status the
    downstream service answered with; and whatever the request did is
    appended to what was done before. *)
Theorem fetch_always_answers
    (P : Platform) (rt : Runtime) (request : Request) (env : Env) (w : World) :
  exists response w' events,
    fetch P rt request env w = (Ok response, w') /\
    trace w' = trace w ++ events /\
    (In (status response) [200; 400; 401; 404; 405; 429; 500; 503] \/
     exists data, downstream rt = Some (status response, data)).
Proof.
  unfold fetch.
  destruct (jsstring_eqb (method request) (str "OPTIONS")).
  { eexists _, _, []. rewrite app_nil_r. split; [reflexivity|].
    split; [reflexivity|]. left. cbn. tauto. }
  destruct (jsstring_eqb (pathname request) (str "/api/external-service")).
  - unfold tryM at 1. unfold handleExternalApiRequest.
    destruct (negb (jsstring_eqb (method request) (str "POST"))).
    { eexists _, _, []. rewrite app_nil_r. split; [reflexivity|].
      split; [reflexivity|]. left. cbn. tauto. }
    destruct (authenticateUser P rt request env) as [userId issuedAt expiresAt|error].
    2:{ eexists _, _, []. rewrite app_nil_r. split; [reflexivity|].
        split; [reflexivity|]. left. cbn. tauto. }
    unfold bindM at 1. unfold liftO.
    destruct (template_value userId) as [id|e].
    2:{ eexists _, _, []. rewrite app_nil_r. split; [reflexivity|].
        split; [reflexivity|]. left. cbn. tauto. }
    unfold bindM at 1.
    destruct (checkRateLimit_resolves (kv_faults rt) id
                (now_checkRateLimit rt) (now_updateUserStats rt) w)
      as (result & events & -> & Hresult).
    destruct Hresult as [->|[seconds ->]]; cbn [allowed allow deny negb retryAfter].
    + unfold bindM, tryM, read_json_body, fetch_external, new_Response, ret, reject.
      destruct (json_body request) as [requestBody|].
      * destruct (downstream rt) as [[s data]|] eqn:Hdown.
        -- cbn [fst snd].
           destruct ((200 <=? s) && (s <=? 599)
                     && negb ((s =? 204) || (s =? 205) || (s =? 304))).
           ++ eexists _, _, (events ++ [_; _]). split; [reflexivity|].
              split; [cbn [log trace]; now rewrite <- !app_assoc|].
              right. exists data. reflexivity.
           ++ eexists _, _, (events ++ [_; _]). split; [reflexivity|].
              split; [cbn [log trace]; now rewrite <- !app_assoc|].
              left. cbn. tauto.
        -- eexists _, _, (events ++ [_; _]). split; [reflexivity|].
           split; [cbn [log trace]; now rewrite <- !app_assoc|].
           left. cbn. tauto.
      * eexists _, _, (events ++ [_]). split; [reflexivity|].
        split; [cbn [log trace]; now rewrite <- !app_assoc|].
        left. cbn. tauto.
    + eexists _, _, events. split; [reflexivity|].
      split; [reflexivity|]. left. cbn. tauto.
  - destruct (jsstring_eqb (pathname request) (str "/api/token")).
    + unfold tryM at 1. unfold handleTokenRequest.
      destruct (negb (jsstring_eqb (method request) (str "POST"))).
      { eexists _, _, []. rewrite app_nil_r. split; [reflexivity|].
        split; [reflexivity|]. left. cbn. tauto. }
      unfold tryM, bindM, liftO.
      destruct (generateAnonymousToken P _ (JWT_SECRET env) _).
      * unfold initializeUserStats, tryM, user_stats_put, ret.
        destruct (kv_faults rt _);
          (eexists _, _, [_]; split; [reflexivity|];
           split; [reflexivity|]; left; cbn; tauto).
      * eexists _, _, []. rewrite app_nil_r. split; [reflexivity|].
        split; [reflexivity|]. left. cbn. tauto.
    + eexists _, _, []. rewrite app_nil_r. split; [reflexivity|].
      split; [reflexivity|]. left. cbn. tauto.
Qed.

(** ** Tokens the service accepts and rejects *)

(** X23.  A token whose signature segment does not decode to the MAC of
    [header.payload] under the secret is rejected whatever its payload
    says and whatever the time is: the payload is not decoded before the
    signature is checked. *)
Theorem unsigned_token_rejected
    (P : Platform) (token secret : list N) (now : Z)
    (h p s : list N) (rest : list (list N)) :
  split DOT token = h :: p :: s :: rest ->
  h <> [] -> p <> [] -> s <> [] ->
  hmac_key_ok P secret = true ->
  (forall signature_text,
     atob s = Some signature_text ->
     Uint8Array_from signature_text <> hmac P secret (h ++ DOT :: p)) ->
  (exists e,
     verifyJWT P token secret now = Throw (Err_TokenVerificationFailed e) /\
     (e = Err_InvalidCharacter \/ e = Err_InvalidSignature)) /\
  verifyAnonymousToken P token secret now = Throw Err_InvalidAnonymousToken.
Proof.
  intros Hsplit Hh Hp Hs Hkey Hbad.
  assert (Hv : exists e,
     verifyJWT P token secret now = Throw (Err_TokenVerificationFailed e) /\
     (e = Err_InvalidCharacter \/ e = Err_InvalidSignature)).
  { unfold verifyJWT. rewrite Hsplit. cbn [nth].
    destruct h; [congruence|]. destruct p; [congruence|]. destruct s; [congruence|].
    cbn [not_string orb]. rewrite Hkey.
    match goal with
    | |- context [atob ?x] => destruct (atob x) as [signature_text|] eqn:Hatob
    end.
    - cbn [of_option bindO].
      destruct (bytes_eqb (Uint8Array_from signature_text) _) eqn:Hsig.
      + apply bytes_eqb_eq in Hsig. now apply Hbad in Hsig.
      + eexists. split; [reflexivity|now right].
    - eexists. split; [reflexivity|now left]. }
  split; [exact Hv|].
  destruct Hv as (e & Hv & _). unfold verifyAnonymousToken. now rewrite Hv.
Qed.

Lemma unsigned_token_rejected_witness :
  let token := signing_input accepted_payload ++ DOT :: str "AAAA" in
  (exists e,
     verifyJWT WebCrypto.platform token (str "secret") 1700000005000
       = Throw (Err_TokenVerificationFailed e) /\
     (e = Err_InvalidCharacter \/ e = Err_InvalidSignature)) /\
  verifyAnonymousToken WebCrypto.platform token (str "secret") 1700000005000
    = Throw Err_InvalidAnonymousToken.
Proof.
  cbv zeta.
  apply (unsigned_token_rejected WebCrypto.platform
           (signing_input accepted_payload ++ DOT :: str "AAAA") (str "secret")
           1700000005000
           (btoa_bytes (JSON_stringify jwt_header))
           (btoa_bytes (JSON_stringify accepted_payload))
           (str "AAAA") []).
  - vm_compute. reflexivity.
  - discriminate.
  - discriminate.
  - discriminate.
  - reflexivity.
  - intros signature_text H. vm_compute in H. injection H as <-.
    vm_compute. discriminate.
Defined.

(** X24.  [authenticateUser] does not look at [env.JWT_SECRET]: in every
    environment it accepts the token [signJWT] makes of an anonymous
    payload under the string [[object Object]], and reports the identity
    and times of that payload. *)
Theorem authentication_ignores_secret
    (P : Platform) (rt : Runtime) (env : Env) (id : list N) (iat exp : Z) :
  hmac_sha256_output P ->
  hmac_key_ok P (str "[object Object]") = true ->
  Forall (fun c => (c <= 255)%N) id ->
  now_verifyJWT rt <= exp * 1000 ->
  exists token,
    signJWT P (payload_object id iat exp anonymous) (str "[object Object]") = Ok token /\
    forall request,
      authorization request = Some (str "Bearer " ++ token) ->
      authenticateUser P rt request env
      = AuthSuccess (Some (JStr id)) (Some (JNum iat)) (Some (JNum exp)).
Proof.
  intros Hmac Hkey Hid Hnow.
  destruct (signed_payload_verifies P id anonymous (str "[object Object]") iat exp
              (now_verifyJWT rt))
    as (token & Hsign & Hverify); try assumption; [apply str_latin1|].
  exists token. split; [exact Hsign|].
  intros request Hauth. unfold authenticateUser. rewrite Hauth.
  rewrite startsWith_app. cbn [negb orb].
  change (not_string (str "Bearer " ++ token)) with false. cbv iota.
  change (substring 7 (str "Bearer " ++ token)) with token.
  unfold env_as_secret, verifyAnonymousToken. rewrite Hverify. reflexivity.
Qed.

Lemma authentication_ignores_secret_witness :
  exists token,
    signJWT WebCrypto.platform
      (payload_object (str "anon_1_ab") 1700000000 1702592000 anonymous)
      (str "[object Object]") = Ok token /\
    forall request,
      authorization request = Some (str "Bearer " ++ token) ->
      authenticateUser WebCrypto.platform quiet_runtime request test_env
      = AuthSuccess (Some (JStr (str "anon_1_ab"))) (Some (JNum 1700000000))
          (Some (JNum 1702592000)).
Proof.
  apply (authentication_ignores_secret WebCrypto.platform quiet_runtime test_env
           (str "anon_1_ab") 1700000000 1702592000).
  - exact platform_mac_length.
  - reflexivity.
  - apply str_latin1.
  - vm_compute. discriminate.
Defined.

(** ** The retry hint *)

Lemma filter_length_lt {A} (f : A -> bool) (l : list A) (x : A) :
  In x l -> f x = false -> (length (List.filter f l) < length l)%nat.
Proof.
  intros Hin Hx. induction l as [|y l IH]; [destruct Hin|].
  cbn [List.filter]. pose proof (List.filter_length_le f l) as Hle.
  destruct Hin as [->|Hin].
  - rewrite Hx. cbn [length]. lia.
  - specialize (IH Hin). destruct (f y); cbn [length]; lia.
Qed.

(** X25.  The retry hint is exact to the second for a record of at most
    [maxRequests] timestamps: once [retryAfter] seconds have passed the
    identity is admitted again, and up to one second before that it is
    still denied. *)
Theorem retry_hint_is_exact
    (faulty : KvCall -> bool) (userId : list N) (now now_stats : Z) (w : World)
    (seconds : Z) (now' now_stats' : Z) :
  Z.of_nat (length (stored_requests userId w)) <= maxRequests ->
  fst (checkRateLimit faulty userId now now_stats w) = Ok (deny seconds) ->
  (now + 1000 * seconds <= now' ->
   forall faulty',
     fst (checkRateLimit faulty' userId now' now_stats' w) = Ok allow) /\
  (now <= now' <= now + 1000 * (seconds - 1) ->
   exists seconds',
     fst (checkRateLimit faulty userId now' now_stats' w) = Ok (deny seconds') /\
     1 <= seconds' <= seconds).
Proof.
  intros Hsize. rewrite checkRateLimit_run. cbv zeta.
  destruct (faulty (RateLimitGet (rate_limit_key userId))) eqn:Hget; [discriminate|].
  destruct (Z.leb_spec maxRequests (Z.of_nat (length (remaining_requests userId now w))))
    as [Hfull|_]; [|destruct (faulty (RateLimitPut _ _ _)); discriminate].
  cbn [fst]. intros [= <-].
  set (remaining := remaining_requests userId now w) in *.
  assert (Hne : remaining <> []).
  { intros E. rewrite E in Hfull. cbn in Hfull. unfold maxRequests in Hfull. lia. }
  destruct (Math_min_spec remaining Hne) as [Hin Hleast].
  set (oldest := Math_min remaining) in *.
  pose proof (ceil_div_spec (oldest + windowMs - now) 1000 ltac:(lia)) as Hceil.
  set (seconds := ceil_div (oldest + windowMs - now) 1000) in *.
  split.
  - intros Hlater faulty'. rewrite checkRateLimit_run. cbv zeta.
    destruct (faulty' (RateLimitGet (rate_limit_key userId))); [reflexivity|].
    assert (Hroom : Z.of_nat (length (remaining_requests userId now' w)) < maxRequests).
    { unfold remaining_requests.
      assert (Hstored : In oldest (stored_requests userId w)).
      { unfold remaining, remaining_requests in Hin.
        now apply filter_In in Hin as [Hin _]. }
      pose proof (filter_length_lt (fun timestamp => now' - timestamp <? windowMs)
                    (stored_requests userId w) oldest Hstored) as Hlt.
      assert (Hout : (now' - oldest <? windowMs) = false) by (apply Z.ltb_ge; lia).
      specialize (Hlt Hout). lia. }
    destruct (Z.leb_spec maxRequests (Z.of_nat (length (remaining_requests userId now' w))));
      [lia|].
    destruct (faulty' _); reflexivity.
  - intros Hsoon. rewrite checkRateLimit_run. cbv zeta. rewrite Hget.
    assert (Hsame : remaining_requests userId now' w = remaining).
    { unfold remaining, remaining_requests. apply filter_ext_in. intros t Ht.
      destruct (Z.ltb_spec (now - t) windowMs) as [Hnow|Hnow].
      - assert (Hmember : In t remaining).
        { unfold remaining, remaining_requests. apply filter_In. split; [exact Ht|].
          now apply Z.ltb_lt. }
        apply Hleast in Hmember. apply Z.ltb_lt. lia.
      - apply Z.ltb_ge. lia. }
    rewrite Hsame.
    destruct (Z.leb_spec maxRequests (Z.of_nat (length remaining))); [|lia].
    eexists. split; [reflexivity|]. fold oldest.
    pose proof (ceil_div_spec (oldest + windowMs - now') 1000 ltac:(lia)) as Hceil'.
    lia.
Qed.

Lemma retry_hint_is_exact_witness :
  let w := full_window_world (str "anon_1_ab") in
  (150000 + 1000 * 3450 <= 3600000 ->
   forall faulty',
     fst (checkRateLimit faulty' (str "anon_1_ab") 3600000 3600000 w) = Ok allow) /\
  (150000 <= 3600000 <= 150000 + 1000 * (3450 - 1) ->
   exists seconds',
     fst (checkRateLimit no_faults (str "anon_1_ab") 3600000 3600000 w)
       = Ok (deny seconds') /\
     1 <= seconds' <= 3450).
Proof.
  cbv zeta.
  apply (retry_hint_is_exact no_faults (str "anon_1_ab") 150000 150000
           (full_window_world (str "anon_1_ab")) 3450 3600000 3600000).
  - vm_compute. discriminate.
  - vm_compute. reflexivity.
Defined.

(** ** An outage of the rate-limit namespace, and the age of a record *)

(** X26.  While reads of the rate-limit namespace are rejected, every
    authenticated request with an identity the template literal converts
    to a string and with a JSON body reaches the downstream service, a
    full window included, and none of them is recorded: the only KV call
    is the rejected read. *)
Theorem kv_outage_lifts_the_limit
    (P : Platform) (rt : Runtime) (request : Request) (env : Env) (w : World)
    (userId issuedAt expiresAt : option json) (id : list N) (requestBody : json)
    (s : Z) (data : json) :
  method request = str "POST" ->
  pathname request = str "/api/external-service" ->
  authenticateUser P rt request env = AuthSuccess userId issuedAt expiresAt ->
  template_value userId = Ok id ->
  json_body request = Some requestBody ->
  kv_faults rt (RateLimitGet (rate_limit_key id)) = true ->
  downstream rt = Some (s, data) ->
  200 <= s <= 599 -> s <> 204 -> s <> 205 -> s <> 304 ->
  fetch P rt request env w
  = (Ok {| status := s; body := ProxyBody data (now_processApiResponse rt);
           retry_after_header := None |},
     {| RATE_LIMIT_KV := RATE_LIMIT_KV w;
        USER_STATS_KV := USER_STATS_KV w;
        trace := trace w ++
          [KvEvent (RateLimitGet (rate_limit_key id)) true;
           BodyRead false; DownstreamFetch false] |}).
Proof.
  intros Hmethod Hpath Hauth Hid Hbody Hget Hdown Hs H204 H205 H304.
  rewrite fetch_external_service by assumption.
  unfold handleExternalApiRequest. rewrite Hmethod, jsstring_eqb_refl, Hauth, Hid.
  cbn [negb]. unfold tryM at 1. unfold bindM at 1 2. unfold liftO.
  rewrite checkRateLimit_run. cbv zeta. rewrite Hget.
  cbn [allowed allow negb].
  unfold bindM, tryM, read_json_body, fetch_external, new_Response, ret, reject.
  rewrite Hbody, Hdown. cbn [fst snd].
  replace ((200 <=? s) && (s <=? 599) && negb ((s =? 204) || (s =? 205) || (s =? 304)))
    with true.
  - unfold log. cbn [RATE_LIMIT_KV USER_STATS_KV trace].
    now rewrite <- !app_assoc.
  - symmetry. apply andb_true_intro. split.
    + apply andb_true_intro. split; [apply Z.leb_le|apply Z.leb_le]; lia.
    + apply negb_true_iff.
      apply Z.eqb_neq in H204, H205, H304. now rewrite H204, H205, H304.
Qed.

Lemma kv_outage_lifts_the_limit_witness :
  let rt := {| kv_faults := fun call =>
                 match call with RateLimitGet _ => true | _ => false end;
               now_verifyJWT := 1700000005000;
               now_checkRateLimit := 150000;
               now_updateUserStats := 150000;
               now_generateAnonymousUserId := 0;
               now_generateAnonymousToken := 0;
               now_initializeUserStats := 0;
               now_handleTokenRequest := 0;
               now_processApiResponse := 150001;
               random_bytes := [];
               downstream := Some (200, JObj []) |} in
  let request := {| method := str "POST"; pathname := str "/api/external-service";
                    authorization := Some (str "Bearer " ++ accepted_token);
                    json_body := Some (JObj []) |} in
  let w := full_window_world (str "anon_1_ab") in
  fetch WebCrypto.platform rt request test_env w
  = (Ok {| status := 200; body := ProxyBody (JObj []) 150001;
           retry_after_header := None |},
     {| RATE_LIMIT_KV := RATE_LIMIT_KV w;
        USER_STATS_KV := USER_STATS_KV w;
        trace := trace w ++
          [KvEvent (RateLimitGet (rate_limit_key (str "anon_1_ab"))) true;
           BodyRead false; DownstreamFetch false] |}).
Proof.
  cbv zeta.
  apply (kv_outage_lifts_the_limit WebCrypto.platform
           {| kv_faults := fun call =>
                match call with RateLimitGet _ => true | _ => false end;
              now_verifyJWT := 1700000005000;
              now_checkRateLimit := 150000;
              now_updateUserStats := 150000;
              now_generateAnonymousUserId := 0;
              now_generateAnonymousToken := 0;
              now_initializeUserStats := 0;
              now_handleTokenRequest := 0;
              now_processApiResponse := 150001;
              random_bytes := [];
              downstream := Some (200, JObj []) |}
           {| method := str "POST"; pathname := str "/api/external-service";
              authorization := Some (str "Bearer " ++ accepted_token);
              json_body := Some (JObj []) |}
           test_env (full_window_world (str "anon_1_ab"))
           (Some (JStr (str "anon_1_ab"))) (Some (JNum 1700000000))
           (Some (JNum 1702592000)) (str "anon_1_ab") (JObj []) 200 (JObj [])).
  - reflexivity.
  - reflexivity.
  - vm_compute. reflexivity.
  - reflexivity.
  - reflexivity.
  - reflexivity.
  - reflexivity.
  - lia.
  - discriminate.
  - discriminate.
  - discriminate.
Defined.

Lemma last_cons_default {A} (l : list A) (x d : A) :
  List.last (x :: l) d = List.last l x.
Proof.
  revert x d. induction l as [|y l IH]; intros x d; [reflexivity|].
  change (List.last (x :: y :: l) d) with (List.last (y :: l) d).
  now rewrite !IH.
Qed.

(** X27.  After any number of usage updates that the KV store answers, the
    record carries the [createdAt] it started with (that of the stored
    record, or the time of the first update when there was none) and the
    time of the last update as [lastRequestAt]. *)
Theorem created_at_is_kept (userId : list N) (first : Z) (later : list Z) (w : World) :
  exists stats,
    USER_STATS_KV (updateUserStats_calls no_faults userId (first :: later) w)
      !! stats_key userId = Some stats /\
    createdAt stats = createdAt (prior_stats userId first w) /\
    lastRequestAt stats = Some (List.last later first).
Proof.
  revert first w. induction later as [|t later IH]; intros first w.
  - cbn [updateUserStats_calls]. rewrite stats_after_update.
    eexists. split; [reflexivity|]. split; reflexivity.
  - destruct (IH t (snd (updateUserStats no_faults userId first w)))
      as (stats & Hlook & Hcreated & Hlast).
    exists stats. cbn [updateUserStats_calls] in *. split; [exact Hlook|].
    split.
    + rewrite Hcreated. unfold prior_stats at 1. rewrite stats_after_update.
      reflexivity.
    + rewrite Hlast. now rewrite last_cons_default.
Qed.

(** ** An accepted request, from the identity to the response *)

(** X28.  For a POST to [/api/external-service] that [authenticateUser]
    accepts, with an identity the template literal can convert and a
    window that has room, when no KV call is rejected: the rate-limit
    record with the new timestamp and then the usage record are written
    before the body is read and before the downstream call.  The usage
    record has one request more in total and on the day of the update, and
    the time of the update as [lastRequestAt].  A request that then fails
    with 400 (body not JSON) or 503 (downstream failure) leaves both
    writes in place. *)
Theorem quota_consumed_before_body
    (P : Platform) (rt : Runtime) (request : Request) (env : Env) (w : World)
    (userId issuedAt expiresAt : option json) (id : list N) :
  method request = str "POST" ->
  pathname request = str "/api/external-service" ->
  authenticateUser P rt request env = AuthSuccess userId issuedAt expiresAt ->
  template_value userId = Ok id ->
  kv_faults rt = no_faults ->
  let now := now_checkRateLimit rt in
  let now_stats := now_updateUserStats rt in
  Z.of_nat (length (remaining_requests id now w)) < maxRequests ->
  let r := fetch P rt request env w in
  let before := USER_STATS_KV w !! stats_key id in
  exists response stats after_quota,
    fst r = Ok response /\
    RATE_LIMIT_KV (snd r) !! rate_limit_key id
      = Some (remaining_requests id now w ++ [now]) /\
    USER_STATS_KV (snd r) !! stats_key id = Some stats /\
    totalRequests stats = total_of before + 1 /\
    lastRequestAt stats = Some now_stats /\
    dailyRequests stats !! toISODate now_stats
      = Some (default 0 (daily_of before !! toISODate now_stats) + 1) /\
    trace (snd r)
      = trace w ++
        [KvEvent (RateLimitGet (rate_limit_key id)) false;
         KvEvent (RateLimitPut (rate_limit_key id)
                    (remaining_requests id now w ++ [now]) 3600) false;
         KvEvent (UserStatsGet (stats_key id)) false;
         KvEvent (UserStatsPut (stats_key id) stats) false] ++ after_quota /\
    match json_body request, downstream rt with
    | None, _ => after_quota = [BodyRead true] /\ status response = 400
    | Some _, None =>
        after_quota = [BodyRead false; DownstreamFetch true] /\ status response = 503
    | Some _, Some _ => after_quota = [BodyRead false; DownstreamFetch false]
    end.
Proof.
  intros Hmethod Hpath Hauth Hid Hfaults now now_stats Hroom. cbv zeta.
  rewrite fetch_external_service by assumption.
  unfold handleExternalApiRequest. rewrite Hmethod, jsstring_eqb_refl, Hauth, Hid, Hfaults.
  cbn [negb]. fold now now_stats.
  unfold tryM, bindM, liftO.
  rewrite (checkRateLimit_admit id now now_stats w Hroom). cbn [allowed allow negb].
  set (stats := record_request (prior_stats id now_stats w) now_stats).
  destruct (record_request_spec (prior_stats id now_stats w) now_stats)
    as (Htotal & Hlast & Htoday & _). fold stats in Htotal, Hlast, Htoday.
  assert (Hprior_total :
    totalRequests (prior_stats id now_stats w) = total_of (USER_STATS_KV w !! stats_key id)).
  { unfold prior_stats. now destruct (USER_STATS_KV w !! stats_key id). }
  assert (Hprior_daily :
    dailyRequests (prior_stats id now_stats w) = daily_of (USER_STATS_KV w !! stats_key id)).
  { unfold prior_stats. now destruct (USER_STATS_KV w !! stats_key id). }
  rewrite Hprior_total in Htotal. rewrite Hprior_daily in Htoday.
  assert (Hrl : RATE_LIMIT_KV (admitted_world id now now_stats w) !! rate_limit_key id
                = Some (remaining_requests id now w ++ [now]))
    by apply lookup_insert_eq.
  assert (Hst : USER_STATS_KV (admitted_world id now now_stats w) !! stats_key id
                = Some stats)
    by apply lookup_insert_eq.
  assert (Htrace : trace (admitted_world id now now_stats w)
                   = trace w ++
                     [KvEvent (RateLimitGet (rate_limit_key id)) false;
                      KvEvent (RateLimitPut (rate_limit_key id)
                                 (remaining_requests id now w ++ [now]) 3600) false;
                      KvEvent (UserStatsGet (stats_key id)) false;
                      KvEvent (UserStatsPut (stats_key id) stats) false])
    by reflexivity.
  generalize dependent (admitted_world id now now_stats w). intros w' Hrl Hst Htrace.
  unfold bindM, tryM, read_json_body, fetch_external, new_Response, ret, reject.
  destruct (json_body request) as [requestBody|].
  - destruct (downstream rt) as [[s data]|].
    + cbn [fst snd].
      destruct ((200 <=? s) && (s <=? 599) && negb ((s =? 204) || (s =? 205) || (s =? 304)));
        eexists _, stats, _; cbn [fst snd log RATE_LIMIT_KV USER_STATS_KV trace];
        (split; [reflexivity|]); (split; [exact Hrl|]); (split; [exact Hst|]);
        (split; [exact Htotal|]); (split; [exact Hlast|]); (split; [exact Htoday|]);
        (split; [rewrite Htrace, <- !app_assoc; reflexivity|reflexivity]).
    + eexists _, stats, _; cbn [fst snd log RATE_LIMIT_KV USER_STATS_KV trace];
        (split; [reflexivity|]); (split; [exact Hrl|]); (split; [exact Hst|]);
        (split; [exact Htotal|]); (split; [exact Hlast|]); (split; [exact Htoday|]);
        (split; [rewrite Htrace, <- !app_assoc; reflexivity|split; reflexivity]).
  - eexists _, stats, _; cbn [fst snd log RATE_LIMIT_KV USER_STATS_KV trace];
      (split; [reflexivity|]); (split; [exact Hrl|]); (split; [exact Hst|]);
      (split; [exact Htotal|]); (split; [exact Hlast|]); (split; [exact Htoday|]);
      (split; [rewrite Htrace, <- !app_assoc; reflexivity|split; reflexivity]).
Qed.

Lemma quota_consumed_before_body_witness :
  let id := str "anon_1_ab" in
  let r := fetch WebCrypto.platform quiet_runtime request_without_json test_env
             empty_world in
  let before := USER_STATS_KV empty_world !! stats_key id in
  exists response stats after_quota,
    fst r = Ok response /\
    RATE_LIMIT_KV (snd r) !! rate_limit_key id
      = Some (remaining_requests id 1700000005001 empty_world ++ [1700000005001]) /\
    USER_STATS_KV (snd r) !! stats_key id = Some stats /\
    totalRequests stats = total_of before + 1 /\
    lastRequestAt stats = Some 1700000005002 /\
    dailyRequests stats !! toISODate 1700000005002
      = Some (default 0 (daily_of before !! toISODate 1700000005002) + 1) /\
    trace (snd r)
      = trace empty_world ++
        [KvEvent (RateLimitGet (rate_limit_key id)) false;
         KvEvent (RateLimitPut (rate_limit_key id)
                    (remaining_requests id 1700000005001 empty_world ++ [1700000005001])
                    3600) false;
         KvEvent (UserStatsGet (stats_key id)) false;
         KvEvent (UserStatsPut (stats_key id) stats) false] ++ after_quota /\
    after_quota = [BodyRead true] /\ status response = 400.
Proof.
  cbv zeta.
  apply (quota_consumed_before_body WebCrypto.platform quiet_runtime
           request_without_json test_env empty_world
           (Some (JStr (str "anon_1_ab"))) (Some (JNum 1700000000))
           (Some (JNum 1702592000)) (str "anon_1_ab")).
  - reflexivity.
  - reflexivity.
  - vm_compute. reflexivity.
  - reflexivity.
  - reflexivity.
  - vm_compute. reflexivity.
Defined.

(** X29.  An accepted token whose [userId] the template literal of
    [checkRateLimit] cannot convert (an object with a member named
    [toString], alone or inside an array) makes that first statement
    throw before the [try]: the worker answers 500 and makes no KV call,
    reads no body and calls nothing downstream. *)
Theorem unconvertible_identity_is_500
    (P : Platform) (rt : Runtime) (request : Request) (env : Env) (w : World)
    (userId issuedAt expiresAt : option json) (e : Exn) :
  method request = str "POST" ->
  pathname request = str "/api/external-service" ->
  authenticateUser P rt request env = AuthSuccess userId issuedAt expiresAt ->
  template_value userId = Throw e ->
  e = Err_Type /\
  fetch P rt request env w
  = (Ok (json_response 500 (ErrorBody (str "Internal Server Error"))), w).
Proof.
  intros Hmethod Hpath Hauth Hid. split.
  - destruct userId as [v|]; [|discriminate]. now apply ToString_throws in Hid.
  - rewrite fetch_external_service by assumption.
    unfold handleExternalApiRequest. rewrite Hmethod, jsstring_eqb_refl, Hauth, Hid.
    reflexivity.
Qed.

Lemma unconvertible_identity_is_500_witness :
  Err_Type = Err_Type /\
  fetch WebCrypto.platform quiet_runtime
    {| method := str "POST"; pathname := str "/api/external-service";
       authorization := Some (str "Bearer " ++ token_with_object_identity);
       json_body := Some (JObj []) |} test_env empty_world
  = (Ok (json_response 500 (ErrorBody (str "Internal Server Error"))), empty_world).
Proof.
  apply (unconvertible_identity_is_500 WebCrypto.platform quiet_runtime
           {| method := str "POST"; pathname := str "/api/external-service";
              authorization := Some (str "Bearer " ++ token_with_object_identity);
              json_body := Some (JObj []) |} test_env empty_world
           (Some (JObj [(str "toString", JNum 0)])) (Some (JNum 1700000000))
           (Some (JNum 1702592000)) Err_Type).
  - reflexivity.
  - reflexivity.
  - vm_compute. reflexivity.
  - reflexivity.
Defined.
